(** * go-ch347: host-side protocol engine for the CH347 USB bridge

    A shallow embedding of the UART, GPIO, SPI and I2C codecs of the Go
    package [ch347] (files uart.go, gpio.go, spi.go, i2c.go, ch347.go),
    followed by the properties of the framing, chunking and confirmation
    logic.

    Conventions of the embedding:
    - Go's [int] is [Z]; a [byte] is a [Z] in [0,256), every value that
      enters a byte slice goes through [byte] (Go's conversion [byte(x)]);
    - a byte slice whose capacity matters ([p] in SPI and I2C) is a
      [slice]: the visible elements plus the rest of the backing array;
    - the transport ([HIDDev]) is an interface, here a type class; every
      call made on it is appended to a log, so that what a codec writes
      and reads can be stated;
    - a Go function returning [error] is a computation in the monad [M],
      where [Fail e] is the return of a non-nil error, [Panic] a run-time
      panic (index or slice bounds out of range) and [OutOfFuel] the
      exhaustion of the bound given to a loop. *)

From Stdlib Require Import ZArith List Bool Lia.
Import ListNotations.
Local Open Scope Z_scope.

(** ** Bytes and lists *)

(** Go's conversion [byte(x)] of an integer. *)
Definition byte (x : Z) : Z := x mod 256.

(** [len(l)] as a Go [int]. *)
Definition len {A : Type} (l : list A) : Z := Z.of_nat (length l).

(** [l[i]] when [0 <= i < len(l)]. *)
Definition get_at (l : list Z) (i : Z) : option Z :=
  if (i <? 0) || (len l <=? i) then None else nth_error l (Z.to_nat i).

(** [l[i] = x] when [0 <= i < len(l)]. *)
Definition set_at (l : list Z) (i : Z) (x : Z) : option (list Z) :=
  if (i <? 0) || (len l <=? i) then None
  else Some (firstn (Z.to_nat i) l ++ x :: skipn (S (Z.to_nat i)) l).

(** [l[a:b]] for a list whose capacity is its length. *)
Definition sub (l : list Z) (a b : Z) : option (list Z) :=
  if (a <? 0) || (b <? a) || (len l <? b) then None
  else Some (firstn (Z.to_nat (b - a)) (skipn (Z.to_nat a) l)).

(** [copy(dst, src)]: the first [min(len(dst), len(src))] elements of
    [dst] are overwritten; the result is the new content of [dst]. *)
Definition copy (dst src : list Z) : list Z :=
  firstn (length dst) src ++ skipn (length src) dst.

(** ** Slices with a backing array *)

Record slice : Type := mkSlice {
  live : list Z;    (* the elements [s[0..len)] *)
  spare : list Z    (* the backing array from [len] to [cap] *)
}.

(** [make([]byte, n, c)]. *)
Definition make (n c : nat) : slice :=
  mkSlice (repeat 0 n) (repeat 0 (c - n)).

Definition slen (s : slice) : Z := len (live s).
Definition scap (s : slice) : Z := len (live s) + len (spare s).

(** [append(s, xs...)]. Within capacity the elements are written into the
    backing array; beyond it Go allocates a larger array, of which only
    the part up to the new length is modelled. *)
Definition append (s : slice) (xs : list Z) : slice :=
  mkSlice (live s ++ xs) (skipn (length xs) (spare s)).

(** [s[:n]], defined when [0 <= n <= cap(s)]. *)
Definition reslice (s : slice) (n : Z) : option slice :=
  if (n <? 0) || (scap s <? n) then None
  else Some (mkSlice (firstn (Z.to_nat n) (live s ++ spare s))
                     (skipn (Z.to_nat n) (live s ++ spare s))).

(** [s[a:b]] read as a list, defined when [0 <= a <= b <= cap(s)]. *)
Definition ssub (s : slice) (a b : Z) : option (list Z) :=
  if (a <? 0) || (b <? a) || (scap s <? b) then None
  else Some (firstn (Z.to_nat (b - a)) (skipn (Z.to_nat a) (live s ++ spare s))).

(** ** Errors and outcomes *)

Inductive error : Type :=
| ErrI2CRead                          (* "i2c read failed" *)
| ErrI2CWrite                         (* "i2c write failed" *)
| ErrInvalidResponse                  (* "invalid response" *)
| ErrUnsupported                      (* errors.ErrUnsupported *)
| ErrTransport (code : nat)           (* an error returned by the device *)
| ErrGPIOResponse (b0 b1 b2 : Z)      (* "invaid response. expected ..." *)
| ErrGPIOOutput (got : Z)             (* "gpio set as output failed" *)
| ErrGPIOInput (got : Z).             (* "gpio set as input failed" *)

Inductive outcome (A : Type) : Type :=
| Done (a : A)
| Fail (e : error)
| Panic
| OutOfFuel.
Arguments Done {A} a.
Arguments Fail {A} e.
Arguments Panic {A}.
Arguments OutOfFuel {A}.

(** ** The state and error monad *)

Definition M (S A : Type) : Type := S -> outcome A * S.

Definition ret {S A : Type} (a : A) : M S A := fun s => (Done a, s).

Definition bind {S A B : Type} (c : M S A) (k : A -> M S B) : M S B :=
  fun s =>
    match c s with
    | (Done a, s') => k a s'
    | (Fail e, s') => (Fail e, s')
    | (Panic, s') => (Panic, s')
    | (OutOfFuel, s') => (OutOfFuel, s')
    end.

Declare Scope go_scope.
Delimit Scope go_scope with go.
Notation "x <- c ;; k" := (bind c (fun x => k))
  (at level 61, c at next level, right associativity) : go_scope.
Notation "c ;; k" := (bind c (fun _ => k))
  (at level 61, right associativity) : go_scope.
Local Open Scope go_scope.

Definition fail {S A : Type} (e : error) : M S A := fun s => (Fail e, s).
Definition panic {S A : Type} : M S A := fun s => (Panic, s).
Definition gets {S A : Type} (f : S -> A) : M S A := fun s => (Done (f s), s).
Definition modify {S : Type} (f : S -> S) : M S unit := fun s => (Done tt, f s).

(** A partial operation panics where it is undefined. *)
Definition must {S A : Type} (o : option A) : M S A :=
  match o with Some a => ret a | None => panic end.

Definition when {S : Type} (b : bool) (c : M S unit) : M S unit :=
  if b then c else ret tt.

(** [for cond { body }], with a bound on the number of iterations. *)
Fixpoint while {S : Type} (fuel : nat) (cond : S -> bool) (body : M S unit)
  : M S unit :=
  fun s =>
    if cond s then
      match fuel with
      | O => (OutOfFuel, s)
      | Datatypes.S fuel' => bind body (fun _ => while fuel' cond body) s
      end
    else (Done tt, s).

(** ** The transport *)

(** [HIDDev]: [io.ReadWriter] plus [SendFeatureReport]. The codecs ignore
    the byte counts the calls return, so a call yields the next device
    state, the optional error and, for [Read], the bytes delivered into
    the buffer whose length is passed. *)
Class HIDDev (D : Type) : Type := {
  dev_Write : D -> list Z -> D * option nat;
  dev_Read : D -> nat -> D * list Z * option nat;
  dev_SendFeatureReport : D -> list Z -> D * option nat
}.

Inductive event : Type :=
| EvWrite (frame : list Z)
| EvRead (buflen : nat) (data : list Z)
| EvFeature (report : list Z).

(** The device together with the log of the calls made on it. *)
Record io (D : Type) : Type := mkIO {
  Dev : D;
  log : list event
}.
Arguments mkIO {D} _ _.
Arguments Dev {D} _.
Arguments log {D} _.

(** What a buffer holds after [Read] delivered [data] into it. *)
Definition fill (buf data : list Z) : list Z := copy buf (map byte data).

(** The state of a codec call: the device with its log, and the local
    variables of the call. *)
Definition st (D L : Type) : Type := (io D * L)%type.

Section Transport.
Context {D : Type} `{HIDDev D}.

Definition local {L A : Type} (f : L -> A) : M (st D L) A :=
  gets (fun s => f (snd s)).
Definition update {L : Type} (f : L -> L) : M (st D L) unit :=
  modify (fun s => (fst s, f (snd s))).

(** [_, err := c.Dev.Write(p); if err != nil { return err }] *)
Definition Dev_Write {L : Type} (p : list Z) : M (st D L) unit :=
  fun s =>
    let '(d', err) := dev_Write (Dev (fst s)) p in
    let s' := (mkIO d' (log (fst s) ++ [EvWrite p]), snd s) in
    match err with
    | None => (Done tt, s')
    | Some c => (Fail (ErrTransport c), s')
    end.

(** [_, err := c.Dev.Read(p); if err != nil { return err }]; the result
    is the content of [p] after the call. *)
Definition Dev_Read {L : Type} (p : list Z) : M (st D L) (list Z) :=
  fun s =>
    let '(d', data, err) := dev_Read (Dev (fst s)) (length p) in
    let s' := (mkIO d' (log (fst s) ++ [EvRead (length p) data]), snd s) in
    match err with
    | None => (Done (fill p data), s')
    | Some c => (Fail (ErrTransport c), s')
    end.

Definition Dev_SendFeatureReport {L : Type} (p : list Z) : M (st D L) unit :=
  fun s =>
    let '(d', err) := dev_SendFeatureReport (Dev (fst s)) p in
    let s' := (mkIO d' (log (fst s) ++ [EvFeature p]), snd s) in
    match err with
    | None => (Done tt, s')
    | Some c => (Fail (ErrTransport c), s')
    end.

(** A transport none of whose calls returns an error. *)
Definition error_free : Prop :=
  (forall d p, snd (dev_Write d p) = None) /\
  (forall d n, snd (dev_Read d n) = None).
End Transport.

(** Run a codec call from a device with an empty log. *)
Definition run {D L A : Type} (c : M (st D L) A) (d : D) (l : L)
  : outcome A * st D L := c (mkIO d [], l).

(** A method called by another one runs on the same device, with local
    variables of its own; the caller's variables are untouched. *)
Definition call {D L L' A : Type} (l0 : L') (c : M (st D L') A) : M (st D L) A :=
  fun s => let '(o, s') := c (fst s, l0) in (o, (fst s', snd s)).

(** [err := f()], the error kept as a value for the caller to look at
    or to drop; a panic stays a panic. *)
Definition attempt {S A : Type} (c : M S A) : M S (option error) :=
  fun s =>
    match c s with
    | (Done _, s') => (Done None, s')
    | (Fail e, s') => (Done (Some e), s')
    | (Panic, s') => (Panic, s')
    | (OutOfFuel, s') => (OutOfFuel, s')
    end.

(** [for cond() { }] where the condition is a call, with a bound on the
    number of times it is evaluated. *)
Fixpoint poll {S : Type} (fuel : nat) (cond : M S bool) : M S unit :=
  fun s =>
    match fuel with
    | O => (OutOfFuel, s)
    | Datatypes.S fuel' =>
        bind cond (fun b => if b then poll fuel' cond else ret tt) s
    end.

(** ** Devices used to run the codecs *)

(** A device that accepts every write and answers the reads from a script,
    one entry per [Read]; once the script is exhausted it delivers nothing. *)
Definition Scripted : Type := list (list Z).

#[export] Instance Scripted_HIDDev : HIDDev Scripted := {
  dev_Write d _ := (d, None);
  dev_Read d _ := match d with
                  | [] => ([], [], None)
                  | x :: d' => (d', x, None)
                  end;
  dev_SendFeatureReport d _ := (d, None)
}.

(** A device that acknowledges everything: each [Read] fills the buffer
    with [0x01]. *)
Inductive Acking : Type := acking.

#[export] Instance Acking_HIDDev : HIDDev Acking := {
  dev_Write d _ := (d, None);
  dev_Read d n := (d, repeat 1 n, None);
  dev_SendFeatureReport d _ := (d, None)
}.

(** The transport calls found in a log. *)
Definition written (l : list event) : list (list Z) :=
  flat_map (fun e => match e with EvWrite f => [f] | _ => [] end) l.
Definition reads (l : list event) : list nat :=
  flat_map (fun e => match e with EvRead n _ => [n] | _ => [] end) l.

(** ** uart.go *)

Module UART.
Section Codec.
Context {D : Type} `{HIDDev D}.

(** [func (c *UART) Set(baudRate uint32, dataBits, parity, stop) error] *)
Definition Set_ (baudRate dataBits parity stop : Z) : M (st D unit) unit :=
  let p := [0xcb; 0x08; 0x00;
            byte (Z.land (Z.shiftr baudRate 0) 0xff);
            byte (Z.land (Z.shiftr baudRate 8) 0xff);
            byte (Z.land (Z.shiftr baudRate 16) 0xff);
            0x00;
            byte stop; byte parity; byte dataBits; 0x00] in
  Dev_SendFeatureReport p.



(** [func (c *UART) Read(b []byte) (int, error)]: the result is the
    count returned together with the content of [b] after the call; a
    transport error, returned by Go as [(0, err)], is [Fail]. *)
Definition Read (b : list Z) : M (st D unit) (Z * list Z) :=
  let plen := len b in
  let plen := if plen >? 510 then 510 else plen in
  let p := repeat 0 (Z.to_nat (plen + 2)) in
  p <- Dev_Read p ;;
  p1 <- must (get_at p 1) ;;
  p0 <- must (get_at p 0) ;;
  let n := Z.lor (Z.shiftl p1 8) p0 in
  let n := if n >? len b then len b else n in
  dst <- must (sub b 0 n) ;;
  src <- must (sub p 2 (len p)) ;;
  ret (n, copy dst src ++ skipn (Z.to_nat n) b).

(** The variables of [Write] that live across the iterations. *)
Record write_vars : Type := mkWriteVars {
  w_p : list Z;
  w_pos : Z
}.

(** One iteration of the loop of [Write]. *)
Definition Write_body (b : list Z) (plen wlen : Z) : M (st D write_vars) unit :=
  pos <- local w_pos ;;
  p <- local w_p ;;
  let dlen := wlen - pos in
  let dlen := if dlen >? plen then plen else dlen in
  p <- must (set_at p 0 (byte (Z.land dlen 0xff))) ;;
  p <- must (set_at p 1 (byte (Z.land (Z.shiftr dlen 8) 0xff))) ;;
  dst <- must (sub p 2 (len p)) ;;
  src <- must (sub b pos (pos + dlen)) ;;
  let p := firstn 2 p ++ copy dst src in
  p <- (if negb (dlen =? plen) then must (sub p 0 (2 + dlen)) else ret p) ;;
  update (fun v => mkWriteVars p (w_pos v)) ;;
  Dev_Write p ;;
  update (fun v => mkWriteVars (w_p v) (pos + dlen)).

(** [func (c *UART) Write(b []byte) (int, error)]: Go returns [pos]
    with the error or with nil; here [pos] is the [w_pos] of the final
    state, and the outcome is [Done] or the error. *)
Definition Write (b : list Z) : M (st D write_vars) unit :=
  let plen := len b in
  let plen := if plen >? 510 then 510 else plen in
  let wlen := len b in
  update (fun _ => mkWriteVars (repeat 0 (Z.to_nat (plen + 2))) 0) ;;
  while (length b) (fun s => w_pos (snd s) <? wlen) (Write_body b plen wlen).

Definition Write_init : write_vars := mkWriteVars [] 0.
End Codec.
End UART.

(** ** gpio.go *)

Module GPIO.
Section Codec.
Context {D : Type} `{HIDDev D}.

(** [type Pin uint8]; [GPIO0] to [GPIO7] are [0] to [7]. *)
Definition Pin : Type := Z.

Definition status_frame : list Z :=
  [0x0b; 0x00; 0xcc; 0x08; 0x00; 0x00; 0x00; 0x00; 0x00; 0x00; 0x00; 0x00; 0x00].

(** [p[0] != 0x0b || p[2] != 0xcc] fails with the formatted error. *)
Definition check_header (p : list Z) : M (st D unit) unit :=
  p0 <- must (get_at p 0) ;;
  p1 <- must (get_at p 1) ;;
  p2 <- must (get_at p 2) ;;
  if negb (p0 =? 0x0b) || negb (p2 =? 0xcc)
  then fail (ErrGPIOResponse p0 p1 p2)
  else ret tt.

(** [func (c *IO) WritePin(pin Pin, output bool, level bool) error] *)
Definition WritePin (pin : Pin) (output level : bool) : M (st D unit) unit :=
  let p := status_frame in
  let pos := byte (5 + pin) in
  p <- must (set_at p pos
               (if output then (if level then 0xf8 else 0xf0) else 0xc0)) ;;
  Dev_Write p ;;
  p <- Dev_Read p ;;
  check_header p ;;
  b <- must (get_at p pos) ;;
  if output then
    let mask := 0x80 in
    let mask := if level then Z.lor mask 0x40 else mask in
    if Z.land b mask =? 0x00 then fail (ErrGPIOOutput b) else ret tt
  else
    if negb (Z.land b 0x80 =? 0x00) then fail (ErrGPIOInput b) else ret tt.

(** [func (c *IO) ReadPin(pin Pin) (bool, error)] *)
Definition ReadPin (pin : Pin) : M (st D unit) bool :=
  let p := status_frame in
  Dev_Write p ;;
  p <- Dev_Read p ;;
  check_header p ;;
  let pos := byte (5 + pin) in
  b <- must (get_at p pos) ;;
  if negb (Z.land b 0x80 =? 0x00) then
    (if negb (Z.land b 0x40 =? 0x00) then ret true else ret false)
  else
    (if negb (Z.land b 0x40 =? 0x00) then ret false else ret true).
End Codec.
End GPIO.

(** ** spi.go *)

Module SPI.

Definition CmdSPIWrite : Z := 0xc4.
Definition maxDataLen : Z := 509.
Definition maxOpLen : Z := 32768 - maxDataLen * 2.

(** The variables of [SPI] captured by the closure [write] or living
    across the iterations of its loop. *)
Record vars : Type := mkVars {
  v_p : slice;
  v_sent : Z;
  v_pos : Z;
  v_olen : Z
}.

Definition set_p (p : slice) (v : vars) : vars :=
  mkVars p (v_sent v) (v_pos v) (v_olen v).
Definition set_sent (n : Z) (v : vars) : vars :=
  mkVars (v_p v) n (v_pos v) (v_olen v).
Definition set_pos (n : Z) (v : vars) : vars :=
  mkVars (v_p v) (v_sent v) n (v_olen v).
Definition set_olen (n : Z) (v : vars) : vars :=
  mkVars (v_p v) (v_sent v) (v_pos v) n.

(** [p := make([]byte, 0, 512); sent := 0; var pos, olen int] *)
Definition init : vars := mkVars (make 0 512) 0 0 0.

Section Codec.
Context {D : Type} `{HIDDev D}.

(** The configuration frame built by [SetSPI]. *)
Definition config_frame (mode clock byteOrder : Z) : slice :=
  let p := make 0 29 in
  let p := append p [0x1d; 0x00] in
  let p := append p [0xc0; 0x1a; 0x00; 0x00; 0x00; 0x04; 0x01; 0x00; 0x00] in
  let p := if mode =? 0 then append p [0x00; 0x00; 0x00; 0x00]
           else if mode =? 1 then append p [0x00; 0x00; 0x01; 0x00]
           else if mode =? 2 then append p [0x02; 0x00; 0x00; 0x00]
           else if mode =? 3 then append p [0x02; 0x00; 0x01; 0x00]
           else p in
  let p := append p [0x00; 0x02] in
  let p := append p [byte (Z.shiftl clock 3)] in
  let p := append p [0x00] in
  let p := append p [byte (Z.shiftl (byte byteOrder) 7)] in
  let p := append p [0x00; 0x07; 0x00] in
  let p := append p [0x00; 0x00] in
  let p := append p [0xff] in
  let p := append p [0x00] in
  append p [0x00; 0x00; 0x00; 0x00].

(** [func (c *IO) SetSPI(mode SPIMode, clock SPIClock, byteOrder SPIByteOrder) error] *)
Definition SetSPI (mode clock byteOrder : Z) : M (st D unit) unit :=
  let p := config_frame mode clock byteOrder in
  Dev_Write (live p) ;;
  p <- must (reslice p 6) ;;
  p <- Dev_Read (live p) ;;
  p2 <- must (get_at p 2) ;;
  p3 <- must (get_at p 3) ;;
  if negb (p2 =? 0xc0) && negb (p3 =? 0x01)
  then fail ErrInvalidResponse
  else ret tt.

(** One turn of [for ; sent > 0; sent-- { ... }]: read one
    acknowledgement into [p[:5]] and check it. *)
Definition confirm : M (st D vars) unit :=
  p <- local v_p ;;
  p <- must (reslice p 5) ;;
  update (set_p p) ;;
  l <- Dev_Read (live p) ;;
  update (set_p (mkSlice l (spare p))) ;;
  p2 <- must (get_at l 2) ;;
  p3 <- must (get_at l 3) ;;
  (if negb (p2 =? 0xc4) && negb (p3 =? 0x01)
   then fail ErrInvalidResponse
   else ret tt) ;;
  sent <- local v_sent ;;
  update (set_sent (sent - 1)).

(** The closure [write := func(finish bool) error]. *)
Definition write (finish : bool) : M (st D vars) unit :=
  p <- local v_p ;;
  if slen p <=? 2 then ret tt
  else
    let plen := slen p - 2 in
    l <- must (set_at (live p) 0 (byte (Z.land plen 0xff))) ;;
    l <- must (set_at l 1 (byte (Z.land (Z.shiftr plen 8) 0xff))) ;;
    update (set_p (mkSlice l (spare p))) ;;
    Dev_Write l ;;
    sent <- local v_sent ;;
    update (set_sent (sent + 1)) ;;
    when finish
      (sent <- local v_sent ;;
       while (Z.to_nat sent) (fun s => 0 <? v_sent (snd s)) confirm) ;;
    p <- local v_p ;;
    p <- must (reslice p 2) ;;
    update (set_p p).

(** One iteration of [for pos < wlen { ... }]. *)
Definition body (w : list Z) (wlen : Z) : M (st D vars) unit :=
  olen <- local v_olen ;;
  pos <- local v_pos ;;
  when (olen =? 0)
    (let nlen := wlen - pos in
     let nlen := if nlen >? maxOpLen then maxOpLen else nlen in
     p <- local v_p ;;
     update (set_p (append p [0x00; 0x00; CmdSPIWrite;
                              Z.land (byte nlen) 0xff;
                              Z.land (byte (Z.shiftr nlen 8)) 0xff]))) ;;
  p <- local v_p ;;
  let dlen := wlen - pos in
  let plen := slen p in
  let dlen := if plen + dlen >? maxDataLen then maxDataLen - plen else dlen in
  let nlen := olen + dlen in
  let dlen := if nlen >? maxOpLen then maxOpLen - olen else dlen in
  data <- must (sub w pos (pos + dlen)) ;;
  update (set_p (append p data)) ;;
  p <- local v_p ;;
  when (slen p >=? maxDataLen) (write false) ;;
  update (set_pos (pos + dlen)) ;;
  update (set_olen (olen + dlen)) ;;
  when (olen + dlen =? maxOpLen)
    (write true ;;
     p <- local v_p ;;
     p <- must (reslice p 0) ;;
     update (set_p p) ;;
     update (set_olen 0)).

(** [func (c *IO) SPI(w, r []byte) error], started from [init]. *)
Definition SPI (w r : list Z) : M (st D vars) unit :=
  if negb (len r =? 0) then fail ErrUnsupported
  else
    let wlen := len w in
    while (length w) (fun s => v_pos (snd s) <? wlen) (body w wlen) ;;
    write true.
Definition CmdSPICS : Z := 0xc1.

(** The frame [setCS] starts from. *)
Definition cs_frame : list Z :=
  [0x0d; 0x00; CmdSPICS; 0x0a; 0x00;
   0x00;
   0x00; 0x00; 0x00; 0x00;
   0x00;
   0x00; 0x00; 0x00; 0x00].

(** [func (c *IO) setCS(cs int, enable bool) error] *)
Definition setCS (cs : Z) (enable : bool) : M (st D unit) unit :=
  let p := cs_frame in
  let pos := 5 + 5 * cs in
  p <- must (set_at p pos (if enable then 0x80 else 0xc0)) ;;
  Dev_Write p.

(** [func (c *IO) SetCS(enable bool) error] *)
Definition SetCS (enable : bool) : M (st D unit) unit := setCS 0 enable.

(** [func (c *IO) SetCS1(enable bool) error] *)
Definition SetCS1 (enable : bool) : M (st D unit) unit := setCS 1 enable.
End Codec.
End SPI.

(** ** i2c.go *)

Module I2C.

Definition maxPacketLen : Z := 512.
Definition CmdI2CStream : Z := 0xAA.
Definition CmdI2CStart : Z := 0x74.
Definition CmdI2CStop : Z := 0x75.
Definition CmdI2CWrite : Z := 0x80.
Definition CmdI2CRead : Z := 0xc0.
Definition maxLen : Z := 63.

(** The variables of [I2C]: those captured by the closures [write] and
    [pack], the caller's read buffer [r], and those living across the
    iterations of the two loops. *)
Record vars : Type := mkVars {
  v_p : slice;
  v_toWrite : Z;
  v_toRead : Z;
  v_rpos : Z;
  v_hasRead : bool;
  v_r : list Z;
  v_cpos : Z;       (* [pos] of the closure [write] *)
  v_d : list Z;
  v_pos : Z;        (* [pos] of the write loop *)
  v_rlen : Z;
  v_maxRLen : Z;
  v_send : bool
}.

Definition set_p (x : slice) (v : vars) : vars :=
  mkVars x (v_toWrite v) (v_toRead v) (v_rpos v) (v_hasRead v) (v_r v)
         (v_cpos v) (v_d v) (v_pos v) (v_rlen v) (v_maxRLen v) (v_send v).
Definition set_toWrite (x : Z) (v : vars) : vars :=
  mkVars (v_p v) x (v_toRead v) (v_rpos v) (v_hasRead v) (v_r v)
         (v_cpos v) (v_d v) (v_pos v) (v_rlen v) (v_maxRLen v) (v_send v).
Definition set_toRead (x : Z) (v : vars) : vars :=
  mkVars (v_p v) (v_toWrite v) x (v_rpos v) (v_hasRead v) (v_r v)
         (v_cpos v) (v_d v) (v_pos v) (v_rlen v) (v_maxRLen v) (v_send v).
Definition set_rpos (x : Z) (v : vars) : vars :=
  mkVars (v_p v) (v_toWrite v) (v_toRead v) x (v_hasRead v) (v_r v)
         (v_cpos v) (v_d v) (v_pos v) (v_rlen v) (v_maxRLen v) (v_send v).
Definition set_hasRead (x : bool) (v : vars) : vars :=
  mkVars (v_p v) (v_toWrite v) (v_toRead v) (v_rpos v) x (v_r v)
         (v_cpos v) (v_d v) (v_pos v) (v_rlen v) (v_maxRLen v) (v_send v).
Definition set_r (x : list Z) (v : vars) : vars :=
  mkVars (v_p v) (v_toWrite v) (v_toRead v) (v_rpos v) (v_hasRead v) x
         (v_cpos v) (v_d v) (v_pos v) (v_rlen v) (v_maxRLen v) (v_send v).
Definition set_cpos (x : Z) (v : vars) : vars :=
  mkVars (v_p v) (v_toWrite v) (v_toRead v) (v_rpos v) (v_hasRead v) (v_r v)
         x (v_d v) (v_pos v) (v_rlen v) (v_maxRLen v) (v_send v).
Definition set_d (x : list Z) (v : vars) : vars :=
  mkVars (v_p v) (v_toWrite v) (v_toRead v) (v_rpos v) (v_hasRead v) (v_r v)
         (v_cpos v) x (v_pos v) (v_rlen v) (v_maxRLen v) (v_send v).
Definition set_pos (x : Z) (v : vars) : vars :=
  mkVars (v_p v) (v_toWrite v) (v_toRead v) (v_rpos v) (v_hasRead v) (v_r v)
         (v_cpos v) (v_d v) x (v_rlen v) (v_maxRLen v) (v_send v).
Definition set_rlen (x : Z) (v : vars) : vars :=
  mkVars (v_p v) (v_toWrite v) (v_toRead v) (v_rpos v) (v_hasRead v) (v_r v)
         (v_cpos v) (v_d v) (v_pos v) x (v_maxRLen v) (v_send v).
Definition set_maxRLen (x : Z) (v : vars) : vars :=
  mkVars (v_p v) (v_toWrite v) (v_toRead v) (v_rpos v) (v_hasRead v) (v_r v)
         (v_cpos v) (v_d v) (v_pos v) (v_rlen v) x (v_send v).
Definition set_send (x : bool) (v : vars) : vars :=
  mkVars (v_p v) (v_toWrite v) (v_toRead v) (v_rpos v) (v_hasRead v) (v_r v)
         (v_cpos v) (v_d v) (v_pos v) (v_rlen v) (v_maxRLen v) x.

(** [p := make([]byte, 0, 512); toWrite := 0; toRead := 0; rpos := 0;
    hasRead := false], with the caller's buffer [r]. *)
Definition init (r : list Z) : vars :=
  mkVars (make 0 512) 0 0 0 false r 0 [] 0 0 0 false.

Section Codec.
Context {D : Type} `{HIDDev D}.

(** [func (c *IO) SetI2C(mode I2CMode) error] *)
Definition SetI2C (mode : Z) : M (st D unit) unit :=
  Dev_Write [0x03; 0x00; 0xaa; Z.lor 0x60 (byte mode); 0x00].

(** One turn of [for toWrite > 0 { ... }] in the closure [write]. *)
Definition confirm_write : M (st D vars) unit :=
  p <- local v_p ;;
  pos <- local v_cpos ;;
  b <- must (get_at (live p) pos) ;;
  (if b =? 0x00 then fail ErrI2CWrite else ret tt) ;;
  toWrite <- local v_toWrite ;;
  update (set_toWrite (toWrite - 1)) ;;
  update (set_cpos (pos + 1)).

(** [if toRead > 0 { ... }] in the closure [write]. *)
Definition confirm_reads : M (st D vars) unit :=
  toRead <- local v_toRead ;;
  when (toRead >? 0)
    (hasRead <- local v_hasRead ;;
     when hasRead
       (update (set_hasRead false) ;;
        p <- local v_p ;;
        pos <- local v_cpos ;;
        b <- must (get_at (live p) pos) ;;
        (if negb (b =? 0x01) then fail ErrI2CRead else ret tt) ;;
        update (set_cpos (pos + 1))) ;;
     p <- local v_p ;;
     pos <- local v_cpos ;;
     r <- local v_r ;;
     rpos <- local v_rpos ;;
     dst <- must (sub r rpos (rpos + toRead)) ;;
     src <- must (ssub p pos (pos + toRead)) ;;
     update (set_r (firstn (Z.to_nat rpos) r ++ copy dst src
                      ++ skipn (Z.to_nat (rpos + toRead)) r)) ;;
     update (set_rpos (rpos + toRead)) ;;
     update (set_toRead 0)).

(** The closure [write := func() error]: send the frame in [p] and
    confirm the operations it carries. *)
Definition write : M (st D vars) unit :=
  p <- local v_p ;;
  let p := append p [0x00] in
  let plen := slen p - 2 in
  l <- must (set_at (live p) 0 (byte (Z.land plen 0xff))) ;;
  l <- must (set_at l 1 (byte (Z.land (Z.shiftr plen 8) 0xff))) ;;
  let p := mkSlice l (spare p) in
  update (set_p p) ;;
  Dev_Write l ;;
  toWrite <- local v_toWrite ;;
  toRead <- local v_toRead ;;
  hasRead <- local v_hasRead ;;
  let clen := toWrite + toRead in
  when (clen >? 0)
    (let clen := if hasRead then clen + 1 else clen in
     let rlen := 2 + clen in
     p <- must (reslice p rlen) ;;
     update (set_p p) ;;
     l <- Dev_Read (live p) ;;
     update (set_p (mkSlice l (spare p))) ;;
     update (set_cpos 2) ;;
     while (Z.to_nat toWrite) (fun s => v_toWrite (snd s) >? 0) confirm_write ;;
     confirm_reads) ;;
  p <- local v_p ;;
  p <- must (reslice p 0) ;;
  update (set_p p).

(** The closure [pack := func(elems ...byte) error]. *)
Definition pack (elems : list Z) : M (st D vars) unit :=
  p <- local v_p ;;
  when (slen p + len elems >=? maxPacketLen - 2) write ;;
  p <- local v_p ;;
  when (slen p =? 0)
    (update (set_p (append (append p [0x00; 0x00]) [CmdI2CStream]))) ;;
  p <- local v_p ;;
  update (set_p (append p elems)).

(** One iteration of [for pos < wlen { ... }]. *)
Definition write_body (addr : Z) (w : list Z) (wlen : Z) : M (st D vars) unit :=
  pos <- local v_pos ;;
  let dlen := wlen - pos in
  let dlen := if dlen >? maxLen then maxLen else dlen in
  let dlen := if (pos =? 0) && (dlen =? maxLen) then dlen - 1 else dlen in
  when (pos =? 0)
    (d <- local v_d ;;
     update (set_d (d ++ [byte (Z.shiftl addr 1 mod 65536)]))) ;;
  d <- local v_d ;;
  data <- must (sub w pos (pos + dlen)) ;;
  let d := d ++ data in
  let pos := pos + dlen in
  update (set_pos pos) ;;
  let dlen := len d - 1 in
  let dlen := if pos =? 0 then dlen + 1 else dlen in
  d <- must (set_at d 0 (Z.lor CmdI2CWrite (byte dlen))) ;;
  update (set_d d) ;;
  pack d ;;
  d <- must (sub d 0 1) ;;
  update (set_d d) ;;
  toWrite <- local v_toWrite ;;
  update (set_toWrite (toWrite + dlen)).

(** One iteration of [for rlen > 0 { ... }]. *)
Definition read_body : M (st D vars) unit :=
  rlen <- local v_rlen ;;
  let dlen := rlen in
  let dlen := if dlen >? maxLen then maxLen else dlen in
  toWrite <- local v_toWrite ;;
  toRead <- local v_toRead ;;
  hasRead <- local v_hasRead ;;
  let nlen := 2 + toWrite + toRead + dlen in
  let dlen := if nlen >=? maxPacketLen then dlen - (nlen - maxPacketLen) else dlen in
  when (nlen >=? maxPacketLen)
    (update (set_send true) ;;
     when hasRead (update (set_toRead (toRead - 1)))) ;;
  maxRLen <- local v_maxRLen ;;
  d <- local v_d ;;
  (if maxRLen =? 63 then
     update (set_d (d ++ [Z.lor CmdI2CRead (byte dlen)]))
   else if dlen >? 1 then
     update (set_d (d ++ [byte (Z.lor CmdI2CRead (byte dlen) - 1)]))
   else ret tt) ;;
  when (maxRLen =? 64) (update (set_maxRLen 63)) ;;
  toRead <- local v_toRead ;;
  update (set_toRead (toRead + dlen)) ;;
  send <- local v_send ;;
  when send
    (update (set_send false) ;;
     d <- local v_d ;;
     pack d ;;
     write ;;
     update (set_d [])) ;;
  update (set_rlen (rlen - dlen)).

(** [func (c *IO) I2C(addr uint16, w, r []byte) error], started from
    [init r]; the content of [r] after the call is the [v_r] of the
    final state. *)
Definition I2C (addr : Z) (w : list Z) : M (st D vars) unit :=
  let wlen := len w in
  when (negb (wlen =? 0))
    (pack [CmdI2CStart] ;;
     update (set_pos 0) ;;
     update (set_d [CmdI2CWrite]) ;;
     while (length w) (fun s => v_pos (snd s) <? wlen) (write_body addr w wlen)) ;;
  r <- local v_r ;;
  let rlen := len r in
  when (negb (rlen =? 0))
    (update (set_d [CmdI2CStart; Z.lor CmdI2CWrite 1;
                    Z.lor (byte (Z.shiftl addr 1 mod 65536)) 1]) ;;
     update (set_hasRead true) ;;
     update (set_maxRLen 64) ;;
     update (set_send false) ;;
     update (set_rlen rlen) ;;
     while (length r) (fun s => v_rlen (snd s) >? 0) read_body ;;
     hasRead <- local v_hasRead ;;
     when (negb hasRead)
       (toRead <- local v_toRead ;;
        update (set_toRead (toRead + 1))) ;;
     d <- local v_d ;;
     let d := d ++ [CmdI2CRead] in
     update (set_d d) ;;
     pack d) ;;
  pack [CmdI2CStop] ;;
  write.
End Codec.
End I2C.

(** ** The example uart-pzem-004t *)

Module Pzem.

(** One turn of [for i := 8; i != 0; i--] in [crc16]. *)
Definition crc16_bit (crc : Z) : Z :=
  if negb (Z.land crc 0x0001 =? 0)
  then Z.lxor (Z.shiftr crc 1) 0xA001
  else Z.shiftr crc 1.

(** One turn of [for _, a := range p]: [crc ^= uint16(a)], then the
    eight turns of the inner loop. *)
Definition crc16_byte (crc a : Z) : Z :=
  Nat.iter 8 crc16_bit (Z.lxor crc a).

(** [func crc16(p []byte) uint16] *)
Definition crc16 (p : list Z) : Z := fold_left crc16_byte p 0xffff.

End Pzem.

(** ** The example i2c-aht2x *)

Module AHT2x.

(** One turn of [for i := 8; i > 0; i--] in [crc8]; the shift is on a
    [uint8]. *)
Definition crc8_bit (crc : Z) : Z :=
  if negb (Z.land crc 0x80 =? 0x00)
  then Z.lxor (byte (Z.shiftl crc 1)) 0x31
  else byte (Z.shiftl crc 1).

(** One turn of [for _, a := range p]. *)
Definition crc8_byte (crc a : Z) : Z :=
  Nat.iter 8 crc8_bit (Z.lxor crc a).

(** [func crc8(p []byte) uint8] *)
Definition crc8 (p : list Z) : Z := fold_left crc8_byte p 0xff.

End AHT2x.

(** ** The example spi-flash *)

Module Flash.

(** The conversion of a product to Go's 64-bit [int]. *)
Definition int64 (x : Z) : Z := (x + 2 ^ 63) mod 2 ^ 64 - 2 ^ 63.

(** The variables of [Write]. *)
Record write_vars : Type := mkWrite {
  f_addr : Z;        (* [addr] *)
  f_dlen : Z;        (* [dlen] *)
  f_w : list Z       (* [w] *)
}.

Definition set_addr (n : Z) (v : write_vars) : write_vars :=
  mkWrite n (f_dlen v) (f_w v).
Definition set_dlen (n : Z) (v : write_vars) : write_vars :=
  mkWrite (f_addr v) n (f_w v).
Definition set_w (w : list Z) (v : write_vars) : write_vars :=
  mkWrite (f_addr v) (f_dlen v) w.

(** [addr, dlen := 0, 256; w := make([]byte, 4+dlen)] *)
Definition Write_init : write_vars := mkWrite 0 256 (repeat 0 (Z.to_nat (4 + 256))).

Section Methods.
Context {D : Type} `{HIDDev D}.

(** [func (f *Flash) Capacity() int] *)
Definition Capacity : M (st D unit) Z :=
  let w := [0x9f] in
  let r := repeat 0 3 in
  attempt (SPI.SetCS true) ;;
  err <- attempt (call SPI.init (SPI.SPI w r)) ;;
  attempt (SPI.SetCS false) ;;
  match err with
  | Some _ => ret 0
  | None =>
      r2 <- must (get_at r 2) ;;
      ret (Nat.iter (Z.to_nat r2) (fun size => int64 (size * 2)) 1)
  end.

(** [func (f *Flash) IsBusy() bool] *)
Definition IsBusy : M (st D unit) bool :=
  let w := [0x05] in
  let r := repeat 0 1 in
  attempt (SPI.SetCS true) ;;
  err <- attempt (call SPI.init (SPI.SPI w r)) ;;
  attempt (SPI.SetCS false) ;;
  match err with
  | Some _ => ret false
  | None =>
      r0 <- must (get_at r 0) ;;
      ret (Z.land r0 0x1 =? 1)
  end.

(** [func (f *Flash) WriteEnable(enable bool)] *)
Definition WriteEnable (enable : bool) : M (st D unit) unit :=
  let w := [if negb enable then 0x04 else 0x06] in
  attempt (SPI.SetCS true) ;;
  attempt (call SPI.init (SPI.SPI w [])) ;;
  attempt (SPI.SetCS false) ;;
  ret tt.

(** [func (f *Flash) Erase() error]; [fuel] bounds the polls of the busy
    flag, between which the code only sleeps. *)
Definition Erase (fuel : nat) : M (st D unit) unit :=
  WriteEnable true ;;
  let w := [0xc7] in
  attempt (SPI.SetCS true) ;;
  err <- attempt (call SPI.init (SPI.SPI w [])) ;;
  attempt (SPI.SetCS false) ;;
  match err with
  | Some e => fail e
  | None => poll fuel IsBusy
  end.

(** [func (f *Flash) Read(p []byte) (int, error)]: the result is the
    count returned; an error, returned by Go as [(0, err)], is [Fail].
    [SPI] writes nothing into [p]. *)
Definition Read (p : list Z) : M (st D unit) Z :=
  let addr := 0x00 in
  let w := [0x03;
            byte (Z.land (Z.shiftr addr 16) 0xff);
            byte (Z.land (Z.shiftr addr 8) 0xff);
            byte (Z.land addr 0xff)] in
  attempt (SPI.SetCS true) ;;
  err <- attempt (call SPI.init (SPI.SPI w p)) ;;
  attempt (SPI.SetCS false) ;;
  match err with
  | Some e => fail e
  | None => ret (len p)
  end.

(** One iteration of [for addr < len(p) { ... }] in [Write]; [fuel]
    bounds the polls of the busy flag. *)
Definition Write_body (fuel : nat) (p : list Z) : M (st D write_vars) unit :=
  addr <- local f_addr ;;
  dlen <- local f_dlen ;;
  when (addr + dlen >? len p) (update (set_dlen (len p - addr))) ;;
  dlen <- local f_dlen ;;
  w <- local f_w ;;
  w <- must (set_at w 1 (byte (Z.land (Z.shiftr addr 16) 0xff))) ;;
  w <- must (set_at w 2 (byte (Z.land (Z.shiftr addr 8) 0xff))) ;;
  w <- must (set_at w 3 (byte (Z.land addr 0xff))) ;;
  dst <- must (sub w 4 (len w)) ;;
  src <- must (sub p addr (addr + dlen)) ;;
  let w := firstn 4 w ++ copy dst src in
  update (set_w w) ;;
  call tt (WriteEnable true) ;;
  err <- call tt (attempt (SPI.SetCS true) ;;
                  err <- attempt (call SPI.init (SPI.SPI w [])) ;;
                  attempt (SPI.SetCS false) ;;
                  ret err) ;;
  match err with
  | Some e => fail e
  | None =>
      call tt (poll fuel IsBusy) ;;
      update (set_addr (addr + dlen))
  end.

(** [func (f *Flash) Write(p []byte) (int, error)], started from
    [Write_init]: the result is the count returned with nil; with an
    error the count returned is [f_addr] of the final state. *)
Definition Write (fuel : nat) (p : list Z) : M (st D write_vars) Z :=
  w <- local f_w ;;
  w <- must (set_at w 0 0x02) ;;
  update (set_w w) ;;
  while (length p) (fun s => f_addr (snd s) <? len p) (Write_body fuel p) ;;
  addr <- local f_addr ;;
  ret addr.
End Methods.
End Flash.

(** ** Vocabulary of the specification *)

(** The ways a computation can end without a result. *)
Inductive abort : Type :=
| AFail (e : error)
| APanic
| AFuel.

(** Weakest precondition: [c] run from [s] ends in a state satisfying [Q]
    with its result, or aborts in a state satisfying [R]. *)
Definition wp {S A : Type} (c : M S A)
  (Q : A -> S -> Prop) (R : abort -> S -> Prop) (s : S) : Prop :=
  match c s with
  | (Done a, s') => Q a s'
  | (Fail e, s') => R (AFail e) s'
  | (Panic, s') => R APanic s'
  | (OutOfFuel, s') => R AFuel s'
  end.

(** The call returned: with nil, or with an error. *)
Definition returned {A : Type} (o : outcome A) : Prop :=
  match o with
  | Done _ | Fail _ => True
  | Panic | OutOfFuel => False
  end.

(** A length-prefixed frame: the little-endian 16-bit value of its first
    two bytes is the number of bytes that follow them. *)
Definition frame_ok (f : list Z) : Prop :=
  match f with
  | lo :: hi :: payload =>
      0 <= lo < 256 /\ 0 <= hi < 256 /\ lo + 256 * hi = len payload
  | _ => False
  end.

(** The response bytes read back over a log: each [Read] of a buffer of
    [n] bytes takes a 2-byte header and [n - 2] response bytes. *)
Definition consumed (l : list event) : Z :=
  fold_right (fun n acc => Z.of_nat n - 2 + acc) 0 (reads l).


(** ** Invariants and expected results *)

Section SPIInvariants.
Context {D : Type} `{HIDDev D}.
Implicit Types s : st D SPI.vars.

(** The frames sent so far are well formed. *)
Definition frames_sent_ok s : Prop := Forall frame_ok (written (log (fst s))).

(** What [SPI] keeps from one step to the next: the frames sent so far
    are well formed and the frame under construction has at most 509
    bytes. *)
Definition spi_inv s : Prop :=
  frames_sent_ok s /\ slen (SPI.v_p (snd s)) <= 509.
End SPIInvariants.

Section UARTInvariants.
Context {D : Type} `{HIDDev D}.
Implicit Types s : st D UART.write_vars.

(** What the loop of [UART.Write] keeps: the frames sent so far are well
    formed, and the frame buffer has its full length until the last
    chunk is sent. *)
Definition uart_inv (plen wlen : Z) s : Prop :=
  Forall frame_ok (written (log (fst s))) /\
  (len (UART.w_p (snd s)) = plen + 2 \/ wlen <= UART.w_pos (snd s)).
End UARTInvariants.

Section I2CDefs.
Context {D : Type} `{HIDDev D}.
Implicit Types s : st D I2C.vars.

Definition ack_pending (v : I2C.vars) : Z := if I2C.v_hasRead v then 1 else 0.

(** How a call of [I2C] may stop early: never by a panic or for want of
    fuel; by a NAK only with the caller's buffer [r0] untouched and
    right after the [Read] that delivered it; by a transport error only
    if the transport is not error free. *)
Definition i2c_abort (r0 : list Z) (x : abort) s : Prop :=
  Forall frame_ok (written (log (fst s))) /\
  match x with
  | AFail ErrI2CWrite | AFail ErrI2CRead =>
      I2C.v_r (snd s) = r0 /\
      exists l n data, log (fst s) = l ++ [EvRead n data]
  | AFail (ErrTransport _) => ~ error_free (D := D)
  | _ => False
  end.

(** What holds between any two statements of [I2C]. *)
Definition i2c_core (r0 : list Z) s : Prop :=
  let v := snd s in
  Forall frame_ok (written (log (fst s))) /\
  slen (I2C.v_p v) <= 509 /\ scap (I2C.v_p v) = 512 /\
  0 <= I2C.v_toWrite v /\ 0 <= I2C.v_toRead v /\ 0 <= I2C.v_rpos v /\
  I2C.v_rpos v + I2C.v_toRead v <= len (I2C.v_r v) /\
  len (I2C.v_r v) = len r0 /\
  I2C.v_toWrite v + I2C.v_toRead v + ack_pending v <= 510 /\
  (I2C.v_r v = r0 \/ (I2C.v_toWrite v = 0 /\ I2C.v_hasRead v = false)).

(** The variables of the body of [I2C] that the closures leave alone. *)
Definition same_loop_vars (v v' : I2C.vars) : Prop :=
  I2C.v_d v' = I2C.v_d v /\ I2C.v_pos v' = I2C.v_pos v /\
  I2C.v_rlen v' = I2C.v_rlen v /\ I2C.v_maxRLen v' = I2C.v_maxRLen v /\
  I2C.v_send v' = I2C.v_send v.

(** The state [s'] reached by a flush from [s]. *)
Definition flushed (r0 : list Z) s s' : Prop :=
  let v := snd s in
  let v' := snd s' in
  i2c_core r0 s' /\
  slen (I2C.v_p v') = 0 /\
  I2C.v_toWrite v' = 0 /\ I2C.v_toRead v' = 0 /\ I2C.v_hasRead v' = false /\
  I2C.v_rpos v' = I2C.v_rpos v + I2C.v_toRead v /\
  (I2C.v_toRead v = 0 -> I2C.v_r v' = I2C.v_r v) /\
  consumed (log (fst s')) =
    consumed (log (fst s)) + I2C.v_toWrite v + I2C.v_toRead v + ack_pending v /\
  same_loop_vars v v'.
End I2CDefs.

Section I2CDefs2.
Context {D : Type} `{HIDDev D}.
Implicit Types s : st D I2C.vars.

(** The response bytes accounted for: those read back so far and those
    the next flush will read. *)
Definition accounted s : Z :=
  consumed (log (fst s)) + I2C.v_toWrite (snd s) + I2C.v_toRead (snd s)
  + ack_pending (snd s).

(** The read bytes accounted for: those copied into [r] so far and
    those the next flush will copy. *)
Definition delivered s : Z := I2C.v_rpos (snd s) + I2C.v_toRead (snd s).

(** The state [s'] reached by [pack(elems...)] from [s]. *)
Definition packed (r0 elems : list Z) s s' : Prop :=
  let v := snd s in
  let v' := snd s' in
  i2c_core r0 s' /\ same_loop_vars v v' /\
  accounted s' = accounted s /\ delivered s' = delivered s /\
  (I2C.v_toRead v = 0 -> I2C.v_r v' = I2C.v_r v) /\
  ((I2C.v_toWrite v' = I2C.v_toWrite v /\ I2C.v_toRead v' = I2C.v_toRead v /\
    I2C.v_hasRead v' = I2C.v_hasRead v /\ I2C.v_rpos v' = I2C.v_rpos v /\
    slen (I2C.v_p v') = (if slen (I2C.v_p v) =? 0 then 3 else slen (I2C.v_p v)) + len elems)
   \/
   (I2C.v_toWrite v' = 0 /\ I2C.v_toRead v' = 0 /\ I2C.v_hasRead v' = false /\
    slen (I2C.v_p v') = 3 + len elems)).
End I2CDefs2.

Section I2CDefs3.
Context {D : Type} `{HIDDev D}.
Implicit Types s : st D I2C.vars.

(** The invariant of the write loop of [I2C]: [pos] bytes of [w] are
    packed, each accounted for by one response byte, plus one for the
    address byte once the first WRITE primitive is packed. *)
Definition write_inv (w r0 : list Z) s : Prop :=
  let v := snd s in
  i2c_core r0 s /\
  I2C.v_hasRead v = false /\ I2C.v_toRead v = 0 /\ I2C.v_rpos v = 0 /\
  I2C.v_r v = r0 /\
  I2C.v_toWrite v + 4 <= slen (I2C.v_p v) /\
  len (I2C.v_d v) = 1 /\
  0 <= I2C.v_pos v <= len w /\
  accounted s = I2C.v_pos v + (if I2C.v_pos v =? 0 then 0 else 1).
End I2CDefs3.

Section I2CDefs4.
Context {D : Type} `{HIDDev D}.
Implicit Types s : st D I2C.vars.

(** One when the read-request acknowledgement has been read back. *)
Definition ack_done (v : I2C.vars) : Z := if I2C.v_hasRead v then 0 else 1.

(** The invariant of the read loop of [I2C], where [W] response bytes
    are due to the write phase: [len r0 - rlen] read bytes are
    requested and, with the acknowledgement of the read request, each
    is accounted for; the last one is requested after the loop. *)
Definition read_inv (W : Z) (r0 : list Z) s : Prop :=
  let v := snd s in
  i2c_core r0 s /\
  0 <= I2C.v_rlen v <= len r0 /\ I2C.v_send v = false /\
  I2C.v_toWrite v + I2C.v_toRead v <= 509 /\
  ((I2C.v_maxRLen v = 64 /\ I2C.v_hasRead v = true /\ I2C.v_toRead v = 0 /\
    I2C.v_toWrite v <= 505 /\ len (I2C.v_d v) = 3 /\ I2C.v_rlen v = len r0)
   \/
   (I2C.v_maxRLen v = 63 /\ (I2C.v_hasRead v = true -> 1 <= I2C.v_toRead v))) /\
  len (I2C.v_d v) <= 12 /\
  (0 < I2C.v_rlen v -> 63 * (len (I2C.v_d v) - 3) <= I2C.v_toRead v) /\
  accounted s = W + 1 + (len r0 - I2C.v_rlen v) - ack_done v /\
  delivered s = len r0 - I2C.v_rlen v - ack_done v.
End I2CDefs4.

Section I2CDefs5.
Context {D : Type} `{HIDDev D}.
Implicit Types s : st D I2C.vars.

(** The response bytes a transaction reads back: one per byte carried
    by a WRITE primitive, that is one per byte of [w] and one for the
    address byte that precedes them; one for the read request; one per
    byte read. *)
Definition response_bytes (w r : list Z) : Z :=
  (if len w =? 0 then 0 else len w + 1)
  + (if len r =? 0 then 0 else 1)
  + len r.
End I2CDefs5.


(** The two frames [SPI] sends for a buffer of more than 504 and fewer
    than 1011 bytes. *)
Definition spi_two_packets (w : list Z) : list (list Z) :=
  [ [0xFB; 0x01; SPI.CmdSPIWrite;
     Z.land (byte (len w)) 0xff; Z.land (byte (Z.shiftr (len w) 8)) 0xff]
    ++ firstn 504 w;
    [byte (Z.land (len w - 504) 0xff); byte (Z.land (Z.shiftr (len w - 504) 8) 0xff)]
    ++ skipn 504 w ].

(** The only frame [SPI] sends for a buffer of 504 bytes. *)
Definition spi_one_packet (w : list Z) : list Z :=
  [0xFB; 0x01; SPI.CmdSPIWrite;
   Z.land (byte (len w)) 0xff; Z.land (byte (Z.shiftr (len w) 8)) 0xff] ++ w.

(** ** Sample inputs *)

(** The measurement trigger of an AHT20 sensor at address [0x38]. *)
Definition sample_w : list Z := [0xAC; 0x33; 0x00].


(** A status echo in which no pin has bit 7 or bit 6 set. *)
Definition sample_echo : list Z :=
  [0x0b; 0x00; 0xcc; 0x08; 0x00; 0x00; 0x00; 0x00; 0x00; 0x00; 0x00; 0x00; 0x00].

(** A reply to the SPI configuration whose status byte is not [0x01]. *)
Definition sample_reply : list Z := [0x04; 0x00; 0xc0; 0x00; 0x00; 0x00].


(** ** Vocabulary of the further properties *)

(** A value a [byte] can hold. *)
Definition is_byte (x : Z) : Prop := 0 <= x < 256.

(** The integers from [start], [n] of them. *)
Fixpoint zrange (n : nat) (start : Z) : list Z :=
  match n with
  | O => []
  | Datatypes.S n' => start :: zrange n' (start + 1)
  end.

(** One turn of the inner loop of [crc16] undone. *)
Definition uncrc16_bit (y : Z) : Z :=
  if Z.testbit y 15 then 2 * Z.lxor y 0xA001 + 1 else 2 * y.

(** One turn of the inner loop of [crc8] undone. *)
Definition uncrc8_bit (y : Z) : Z :=
  if Z.testbit y 0 then Z.shiftr (Z.lxor y 0x31) 1 + 128 else Z.shiftr y 1.

(** The payloads of the frames of a log, the two length bytes of each
    left out, one after the other. *)
Definition payloads (l : list event) : list Z :=
  concat (map (skipn 2) (written l)).

Section UARTSent.
Context {D : Type} `{HIDDev D}.
Implicit Types s : st D UART.write_vars.

(** What the loop of [UART.Write] keeps, for a buffer [b] cut in chunks
    of [plen] bytes: the frames sent carry the first [pos] bytes of [b];
    each holds data; all of them are full, the last one apart once [b]
    is sent; nothing is read. *)
Definition uart_sent (b : list Z) (plen : Z) s : Prop :=
  let frames := written (log (fst s)) in
  let pos := UART.w_pos (snd s) in
  0 <= pos <= len b /\
  payloads (log (fst s)) = firstn (Z.to_nat pos) b /\
  reads (log (fst s)) = [] /\
  Forall (fun f => 2 < len f) frames /\
  ((len (UART.w_p (snd s)) = plen + 2 /\ Forall (fun f => len f = plen + 2) frames)
   \/ (len b <= pos /\ Forall (fun f => len f = plen + 2) (removelast frames))).
End UARTSent.

Section SPIFit.
Context {D : Type} `{HIDDev D}.
Implicit Types s : st D SPI.vars.

(** The packets sent so far hold data and fit the packet buffer. *)
Definition frames_fit s : Prop :=
  Forall (fun f => 2 < len f <= SPI.maxDataLen) (written (log (fst s))).

(** What [SPI] keeps from one step to the next, as to sizes. *)
Definition spi_fit s : Prop :=
  frames_fit s /\ slen (SPI.v_p (snd s)) <= SPI.maxDataLen.
End SPIFit.

(** The packet [SPI] sends for a buffer that fits one packet: the length
    of what follows, the operation header and the data. *)
Definition spi_packet (w : list Z) : list Z :=
  [byte (Z.land (len w + 3) 0xff); byte (Z.land (Z.shiftr (len w + 3) 8) 0xff);
   SPI.CmdSPIWrite;
   Z.land (byte (len w)) 0xff; Z.land (byte (Z.shiftr (len w) 8)) 0xff] ++ w.

(** The frame [SetCS] sends. *)
Definition cs0_frame (enable : bool) : list Z :=
  [0x0d; 0x00; SPI.CmdSPICS; 0x0a; 0x00;
   if enable then 0x80 else 0xc0;
   0x00; 0x00; 0x00; 0x00;
   0x00;
   0x00; 0x00; 0x00; 0x00].

(** The frame [I2C] sends to read [n] bytes, 63 at most, nothing being
    written: START, the address with the read bit, the bytes to read but
    the last, the last byte, STOP. *)
Definition i2c_read_frame (addr n : Z) : list Z :=
  let body :=
    [I2C.CmdI2CStream; I2C.CmdI2CStart; Z.lor I2C.CmdI2CWrite 1;
     Z.lor (byte (Z.shiftl addr 1 mod 65536)) 1]
    ++ (if n >? 1 then [byte (Z.lor I2C.CmdI2CRead (byte n) - 1)] else [])
    ++ [I2C.CmdI2CRead; I2C.CmdI2CStop; 0x00] in
  byte (Z.land (len body) 0xff) :: byte (Z.land (Z.shiftr (len body) 8) 0xff) :: body.

(** The frame [I2C] sends to write [w], 62 bytes at most, nothing being
    read: START, one WRITE primitive carrying the address and [w], STOP. *)
Definition i2c_write_frame (addr : Z) (w : list Z) : list Z :=
  let body :=
    [I2C.CmdI2CStream; I2C.CmdI2CStart;
     Z.lor I2C.CmdI2CWrite (byte (len w + 1));
     byte (Z.shiftl addr 1 mod 65536)]
    ++ w ++ [I2C.CmdI2CStop; 0x00] in
  byte (Z.land (len body) 0xff) :: byte (Z.land (Z.shiftr (len body) 8) 0xff) :: body.

(** The buffer [p[:n]] that [I2C] passes to [Read] after sending
    [frame]: the frame, and the rest of the 512-byte array behind it. *)
Definition i2c_response_buffer (frame : list Z) (n : Z) : list Z :=
  firstn (Z.to_nat n) (frame ++ repeat 0 (512 - length frame)).

(** The operation header [SPI] puts before the data of a write
    operation of [n] bytes: the command and the length, low byte
    first. *)
Definition spi_header (n : Z) : list Z :=
  [SPI.CmdSPIWrite; Z.land (byte n) 0xff; Z.land (byte (Z.shiftr n 8)) 0xff].

Section SPISafe.
Context {D : Type} `{HIDDev D}.
Implicit Types s : st D SPI.vars.

(** The ways a call of [SPI] that writes ends without returning nil: on
    an acknowledgement it does not accept, or on an error of the
    transport, which an error-free transport does not return. *)
Definition spi_abort (x : abort) s : Prop :=
  match x with
  | AFail ErrInvalidResponse => True
  | AFail (ErrTransport _) => ~ error_free (D := D)
  | _ => False
  end.

(** What holds at the head of the loop of [SPI]: the indices are within
    their bounds and the packet under construction is empty between two
    operations and within 2 and 508 bytes inside one; and, for a buffer
    [w] shorter than one operation, the payloads sent and the one under
    construction are the operation header and the first [pos] bytes of
    [w]. *)
Definition spi_safe (w : list Z) s : Prop :=
  let v := snd s in
  0 <= SPI.v_pos v <= len w /\
  0 <= SPI.v_olen v < SPI.maxOpLen /\
  scap (SPI.v_p v) = 512 /\
  0 <= SPI.v_sent v /\
  (if SPI.v_olen v =? 0 then slen (SPI.v_p v) = 0 else 2 <= slen (SPI.v_p v) <= 508) /\
  (len w < SPI.maxOpLen ->
   SPI.v_olen v = SPI.v_pos v /\
   payloads (log (fst s)) ++ skipn 2 (live (SPI.v_p v)) =
     if SPI.v_pos v =? 0 then []
     else spi_header (len w) ++ firstn (Z.to_nat (SPI.v_pos v)) w).
End SPISafe.

(** The bytes of [p] that the page program number [k] of [Flash.Write]
    is to store: 256 of them, fewer at the end of [p]. *)
Definition flash_chunk (p : list Z) (k : nat) : list Z :=
  firstn 256 (skipn (256 * k) p).

(** The buffer [Flash.Write] sends as page program number [k]: the
    command, the address [256 * k] in three bytes, and 256 data bytes:
    the chunk, followed, where it is short, by what the buffer held
    behind it, which is the end of the chunk before, or zeros in the
    first page. *)
Definition flash_page (p : list Z) (k : nat) : list Z :=
  let addr := 256 * Z.of_nat k in
  let before := match k with
                | O => repeat 0 256
                | Datatypes.S k' => flash_chunk p k'
                end in
  [0x02; byte (Z.land (Z.shiftr addr 16) 0xff);
   byte (Z.land (Z.shiftr addr 8) 0xff); byte (Z.land addr 0xff)]
  ++ flash_chunk p k ++ skipn (length (flash_chunk p k)) before.

(** The frames of one page program: write enable and the page, each
    between chip select asserted and released. *)
Definition flash_round (page : list Z) : list (list Z) :=
  [cs0_frame true; spi_packet [0x06]; cs0_frame false;
   cs0_frame true; spi_packet page; cs0_frame false].

(** The frames of one poll of the busy flag. *)
Definition flash_poll : list (list Z) := [cs0_frame true; cs0_frame false].

(** The frames [Flash.Write] has sent once [k] pages are programmed:
    for each page its round and the poll that follows it. *)
Definition flash_sent (p : list Z) (k : nat) : list (list Z) :=
  flat_map (fun i => flash_round (flash_page p i) ++ flash_poll) (seq 0 k).

Section FlashPages.
Context {D : Type} `{HIDDev D}.
Implicit Types s : st D Flash.write_vars.

(** What holds at the head of the loop of [Flash.Write] after [k] turns:
    [k] pages are programmed; the buffer [w] holds the command and the
    data of the last page; and either [addr] is [256 * k] with all the
    chunks so far full, or the last chunk was short and [addr] is at the
    end of [p]. *)
Definition flash_inv (p : list Z) s : Prop :=
  exists (k : nat) (b1 b2 b3 : Z) (dst : list Z),
    written (log (fst s)) = flash_sent p k /\
    Flash.f_w (snd s) = 0x02 :: b1 :: b2 :: b3 :: dst /\
    length dst = 256%nat /\
    256 * (Z.of_nat k - 1) < len p /\
    ((Flash.f_addr (snd s) = 256 * Z.of_nat k /\ Flash.f_dlen (snd s) = 256 /\
      256 * Z.of_nat k <= len p /\
      dst = match k with
            | O => repeat 0 256
            | Datatypes.S k' => flash_chunk p k'
            end)
     \/ (Flash.f_addr (snd s) = len p /\ len p <= 256 * Z.of_nat k)).

(** How [Flash.Write] ends early over an error-free transport: on an
    acknowledgement it does not accept, the page number [k] sent and
    [addr] still at its start. *)
Definition flash_abort (p : list Z) (x : abort) s : Prop :=
  x = AFail ErrInvalidResponse /\
  exists k : nat,
    Flash.f_addr (snd s) = 256 * Z.of_nat k /\ 256 * Z.of_nat k < len p /\
    written (log (fst s)) = flash_sent p k ++ flash_round (flash_page p k).
End FlashPages.

(** The frame a flush of [I2C] sends from the variables [v]: the packet
    under construction closed by [0x00], with its length in the first
    two bytes. *)
Definition flush_frame (v : I2C.vars) : list Z :=
  let p := append (I2C.v_p v) [0x00] in
  let plen := slen p - 2 in
  byte (Z.land plen 0xff) :: byte (Z.land (Z.shiftr plen 8) 0xff) :: skipn 2 (live p).

(** The length of the response a flush reads: two header bytes, one
    byte for each byte written, one for the read request while its
    acknowledgement is pending, and the bytes read. *)
Definition flush_length (v : I2C.vars) : Z :=
  2 + I2C.v_toWrite v + I2C.v_toRead v + (if I2C.v_hasRead v then 1 else 0).

(** The buffer [p[:rlen]] a flush hands to [Read]: it still holds the
    frame. *)
Definition flush_buffer (v : I2C.vars) : list Z :=
  firstn (Z.to_nat (flush_length v))
         (flush_frame v ++ spare (append (I2C.v_p v) [0x00])).

(** The verdict on a response, in the words of the specification: a
    WRITE acknowledgement byte [0x00] is a failed write, any other value
    a success; the acknowledgement of the read request, looked at once
    and only when bytes are to be read, must be [0x01]. The WRITE
    acknowledgements follow the two header bytes, the acknowledgement of
    the read request follows them. *)
Definition nak_verdict (v : I2C.vars) (resp : list Z) : outcome unit :=
  if negb (forallb (fun b => negb (b =? 0x00))
                   (firstn (Z.to_nat (I2C.v_toWrite v)) (skipn 2 resp)))
  then Fail ErrI2CWrite
  else if (I2C.v_toRead v >? 0) && I2C.v_hasRead v
          && negb (nth (Z.to_nat (2 + I2C.v_toWrite v)) resp 0 =? 0x01)
  then Fail ErrI2CRead
  else Done tt.

(** The caller's buffer after a flush whose response [resp] is
    accepted: the bytes read, which follow the acknowledgements, stored
    from [rpos] on. *)
Definition flush_delivers (v : I2C.vars) (resp : list Z) : list Z :=
  if I2C.v_toRead v >? 0
  then firstn (Z.to_nat (I2C.v_rpos v)) (I2C.v_r v)
       ++ skipn (Z.to_nat (flush_length v - I2C.v_toRead v)) resp
       ++ skipn (Z.to_nat (I2C.v_rpos v + I2C.v_toRead v)) (I2C.v_r v)
  else I2C.v_r v.

(** The frame [I2C] sends to write [w], 62 bytes at most, and then read
    [n] bytes, 63 at most: START, one WRITE primitive carrying the
    address and [w], a second START, the address with the read bit, the
    bytes to read but the last, the last byte, STOP. *)
Definition i2c_write_read_frame (addr : Z) (w : list Z) (n : Z) : list Z :=
  let body :=
    [I2C.CmdI2CStream; I2C.CmdI2CStart;
     Z.lor I2C.CmdI2CWrite (byte (len w + 1));
     byte (Z.shiftl addr 1 mod 65536)]
    ++ w
    ++ [I2C.CmdI2CStart; Z.lor I2C.CmdI2CWrite 1;
        Z.lor (byte (Z.shiftl addr 1 mod 65536)) 1]
    ++ (if n >? 1 then [byte (Z.lor I2C.CmdI2CRead (byte n) - 1)] else [])
    ++ [I2C.CmdI2CRead; I2C.CmdI2CStop; 0x00] in
  byte (Z.land (len body) 0xff) :: byte (Z.land (Z.shiftr (len body) 8) 0xff) :: body.

(** ** Further sample inputs *)

(** A status echo whose command byte is not [0xcc]. *)
Definition sample_bad_echo : list Z :=
  [0x0b; 0x00; 0xc4; 0x08; 0x00; 0x00; 0x00; 0x00; 0x00; 0x00; 0x00; 0x00; 0x00].

(** The frame [WritePin(GPIO4, true, true)] sends. *)
Definition sample_pin4_high : list Z :=
  [0x0b; 0x00; 0xcc; 0x08; 0x00; 0x00; 0x00; 0x00; 0x00; 0xf8; 0x00; 0x00; 0x00].

(** The Modbus request of [ReadAll] before its CRC. *)
Definition sample_modbus : list Z := [0xf8; 0x04; 0x00; 0x00; 0x00; 0x09].

(** Six bytes of an AHT2x measurement. *)
Definition sample_aht : list Z := [0x1c; 0x7f; 0x80; 0x05; 0xe0; 0x00].

(** 300 bytes to program: one full page and 44 bytes of a second. *)
Definition sample_program : list Z := repeat 0x5a 300.

(** A device whose one response does not acknowledge the address byte:
    the first acknowledgement, at offset 2, is [0x00]. *)
Definition sample_silent : Scripted := [[0x04; 0x00; 0x00; 0x01; 0x01; 0x01]].

(** The variables of [I2C] when the final flush of
    [I2C(0x38, sample_w, nil)] begins, on that device. *)
Definition sample_nak_flush : st Scripted I2C.vars :=
  (mkIO sample_silent [],
   I2C.set_toWrite 4
     (I2C.set_p (append (make 0 512)
                   [0x00; 0x00; 0xAA; 0x74; 0x84; 0x70; 0xAC; 0x33; 0x00; 0x75])
        (I2C.init []))).

(** A buffer of six bytes to read into. *)
Definition sample_r : list Z := repeat 0xEE 6.

(** 600 bytes to write, more than one packet holds. *)
Definition sample_long : list Z := repeat 0x11 600.

(** * Properties *)

(** ** Rules of the weakest precondition *)

Section Rules.
Context {S : Type}.
Implicit Types (s : S) (R : abort -> S -> Prop).

Lemma wp_ret {A} (a : A) (Q : A -> S -> Prop) R s :
  Q a s -> wp (ret a) Q R s.
Proof. exact (fun q => q). Qed.

Lemma wp_bind {A B} (c : M S A) (k : A -> M S B) (Q : B -> S -> Prop) R s :
  wp c (fun a s' => wp (k a) Q R s') R s -> wp (bind c k) Q R s.
Proof.
  unfold wp, bind. destruct (c s) as [[a | e | | ] s']; trivial.
Qed.

Lemma wp_mono {A} (c : M S A) (Q Q' : A -> S -> Prop) R R' s :
  wp c Q R s ->
  (forall a s', Q a s' -> Q' a s') ->
  (forall x s', R x s' -> R' x s') ->
  wp c Q' R' s.
Proof.
  unfold wp. destruct (c s) as [[a | e | | ] s']; auto.
Qed.

Lemma wp_fail {A} (e : error) (Q : A -> S -> Prop) R s :
  R (AFail e) s -> wp (fail e) Q R s.
Proof. exact (fun r => r). Qed.

Lemma wp_gets {A} (f : S -> A) (Q : A -> S -> Prop) R s :
  Q (f s) s -> wp (gets f) Q R s.
Proof. exact (fun q => q). Qed.

Lemma wp_modify (f : S -> S) (Q : unit -> S -> Prop) R s :
  Q tt (f s) -> wp (modify f) Q R s.
Proof. exact (fun q => q). Qed.

Lemma wp_must {A} (o : option A) (Q : A -> S -> Prop) R s :
  match o with Some a => Q a s | None => R APanic s end ->
  wp (must o) Q R s.
Proof. destruct o; exact (fun q => q). Qed.

Lemma wp_when (b : bool) (c : M S unit) (Q : unit -> S -> Prop) R s :
  (if b then wp c Q R s else Q tt s) -> wp (when b c) Q R s.
Proof. destruct b; exact (fun q => q). Qed.

(** A loop whose body keeps [I] and decreases the measure [m] ends
    within [m s] iterations, in a state where [I] holds and the
    condition does not. *)
Lemma wp_while (I : S -> Prop) (m : S -> nat) (cond : S -> bool)
      (body : M S unit) R :
  (forall s, I s -> cond s = true -> (0 < m s)%nat) ->
  (forall s, I s -> cond s = true ->
     wp body (fun _ s' => I s' /\ (m s' < m s)%nat) R s) ->
  forall fuel s, I s -> (m s <= fuel)%nat ->
    wp (while fuel cond body) (fun _ s' => I s' /\ cond s' = false) R s.
Proof.
  intros Hpos Hbody. induction fuel as [| fuel IH]; intros s HI Hm.
  - unfold wp. cbn [while]. destruct (cond s) eqn:Hc; [ | auto].
    specialize (Hpos s HI Hc). lia.
  - unfold wp. cbn [while]. destruct (cond s) eqn:Hc; [ | auto].
    change (wp (bind body (fun _ => while fuel cond body))
              (fun _ s' => I s' /\ cond s' = false) R s).
    apply wp_bind. eapply wp_mono; [exact (Hbody s HI Hc) | | auto].
    intros _ s' [HI' Hlt]. apply IH; [exact HI' | lia].
Qed.
End Rules.

Section TransportRules.
Context {D : Type} `{HIDDev D} {L : Type}.
Implicit Types (s : st D L) (R : abort -> st D L -> Prop).

Lemma wp_local {A} (f : L -> A) (Q : A -> st D L -> Prop) R s :
  Q (f (snd s)) s -> wp (local f) Q R s.
Proof. exact (fun q => q). Qed.

Lemma wp_update (f : L -> L) (Q : unit -> st D L -> Prop) R s :
  Q tt (fst s, f (snd s)) -> wp (update f) Q R s.
Proof. exact (fun q => q). Qed.

Lemma wp_Dev_Write (p : list Z) (Q : unit -> st D L -> Prop) R s :
  (forall d' err, dev_Write (Dev (fst s)) p = (d', err) ->
     let s' := (mkIO d' (log (fst s) ++ [EvWrite p]), snd s) in
     match err with
     | None => Q tt s'
     | Some c => R (AFail (ErrTransport c)) s'
     end) ->
  wp (Dev_Write p) Q R s.
Proof.
  intros Hw. unfold wp, Dev_Write.
  destruct (dev_Write (Dev (fst s)) p) as [d' err] eqn:E.
  specialize (Hw d' err eq_refl). destruct err; exact Hw.
Qed.

Lemma wp_Dev_Read (p : list Z) (Q : list Z -> st D L -> Prop) R s :
  (forall d' data err, dev_Read (Dev (fst s)) (length p) = (d', data, err) ->
     let s' := (mkIO d' (log (fst s) ++ [EvRead (length p) data]), snd s) in
     match err with
     | None => Q (fill p data) s'
     | Some c => R (AFail (ErrTransport c)) s'
     end) ->
  wp (Dev_Read p) Q R s.
Proof.
  intros Hr. unfold wp, Dev_Read.
  destruct (dev_Read (Dev (fst s)) (length p)) as [[d' data] err] eqn:E.
  specialize (Hr d' data err eq_refl). destruct err; exact Hr.
Qed.
End TransportRules.

(** ** Lists and bits *)

Lemma len_nonneg {A} (l : list A) : 0 <= len l.
Proof. unfold len. lia. Qed.

Lemma copy_length (dst src : list Z) : length (copy dst src) = length dst.
Proof.
  unfold copy. rewrite length_app, length_firstn, length_skipn. lia.
Qed.

Lemma fill_length (buf data : list Z) : length (fill buf data) = length buf.
Proof. apply copy_length. Qed.

Lemma get_at_nth (l : list Z) (i : Z) :
  0 <= i < len l -> get_at l i = Some (nth (Z.to_nat i) l 0).
Proof.
  intros Hi. unfold get_at, len in *.
  destruct (i <? 0) eqn:E1; [lia | ].
  destruct (Z.of_nat (length l) <=? i) eqn:E2; [lia | ]. cbn [orb].
  apply nth_error_nth'. lia.
Qed.

Lemma land_pow2 (b : Z) (k : Z) :
  0 <= k -> Z.land b (2 ^ k) = if Z.testbit b k then 2 ^ k else 0.
Proof.
  intros Hk. apply Z.bits_inj'. intros n Hn.
  rewrite Z.land_spec, Z.pow2_bits_eqb by lia.
  destruct (Z.eqb_spec k n) as [-> | Hne].
  - destruct (Z.testbit b n); [ | now rewrite Z.bits_0].
    rewrite Z.pow2_bits_eqb by lia. now rewrite Z.eqb_refl.
  - rewrite andb_false_r. destruct (Z.testbit b k); [ | now rewrite Z.bits_0].
    rewrite Z.pow2_bits_eqb by lia. symmetry. now apply Z.eqb_neq.
Qed.

Lemma bit7 (b : Z) : (Z.land b 0x80 =? 0) = negb (Z.testbit b 7).
Proof.
  change 0x80 with (2 ^ 7). rewrite land_pow2 by lia.
  now destruct (Z.testbit b 7).
Qed.

Lemma bit6 (b : Z) : (Z.land b 0x40 =? 0) = negb (Z.testbit b 6).
Proof.
  change 0x40 with (2 ^ 6). rewrite land_pow2 by lia.
  now destruct (Z.testbit b 6).
Qed.

Lemma bits76 (b : Z) :
  (Z.land b (Z.lor 0x80 0x40) =? 0) = negb (Z.testbit b 7) && negb (Z.testbit b 6).
Proof.
  change (Z.lor 0x80 0x40) with (Z.lor (2 ^ 7) (2 ^ 6)).
  rewrite Z.land_lor_distr_r, !land_pow2 by lia.
  now destruct (Z.testbit b 7), (Z.testbit b 6).
Qed.

(** ** GPIO *)

Section GPIOProps.
Context {D : Type} `{HIDDev D}.

(** The exchange shared by [WritePin] and [ReadPin]: one write of the
    13-byte frame, one read of the 13-byte echo, then the header check. *)
Lemma exchange_run (f : list Z) (s : st D unit) d1 d2 data :
  length f = 13%nat ->
  dev_Write (Dev (fst s)) f = (d1, None) ->
  dev_Read d1 13 = (d2, data, None) ->
  nth 0 (fill f data) 0 = 0x0b ->
  nth 2 (fill f data) 0 = 0xcc ->
  forall (A : Type) (k : list Z -> M (st D unit) A),
    (Dev_Write f ;; p <- Dev_Read f ;; GPIO.check_header p ;; k p) s
    = k (fill f data) (mkIO d2 (log (fst s) ++ [EvWrite f; EvRead 13 data]), snd s).
Proof.
  intros Hf Hw Hr H0 H2 A k.
  assert (Hlen : len (fill f data) = 13) by (unfold len; rewrite fill_length, Hf; reflexivity).
  unfold bind at 1. unfold Dev_Write. rewrite Hw.
  unfold bind at 1. unfold Dev_Read. cbn [fst snd Dev log]. rewrite Hf, Hr.
  unfold bind at 1. unfold GPIO.check_header.
  rewrite !get_at_nth by lia.
  change (Z.to_nat 0) with 0%nat. change (Z.to_nat 2) with 2%nat.
  rewrite H0, H2. cbn. rewrite <- app_assoc. reflexivity.
Qed.

Lemma set_at_length (l : list Z) i x l' :
  set_at l i x = Some l' -> length l' = length l.
Proof.
  unfold set_at, len. destruct ((i <? 0) || (Z.of_nat (length l) <=? i)) eqn:E; [discriminate | ].
  apply orb_false_iff in E. destruct E as [E1 E2].
  intros [= <-]. rewrite length_app. cbn [length]. rewrite length_firstn.
  change (match l with [] => [] | _ :: l0 => skipn (Z.to_nat i) l0 end)
    with (skipn (S (Z.to_nat i)) l).
  rewrite length_skipn. lia.
Qed.

Lemma pin_offset (pin : Z) : 0 <= pin < 8 -> byte (5 + pin) = 5 + pin.
Proof. intros Hp. unfold byte. apply Z.mod_small. lia. Qed.

(** C9. For a pin in [0,8) and a device that echoes the header,
    [ReadPin] returns, with [b] the echoed byte at offset [5 + pin]:
    bit 6 of [b] when bit 7 is set (an output, not inverted), and the
    negation of bit 6 when bit 7 is clear (an input, inverted). *)
Theorem ReadPin_decodes (pin : Z) (s : st D unit) d1 d2 data :
  0 <= pin < 8 ->
  dev_Write (Dev (fst s)) GPIO.status_frame = (d1, None) ->
  dev_Read d1 13 = (d2, data, None) ->
  let p := fill GPIO.status_frame data in
  nth 0 p 0 = 0x0b ->
  nth 2 p 0 = 0xcc ->
  let b := nth (Z.to_nat (5 + pin)) p 0 in
  fst (GPIO.ReadPin pin s) =
    Done (if Z.testbit b 7 then Z.testbit b 6 else negb (Z.testbit b 6)).
Proof.
  intros Hp Hw Hr p H0 H2 b. unfold GPIO.ReadPin.
  rewrite (exchange_run GPIO.status_frame s d1 d2 data eq_refl Hw Hr H0 H2).
  rewrite pin_offset by exact Hp.
  unfold bind. rewrite get_at_nth.
  2:{ unfold len. rewrite fill_length. change (length GPIO.status_frame) with 13%nat. lia. }
  fold p. fold b. cbv beta iota delta [must ret]. rewrite bit7, bit6.
  destruct (Z.testbit b 7), (Z.testbit b 6); reflexivity.
Qed.
End GPIOProps.

(** ** SPI with a read buffer; buffers *)

Section Buffers.
Context {D : Type} `{HIDDev D}.

(** C8. With a read buffer that is not empty, [SPI(w, r)] returns
    [ErrUnsupported] and leaves the state as it was: the device and the
    log of the calls made on it are untouched. *)
Theorem SPI_read_unsupported (w r : list Z) (s : st D SPI.vars) :
  r <> [] -> SPI.SPI w r s = (Fail ErrUnsupported, s).
Proof.
  intros Hr. unfold SPI.SPI. destruct r as [| x r]; [contradiction | ].
  unfold len. cbn [length]. 
  destruct (Z.eqb_spec (Z.of_nat (S (length r))) 0) as [E | E]; [lia | reflexivity].
Qed.








End Buffers.

(** ** UART.Read *)

Section UARTRead.
Context {D : Type} `{HIDDev D}.

Lemma sub_some (l : list Z) (a b : Z) :
  0 <= a <= b -> b <= len l ->
  sub l a b = Some (firstn (Z.to_nat (b - a)) (skipn (Z.to_nat a) l)).
Proof.
  intros Hab Hb. unfold sub.
  destruct (Z.ltb_spec a 0); [lia | ].
  destruct (Z.ltb_spec b a); [lia | ].
  destruct (Z.ltb_spec (len l) b); [lia | ]. reflexivity.
Qed.

End UARTRead.


(** ** Tactics for the weakest precondition *)

(** Projections of the states the codecs run on. *)
Ltac st_simpl :=
  unfold SPI.set_p, SPI.set_sent, SPI.set_pos, SPI.set_olen,
         I2C.set_p, I2C.set_toWrite, I2C.set_toRead, I2C.set_rpos,
         I2C.set_hasRead, I2C.set_r, I2C.set_cpos, I2C.set_d, I2C.set_pos,
         I2C.set_rlen, I2C.set_maxRLen, I2C.set_send in *;
  cbn [fst snd Dev log live spare
       UART.w_p UART.w_pos
       SPI.v_p SPI.v_sent SPI.v_pos SPI.v_olen
       I2C.v_p I2C.v_toWrite I2C.v_toRead I2C.v_rpos I2C.v_hasRead I2C.v_r
       I2C.v_cpos I2C.v_d I2C.v_pos I2C.v_rlen I2C.v_maxRLen I2C.v_send] in *.

Ltac wp_step :=
  lazymatch goal with
  | |- wp (bind _ _) _ _ _ => apply wp_bind
  | |- wp (ret _) _ _ _ => apply wp_ret
  | |- wp (local _) _ _ _ => apply wp_local
  | |- wp (update _) _ _ _ => apply wp_update
  | |- wp (fail _) _ _ _ => apply wp_fail
  | |- wp (must _) _ _ _ => apply wp_must
  | |- wp (when _ _) _ _ _ => apply wp_when
  | |- wp (Dev_Write _) _ _ _ => apply wp_Dev_Write; intros ? ? ?
  | |- wp (Dev_Read _) _ _ _ => apply wp_Dev_Read; intros ? ? ? ?
  end; cbv beta; st_simpl.

Ltac st_simpl_goal :=
  unfold SPI.set_p, SPI.set_sent, SPI.set_pos, SPI.set_olen,
         I2C.set_p, I2C.set_toWrite, I2C.set_toRead, I2C.set_rpos,
         I2C.set_hasRead, I2C.set_r, I2C.set_cpos, I2C.set_d, I2C.set_pos,
         I2C.set_rlen, I2C.set_maxRLen, I2C.set_send;
  cbn [fst snd Dev log live spare
       UART.w_p UART.w_pos
       SPI.v_p SPI.v_sent SPI.v_pos SPI.v_olen
       I2C.v_p I2C.v_toWrite I2C.v_toRead I2C.v_rpos I2C.v_hasRead I2C.v_r
       I2C.v_cpos I2C.v_d I2C.v_pos I2C.v_rlen I2C.v_maxRLen I2C.v_send].

(** Run through the steps that neither branch nor touch the device. *)
Ltac wp_pure :=
  repeat (lazymatch goal with
          | |- wp (bind _ _) _ _ _ => apply wp_bind
          | |- wp (ret _) _ _ _ => apply wp_ret
          | |- wp (local _) _ _ _ => apply wp_local
          | |- wp (update _) _ _ _ => apply wp_update
          | |- wp (must (Some _)) _ _ _ => apply wp_must
          end; cbv beta iota; st_simpl_goal).

Tactic Notation "wp_write" ident(d) ident(err) ident(Hw) :=
  apply wp_Dev_Write; intros d err Hw; cbv beta zeta; st_simpl.
Tactic Notation "wp_read" ident(d) ident(data) ident(err) ident(Hr) :=
  apply wp_Dev_Read; intros d data err Hr; cbv beta zeta; st_simpl.

(** Boolean comparisons of the code as propositions for [lia]. *)
Ltac zbool :=
  repeat match goal with
  | H : (_ <? _) = true |- _ => apply Z.ltb_lt in H
  | H : (_ <? _) = false |- _ => apply Z.ltb_ge in H
  | H : (_ <=? _) = true |- _ => apply Z.leb_le in H
  | H : (_ <=? _) = false |- _ => apply Z.leb_gt in H
  | H : (_ =? _) = true |- _ => apply Z.eqb_eq in H
  | H : (_ =? _) = false |- _ => apply Z.eqb_neq in H
  | H : (_ >? _) = _ |- _ => rewrite Z.gtb_ltb in H
  | H : (_ >=? _) = _ |- _ => rewrite Z.geb_leb in H
  | H : negb _ = true |- _ => apply negb_true_iff in H
  | H : negb _ = false |- _ => apply negb_false_iff in H
  | H : _ && _ = true |- _ => apply andb_true_iff in H; destruct H
  | H : _ || _ = false |- _ => apply orb_false_iff in H; destruct H
  end.

Lemma written_app (l1 l2 : list event) : written (l1 ++ l2) = written l1 ++ written l2.
Proof. unfold written. apply flat_map_app. Qed.

Lemma reads_app (l1 l2 : list event) : reads (l1 ++ l2) = reads l1 ++ reads l2.
Proof. unfold reads. apply flat_map_app. Qed.

Lemma set_at_0 (l : list Z) (x : Z) :
  1 <= len l -> set_at l 0 x = Some (x :: skipn 1 l).
Proof.
  intros Hl. unfold set_at. cbn [Z.ltb Z.compare orb].
  destruct (Z.leb_spec (len l) 0); [lia | reflexivity].
Qed.

Lemma set_at_1 (a : Z) (l : list Z) (x : Z) :
  1 <= len l -> set_at (a :: l) 1 x = Some (a :: x :: skipn 1 l).
Proof.
  intros Hl. unfold set_at, len in *. cbn [length] in *.
  cbn [Z.ltb Z.compare orb].
  destruct (Z.leb_spec (Z.of_nat (S (length l))) 1); [lia | reflexivity].
Qed.

Lemma le16_lo (n : Z) : byte (Z.land n 0xff) = n mod 256.
Proof.
  unfold byte. change 0xff with (Z.ones 8). rewrite Z.land_ones by lia.
  change (2 ^ 8) with 256. apply Z.mod_mod. lia.
Qed.

Lemma le16_hi (n : Z) : byte (Z.land (Z.shiftr n 8) 0xff) = (n / 256) mod 256.
Proof.
  unfold byte. change 0xff with (Z.ones 8). rewrite Z.land_ones by lia.
  rewrite Z.shiftr_div_pow2 by lia.
  change (2 ^ 8) with 256. apply Z.mod_mod. lia.
Qed.

(** The frame a codec sends once the length of what follows is stored
    in its first two bytes. *)
Lemma prefixed_frame_ok (l : list Z) :
  2 <= len l < 65538 ->
  frame_ok (byte (Z.land (len l - 2) 0xff)
            :: byte (Z.land (Z.shiftr (len l - 2) 8) 0xff) :: skipn 2 l).
Proof.
  intros Hl. unfold frame_ok. rewrite le16_lo, le16_hi.
  assert (Hs : len (skipn 2 l) = len l - 2).
  { unfold len in *. rewrite length_skipn. lia. }
  rewrite Hs.
  pose proof (Z.mod_pos_bound (len l - 2) 256 ltac:(lia)).
  pose proof (Z.mod_pos_bound ((len l - 2) / 256) 256 ltac:(lia)).
  repeat split; try lia.
  rewrite (Z.mod_small ((len l - 2) / 256)).
  - pose proof (Z.div_mod (len l - 2) 256 ltac:(lia)). lia.
  - split; [apply Z.div_pos; lia | apply Z.div_lt_upper_bound; lia].
Qed.

Lemma set_header (l : list Z) (x y : Z) :
  2 <= len l ->
  exists l1, set_at l 0 x = Some l1 /\ set_at l1 1 y = Some (x :: y :: skipn 2 l).
Proof.
  intros Hl. destruct l as [| a [| b l]]; unfold len in Hl; cbn [length] in Hl; try lia.
  exists (x :: b :: l). split.
  - rewrite set_at_0; [reflexivity | unfold len; cbn [length]; lia].
  - rewrite set_at_1; [reflexivity | unfold len; cbn [length]; lia].
Qed.

(** ** Frames of SPI *)

(** A property kept by the body is kept by the loop, which may stop for
    want of fuel. *)
Lemma wp_while_keeps {S : Type} (P : S -> Prop) (R : abort -> S -> Prop)
      (cond : S -> bool) (body : M S unit) :
  (forall s, P s -> R AFuel s) ->
  (forall s, P s -> cond s = true -> wp body (fun _ => P) R s) ->
  forall fuel s, P s ->
    wp (while fuel cond body) (fun _ s' => P s' /\ cond s' = false) R s.
Proof.
  intros Hfuel Hbody. induction fuel as [| fuel IH]; intros s HP.
  - unfold wp. cbn [while]. destruct (cond s) eqn:Hc; [now apply Hfuel | now split].
  - unfold wp. cbn [while]. destruct (cond s) eqn:Hc; [ | now split].
    change (wp (bind body (fun _ => while fuel cond body))
              (fun _ s' => P s' /\ cond s' = false) R s).
    apply wp_bind. eapply wp_mono; [exact (Hbody s HP Hc) | | auto].
    intros a s' HP'. now apply IH.
Qed.

Lemma wp_run {S A : Type} (c : M S A) (P : S -> Prop) (s : S) :
  wp c (fun _ => P) (fun _ => P) s -> P (snd (c s)).
Proof. unfold wp. destruct (c s) as [[a | e | | ] s']; trivial. Qed.

Lemma reslice_slen (p p' : slice) (n : Z) :
  reslice p n = Some p' -> slen p' = n.
Proof.
  unfold reslice, scap, slen, len.
  destruct (Z.ltb_spec n 0); [discriminate | ].
  destruct (Z.ltb_spec (Z.of_nat (length (live p)) + Z.of_nat (length (spare p))) n);
    [discriminate | ].
  cbn [orb]. intros [= <-]. cbn [live].
  rewrite length_firstn, length_app. lia.
Qed.

Lemma sub_length (l l' : list Z) (a b : Z) :
  sub l a b = Some l' -> len l' = b - a /\ 0 <= a <= b /\ b <= len l.
Proof.
  unfold sub, len.
  destruct (Z.ltb_spec a 0); [discriminate | ].
  destruct (Z.ltb_spec b a); [discriminate | ].
  destruct (Z.ltb_spec (Z.of_nat (length l)) b); [discriminate | ].
  cbn [orb]. intros [= <-]. rewrite length_firstn, length_skipn. lia.
Qed.

Lemma slen_append (p : slice) (xs : list Z) : slen (append p xs) = slen p + len xs.
Proof. unfold slen, append, len. cbn [live]. rewrite length_app. lia. Qed.

Section SPIProps.
Context {D : Type} `{HIDDev D}.
Implicit Types s : st D SPI.vars.


Lemma confirm_frames s :
  frames_sent_ok s ->
  wp SPI.confirm
     (fun _ s' => frames_sent_ok s' /\ slen (SPI.v_p (snd s')) = 5
                  /\ SPI.v_pos (snd s') = SPI.v_pos (snd s)
                  /\ SPI.v_olen (snd s') = SPI.v_olen (snd s))
     (fun _ s' => frames_sent_ok s') s.
Proof.
  intros Hok. unfold SPI.confirm. destruct s as [[d l] v]. unfold frames_sent_ok in *.
  st_simpl.
  wp_step. wp_step. wp_step. wp_step.
  destruct (reslice (SPI.v_p v) 5) as [p5 | ] eqn:Ers; [ | exact Hok].
  pose proof (reslice_slen _ _ _ Ers) as Hs5.
  wp_step. wp_step. wp_step. wp_step.
  assert (Hok' : Forall frame_ok (written (l ++ [EvRead (length (live p5)) data]))).
  { rewrite written_app. cbn. now rewrite app_nil_r. }
  destruct err; [exact Hok' | ].
  st_simpl.
  repeat wp_step. st_simpl.
  destruct (get_at _ 2); [ | exact Hok']. wp_step. wp_step.
  destruct (get_at _ 3); [ | exact Hok']. wp_step.
  destruct (negb (z =? 196) && negb (z0 =? 1)).
  - wp_step. exact Hok'.
  - repeat wp_step. st_simpl. repeat split; try exact Hok'.
    unfold slen, len in *. cbn [live]. rewrite fill_length. exact Hs5.
Qed.

Lemma write_frames (finish : bool) s :
  frames_sent_ok s -> slen (SPI.v_p (snd s)) < 65538 ->
  wp (SPI.write finish)
     (fun _ s' => frames_sent_ok s' /\ slen (SPI.v_p (snd s')) <= 2
                  /\ SPI.v_pos (snd s') = SPI.v_pos (snd s)
                  /\ SPI.v_olen (snd s') = SPI.v_olen (snd s))
     (fun _ s' => frames_sent_ok s') s.
Proof.
  intros Hok Hlen. unfold SPI.write. destruct s as [[d l] v].
  unfold frames_sent_ok in *. st_simpl.
  wp_step. wp_step.
  destruct (Z.leb_spec (slen (SPI.v_p v)) 2) as [Hle | Hgt].
  { wp_step. auto. }
  destruct (set_header (live (SPI.v_p v))
              (byte (Z.land (slen (SPI.v_p v) - 2) 255))
              (byte (Z.land (Z.shiftr (slen (SPI.v_p v) - 2) 8) 255)))
    as [l1 [E1 E2]]; [unfold slen in Hgt; lia | ].
  wp_step. wp_step. rewrite E1. wp_step. wp_step. rewrite E2.
  wp_step. wp_step. wp_step. wp_step.
  assert (Hok' : Forall frame_ok
            (written (l ++ [EvWrite (byte (Z.land (slen (SPI.v_p v) - 2) 255)
               :: byte (Z.land (Z.shiftr (slen (SPI.v_p v) - 2) 8) 255)
               :: skipn 2 (live (SPI.v_p v)))]))).
  { rewrite written_app. apply Forall_app. split; [exact Hok | ].
    constructor; [ | constructor]. apply prefixed_frame_ok.
    unfold slen in *. lia. }
  destruct err; [exact Hok' | ].
  wp_step. wp_step. wp_step. wp_step.
  match goal with |- wp _ _ _ ?s0 => set (s1 := s0) end.
  assert (Hdrain : wp (when finish
               (sent <- local SPI.v_sent ;;
                while (Z.to_nat sent) (fun s => 0 <? SPI.v_sent (snd s)) SPI.confirm))
            (fun _ s' => frames_sent_ok s'
                         /\ SPI.v_pos (snd s') = SPI.v_pos v
                         /\ SPI.v_olen (snd s') = SPI.v_olen v)
            (fun _ s' => frames_sent_ok s') s1).
  { wp_step. destruct finish; [ | now unfold frames_sent_ok].
    wp_step. wp_step.
    eapply wp_mono.
    - apply (wp_while_keeps
               (fun s' => frames_sent_ok s'
                          /\ SPI.v_pos (snd s') = SPI.v_pos v
                          /\ SPI.v_olen (snd s') = SPI.v_olen v)
               (fun _ s' => frames_sent_ok s')).
      + tauto.
      + intros s' [Hf [Hp Ho]] _.
        eapply wp_mono; [apply confirm_frames; exact Hf | | auto].
        intros a s'' (Hf' & _ & Hp' & Ho').
        repeat split; [exact Hf' | congruence | congruence].
      + now unfold frames_sent_ok.
    - intros a s' [HH _]. exact HH.
    - auto. }
  apply wp_bind. eapply wp_mono; [exact Hdrain | | auto].
  intros a [[d2 l2] v2] (Hf & Hp & Ho). st_simpl.
  wp_step. wp_step. wp_step. wp_step.
  destruct (reslice (SPI.v_p v2) 2) as [p2 | ] eqn:Ers; [ | exact Hf].
  wp_step. st_simpl. repeat split; try assumption.
  rewrite (reslice_slen _ _ _ Ers). lia.
Qed.


Lemma body_frames (w : list Z) s :
  spi_inv s ->
  wp (SPI.body w (len w)) (fun _ s' => spi_inv s') (fun _ s' => frames_sent_ok s') s.
Proof.
  intros [Hok Hlen]. unfold SPI.body. destruct s as [[d l] v].
  unfold spi_inv, frames_sent_ok in *. st_simpl.
  wp_step. wp_step. wp_step. wp_step. wp_step.
  eapply wp_mono with
    (Q := fun _ s' => frames_sent_ok s' /\ slen (SPI.v_p (snd s')) <= 514)
    (R := fun _ s' => frames_sent_ok s'); [ | | auto].
  { wp_step. destruct (SPI.v_olen v =? 0).
    - cbv zeta. wp_step. wp_step. wp_step. unfold frames_sent_ok. st_simpl.
      split; [exact Hok | ]. rewrite slen_append. change (len _) with 5. lia.
    - unfold frames_sent_ok. st_simpl. split; [exact Hok | lia]. }
  intros a [[d1 l1] v1] [Hok1 Hlen1]. unfold frames_sent_ok in Hok1. st_simpl.
  wp_step. wp_step. cbv zeta.
  set (dlen := if _ >? SPI.maxOpLen then _ else _).
  assert (Hd : slen (SPI.v_p v1) + dlen <= 509).
  { subst dlen. unfold SPI.maxDataLen.
    destruct (Z.gtb_spec (slen (SPI.v_p v1) + (len w - SPI.v_pos v)) 509);
      match goal with |- context [if ?b then _ else _] => destruct b eqn:E end;
      zbool; lia. }
  wp_step. wp_step.
  destruct (sub w (SPI.v_pos v) (SPI.v_pos v + dlen)) as [data | ] eqn:Esub; [ | exact Hok1].
  apply sub_length in Esub. destruct Esub as [Hdata _].
  wp_step. wp_step. wp_step. wp_step.
  assert (Hlen2 : slen (append (SPI.v_p v1) data) <= 509) by (rewrite slen_append; lia).
  wp_step.
  eapply wp_mono with
    (Q := fun _ s' => frames_sent_ok s' /\ slen (SPI.v_p (snd s')) <= 509)
    (R := fun _ s' => frames_sent_ok s'); [ | | auto].
  { wp_step. destruct (slen (append (SPI.v_p v1) data) >=? SPI.maxDataLen).
    - eapply wp_mono; [apply write_frames | | auto].
      + exact Hok1.
      + st_simpl. lia.
      + intros a' s' (Hf & Hs & _). split; [exact Hf | lia].
    - unfold frames_sent_ok. st_simpl. auto. }
  intros a' [[d2 l2] v2] [Hok2 Hlen3]. unfold frames_sent_ok in Hok2. st_simpl.
  wp_step. wp_step. wp_step. wp_step. wp_step.
  destruct (SPI.v_olen v + dlen =? SPI.maxOpLen).
  - wp_step. eapply wp_mono; [apply write_frames | | auto].
    + exact Hok2.
    + st_simpl. lia.
    + intros a'' [[d3 l3] v3] (Hf & Hs & _). unfold frames_sent_ok in Hf. st_simpl.
      wp_step. wp_step. wp_step. wp_step.
      destruct (reslice (SPI.v_p v3) 0) as [p0 | ] eqn:Ers; [ | exact Hf].
      wp_step. wp_step. wp_step. st_simpl.
      split; [exact Hf | ]. rewrite (reslice_slen _ _ _ Ers). lia.
  - st_simpl. split; [exact Hok2 | exact Hlen3].
Qed.

(** Every frame sent by [SPI] carries in its first two bytes the number
    of bytes that follow them, however the call ends. *)
Lemma SPI_frames_ok (w r : list Z) (d : D) :
  Forall frame_ok (written (log (fst (snd (run (SPI.SPI w r) d SPI.init))))).
Proof.
  unfold run. apply (wp_run _ (fun s => Forall frame_ok (written (log (fst s))))).
  unfold SPI.SPI. destruct (negb (len r =? 0)).
  - wp_step. constructor.
  - cbv zeta. wp_step.
    eapply wp_mono; [ apply (wp_while_keeps spi_inv (fun _ s' => frames_sent_ok s')) | | auto].
    + now intros s [Hf _].
    + intros s Hs _. now apply body_frames.
    + split; [constructor | ]. st_simpl. vm_compute. discriminate.
    + intros a s [[Hf Hs] _].
      eapply wp_mono; [apply write_frames | | auto]; try assumption; try lia.
      now intros a' s' [Hf' _].
Qed.
End SPIProps.

(** ** Frames of UART.Write *)

Lemma header_frame_ok (n : Z) (payload : list Z) :
  0 <= n < 65536 -> len payload = n ->
  frame_ok (byte (Z.land n 0xff) :: byte (Z.land (Z.shiftr n 8) 0xff) :: payload).
Proof.
  intros Hn Hp. unfold frame_ok. rewrite le16_lo, le16_hi, Hp.
  pose proof (Z.mod_pos_bound n 256 ltac:(lia)).
  pose proof (Z.mod_pos_bound (n / 256) 256 ltac:(lia)).
  repeat split; try lia.
  rewrite (Z.mod_small (n / 256)).
  - pose proof (Z.div_mod n 256 ltac:(lia)). lia.
  - split; [apply Z.div_pos; lia | apply Z.div_lt_upper_bound; lia].
Qed.

Lemma sub_prefix2 (a b : Z) (l f : list Z) (n : Z) :
  0 <= n -> sub (a :: b :: l) 0 (2 + n) = Some f ->
  f = a :: b :: firstn (Z.to_nat n) l /\ n <= len l.
Proof.
  intros Hn Hs. pose proof (sub_length _ _ _ _ Hs) as (_ & _ & Hl).
  unfold len in Hl. cbn [length] in Hl.
  rewrite sub_some in Hs by (unfold len; cbn [length]; lia).
  assert (E : f = firstn (Z.to_nat (2 + n - 0)) (skipn (Z.to_nat 0) (a :: b :: l)))
    by congruence.
  rewrite E. replace (Z.to_nat (2 + n - 0)) with (S (S (Z.to_nat n))) by lia.
  split; [reflexivity | unfold len; lia].
Qed.

Section UARTProps.
Context {D : Type} `{HIDDev D}.
Implicit Types s : st D UART.write_vars.

Lemma Write_body_frames (b : list Z) (plen : Z) s :
  0 <= plen <= 510 ->
  uart_inv plen (len b) s ->
  UART.w_pos (snd s) < len b ->
  wp (UART.Write_body b plen (len b))
     (fun _ s' => uart_inv plen (len b) s')
     (fun _ s' => Forall frame_ok (written (log (fst s')))) s.
Proof.
  intros Hplen [Hok Hp] Hpos. destruct Hp as [Hp | Hp]; [ | lia].
  unfold UART.Write_body, uart_inv. destruct s as [[d l] [p pos]]. st_simpl.
  wp_step. wp_step. wp_step. wp_step. cbv zeta.
  set (dlen := if _ >? plen then plen else _).
  assert (Hd : 0 <= dlen <= plen /\ (dlen <> plen -> pos + dlen = len b)).
  { subst dlen. destruct (Z.gtb_spec (len b - pos) plen); lia. }
  destruct (set_header p (byte (Z.land dlen 255)) (byte (Z.land (Z.shiftr dlen 8) 255)))
    as [p1 [E1 E2]]; [lia | ].
  wp_step. wp_step. rewrite E1. wp_step. wp_step. rewrite E2.
  set (lo := byte (Z.land dlen 255)) in *. set (hi := byte (Z.land (Z.shiftr dlen 8) 255)) in *.
  wp_step. wp_step.
  destruct (sub (lo :: hi :: skipn 2 p) 2 (len (lo :: hi :: skipn 2 p))) as [dst | ] eqn:Ed;
    [ | exact Hok].
  apply sub_length in Ed. destruct Ed as [Hdst _].
  assert (Hdst' : len dst = plen).
  { rewrite Hdst. unfold len in *. cbn [length]. rewrite length_skipn. lia. }
  wp_step. wp_step.
  destruct (sub b pos (pos + dlen)) as [src | ] eqn:Es; [ | exact Hok].
  cbn [firstn app].
  assert (Hcopy : len (copy dst src) = plen).
  { unfold len in *. now rewrite copy_length. }
  wp_step.
  eapply wp_mono with
    (Q := fun f s' => s' = (mkIO d l, UART.mkWriteVars p pos)
                      /\ exists payload, f = lo :: hi :: payload /\ len payload = dlen)
    (R := fun _ s' => Forall frame_ok (written (log (fst s')))); [ | | auto].
  { destruct (Z.eqb_spec dlen plen) as [Heq | Hne]; cbn [negb].
    - wp_step. split; [reflexivity | ]. eexists. split; [reflexivity | lia].
    - wp_step. 
      destruct (sub (lo :: hi :: copy dst src) 0 (2 + dlen)) as [f | ] eqn:Ef; [ | exact Hok].
      split; [reflexivity | ].
      apply sub_prefix2 in Ef; [ | lia]. destruct Ef as [-> Hle].
      eexists. split; [reflexivity | ].
      unfold len in *. rewrite length_firstn. lia. }
  intros f s' [-> [payload [-> Hpl]]]. st_simpl.
  wp_step. wp_step. wp_step. wp_step.
  assert (Hok' : Forall frame_ok (written (l ++ [EvWrite (lo :: hi :: payload)]))).
  { rewrite written_app. apply Forall_app. split; [exact Hok | ].
    constructor; [ | constructor]. apply header_frame_ok; lia. }
  destruct err; [exact Hok' | ].
  wp_step. st_simpl. split; [exact Hok' | ].
  destruct (Z.eq_dec dlen plen) as [Heq | Hne].
  - left. unfold len in *. cbn [length]. lia.
  - right. lia.
Qed.

(** Every frame sent by [UART.Write] is well formed. *)
Lemma UART_Write_frames_ok (b : list Z) (d : D) :
  Forall frame_ok (written (log (fst (snd (run (UART.Write b) d UART.Write_init))))).
Proof.
  unfold run. apply (wp_run _ (fun s => Forall frame_ok (written (log (fst s))))).
  unfold UART.Write. cbv zeta.
  set (plen := if len b >? 510 then 510 else len b).
  assert (Hplen : 0 <= plen <= 510).
  { subst plen. pose proof (len_nonneg b). destruct (Z.gtb_spec (len b) 510); lia. }
  wp_step. wp_step.
  eapply wp_mono;
    [ apply (wp_while_keeps (uart_inv plen (len b))
               (fun _ s' => Forall frame_ok (written (log (fst s'))))) | | auto].
  - now intros s [Hf _].
  - intros s Hs Hc. zbool. now apply Write_body_frames.
  - split; [constructor | ]. left. st_simpl. unfold len. rewrite repeat_length. lia.
  - now intros a s [[Hf _] _].
Qed.
End UARTProps.

(** ** Slices *)

Lemma consumed_app (l1 l2 : list event) :
  consumed (l1 ++ l2) = consumed l1 + consumed l2.
Proof.
  unfold consumed. rewrite reads_app.
  induction (reads l1) as [| n ns IH]; cbn [app fold_right]; lia.
Qed.

Lemma scap_append (p : slice) (xs : list Z) :
  len xs <= len (spare p) -> scap (append p xs) = scap p.
Proof.
  intros Hx. unfold scap, append, len in *. cbn [live spare].
  rewrite length_app, length_skipn. lia.
Qed.

Lemma reslice_some (p : slice) (n : Z) :
  0 <= n <= scap p ->
  exists p', reslice p n = Some p' /\ slen p' = n /\ scap p' = scap p
             /\ live p' = firstn (Z.to_nat n) (live p ++ spare p).
Proof.
  intros Hn. unfold reslice.
  destruct (Z.ltb_spec n 0); [lia | ].
  destruct (Z.ltb_spec (scap p) n); [lia | ]. cbn [orb].
  eexists. split; [reflexivity | ].
  unfold slen, scap, len in *. cbn [live spare].
  rewrite length_firstn, length_skipn, length_app. repeat split; lia.
Qed.

Lemma ssub_some (p : slice) (a b : Z) :
  0 <= a <= b -> b <= scap p ->
  exists l, ssub p a b = Some l /\ len l = b - a.
Proof.
  intros Hab Hb. unfold ssub.
  destruct (Z.ltb_spec a 0); [lia | ].
  destruct (Z.ltb_spec b a); [lia | ].
  destruct (Z.ltb_spec (scap p) b); [lia | ]. cbn [orb].
  eexists. split; [reflexivity | ].
  unfold scap, len in *. rewrite length_firstn, length_skipn, length_app. lia.
Qed.

Lemma sub_some_len (l : list Z) (a b : Z) :
  0 <= a <= b -> b <= len l ->
  exists l', sub l a b = Some l' /\ len l' = b - a.
Proof.
  intros Hab Hb. rewrite sub_some by lia. eexists. split; [reflexivity | ].
  unfold len in *. rewrite length_firstn, length_skipn. lia.
Qed.

Lemma get_at_some (l : list Z) (i : Z) :
  0 <= i < len l -> exists x, get_at l i = Some x.
Proof. intros Hi. rewrite get_at_nth by lia. eauto. Qed.

(** ** The flush of I2C *)

Section I2CProps.
Context {D : Type} `{HIDDev D}.
Implicit Types s : st D I2C.vars.

Lemma write_spec (r0 : list Z) s :
  i2c_core r0 s ->
  1 <= slen (I2C.v_p (snd s)) ->
  (I2C.v_hasRead (snd s) = true -> 1 <= I2C.v_toRead (snd s)) ->
  wp I2C.write (fun _ s' => flushed r0 s s') (i2c_abort r0) s.
Proof.
  intros Hcore Hp1 HK. unfold I2C.write.
  destruct s as [[d l] [p tW tR rpos h r cpos dd pos rlen mR snd_]].
  unfold i2c_core, ack_pending in Hcore. st_simpl.
  destruct Hcore as (Hok & Hlen & Hcap & HtW & HtR & Hrpos & Hrb & Hr & Hsum & HJ).
  wp_step. wp_step. cbv zeta.
  set (p1 := append p [0]).
  assert (Hs1 : slen p1 = slen p + 1) by (subst p1; now rewrite slen_append).
  assert (Hc1 : scap p1 = 512).
  { subst p1. rewrite scap_append; [exact Hcap | ].
    unfold scap, slen in *. change (len [0]) with 1. lia. }
  destruct (set_header (live p1) (byte (Z.land (slen p1 - 2) 255))
              (byte (Z.land (Z.shiftr (slen p1 - 2) 8) 255)))
    as [l1 [E1 E2]]; [unfold slen in *; lia | ].
  wp_step. wp_step. rewrite E1. wp_step. wp_step. rewrite E2.
  set (f := _ :: _ :: skipn 2 (live p1)) in *.
  assert (Hf : frame_ok f).
  { subst f. apply prefixed_frame_ok. unfold slen in *. lia. }
  assert (Hfl : len f = slen p1).
  { subst f. unfold slen, len in *. cbn [length]. rewrite length_skipn. lia. }
  wp_step. wp_step. wp_step. wp_step.
  assert (Hok1 : Forall frame_ok (written (l ++ [EvWrite f]))).
  { rewrite written_app. apply Forall_app. split; [exact Hok | ].
    constructor; [exact Hf | constructor]. }
  destruct err as [c | ].
  { split; [exact Hok1 | ]. intros [Hef _]. specialize (Hef d f).
    rewrite H0 in Hef. discriminate. }
  st_simpl. wp_step. wp_step. wp_step. wp_step. wp_step. wp_step. cbv zeta.
  set (clen := 2 + (if h then tW + tR + 1 else tW + tR)).
  assert (Hclen : clen = 2 + tW + tR + (if h then 1 else 0)) by (subst clen; destruct h; lia).
  assert (Hcons1 : consumed (l ++ [EvWrite f]) = consumed l).
  { rewrite consumed_app. cbn. lia. }
  wp_step.
  eapply wp_mono with
    (Q := fun _ s' =>
       Forall frame_ok (written (log (fst s'))) /\
       consumed (log (fst s')) = consumed l + tW + tR + (if h then 1 else 0) /\
       scap (I2C.v_p (snd s')) = 512 /\
       I2C.v_toWrite (snd s') = 0 /\ I2C.v_toRead (snd s') = 0 /\
       I2C.v_hasRead (snd s') = false /\
       I2C.v_rpos (snd s') = rpos + tR /\
       (tR = 0 -> I2C.v_r (snd s') = r) /\
       len (I2C.v_r (snd s')) = len r0 /\
       I2C.v_d (snd s') = dd /\ I2C.v_pos (snd s') = pos /\
       I2C.v_rlen (snd s') = rlen /\ I2C.v_maxRLen (snd s') = mR /\
       I2C.v_send (snd s') = snd_)
    (R := i2c_abort r0); [ | | auto].
  2:{ intros a [[d2 l2] [p2 tW2 tR2 rpos2 h2 r2 cpos2 dd2 pos2 rlen2 mR2 snd2]]. st_simpl.
      intros (Hok2 & Hcons2 & Hcap2 & -> & -> & -> & -> & Hrr & Hr2 & -> & -> & -> & -> & ->).
      wp_step. wp_step. wp_step. wp_step.
      destruct (reslice_some p2 0) as (p3 & -> & Hs3 & Hc3 & _); [lia | ].
      wp_step. unfold flushed, i2c_core, same_loop_vars, ack_pending. st_simpl.
      repeat split; try assumption; try lia. }
  wp_step. destruct (Z.gtb_spec (tW + tR) 0) as [Hpos | Hzero].
  2:{ assert (tW = 0) by lia. assert (tR = 0) by lia. subst tW tR.
      assert (h = false) by (destruct h; [specialize (HK eq_refl); lia | reflexivity]).
      subst h. st_simpl. repeat split; try assumption; try lia.
      unfold scap in *. cbn [live spare]. unfold slen in *. lia. }
  destruct (reslice_some (mkSlice f (spare p1)) clen) as (p3 & -> & Hs3 & Hc3 & _).
  { unfold scap in *. cbn [live spare]. unfold slen in *. destruct h; lia. }
  assert (Hc3' : scap p3 = 512).
  { rewrite Hc3. unfold scap in *. cbn [live spare]. unfold slen in *. lia. }
  wp_pure. wp_read d2 data err Hrd.
  assert (Hn : Z.of_nat (length (live p3)) = clen) by exact Hs3.
  assert (Hok2 : Forall frame_ok
             (written ((l ++ [EvWrite f]) ++ [EvRead (length (live p3)) data]))).
  { rewrite written_app. cbn. now rewrite app_nil_r. }
  assert (Hcons2 : consumed ((l ++ [EvWrite f]) ++ [EvRead (length (live p3)) data])
                   = consumed l + tW + tR + (if h then 1 else 0)).
  { rewrite consumed_app, Hcons1. cbn. lia. }
  destruct err as [c | ].
  { split; [exact Hok2 | ]. intros [_ Hef]. specialize (Hef d' (length (live p3))).
    rewrite Hrd in Hef. discriminate. }
  set (l4 := fill (live p3) data).
  assert (Hl4 : len l4 = clen).
  { subst l4. unfold len. now rewrite fill_length. }
  wp_pure.
  set (io2 := mkIO d2 ((l ++ [EvWrite f]) ++ [EvRead (length (live p3)) data])).
  assert (Hc4 : scap (mkSlice l4 (spare p3)) = 512).
  { unfold scap in *. cbn [live spare]. fold (slen p3) in *. lia. }
  eapply wp_mono with
    (Q := fun _ s' =>
       s' = (io2, I2C.mkVars (mkSlice l4 (spare p3)) 0 tR rpos h r (2 + tW) dd pos rlen mR snd_))
    (R := i2c_abort r0); [ | | auto].
  { eapply wp_mono;
      [ apply wp_while with
          (I := fun s' => exists tw, 0 <= tw <= tW /\
                    s' = (io2, I2C.mkVars (mkSlice l4 (spare p3)) tw tR rpos h r
                                 (2 + (tW - tw)) dd pos rlen mR snd_))
          (m := fun s' => Z.to_nat (I2C.v_toWrite (snd s')))
          (R := i2c_abort r0) | | auto ].
    - intros s' (tw & Htw & ->) Hc. st_simpl. zbool. lia.
    - intros s' (tw & Htw & ->) Hc. st_simpl. zbool.
      unfold I2C.confirm_write. wp_pure.
      destruct (get_at_some l4 (2 + (tW - tw))) as [b Hb]; [destruct h; lia | ].
      rewrite Hb. wp_pure.
      destruct (Z.eqb b 0).
      + wp_step. unfold i2c_abort. st_simpl. split; [exact Hok2 | ].
        split; [destruct HJ as [HJ | HJ]; [exact HJ | lia] | ].
        subst io2. cbn [log]. eauto.
      + wp_pure. split; [ | lia]. exists (tw - 1). split; [lia | ].
        f_equal. f_equal. lia.
    - exists tW. split; [lia | ]. f_equal. f_equal. lia.
    - st_simpl. lia.
    - intros a s' [(tw & Htw & ->) Hc]. st_simpl. zbool.
      assert (tw = 0) by lia. subst tw. f_equal. f_equal. lia. }
  intros a s' ->. unfold I2C.confirm_reads. wp_pure.
  wp_step. destruct (Z.gtb_spec tR 0) as [HtR1 | HtR0].
  2:{ assert (tR = 0) by lia. subst tR.
      assert (h = false) by (destruct h; [specialize (HK eq_refl); lia | reflexivity]).
      subst h. subst io2. st_simpl.
      repeat split; try assumption; try lia. }
  wp_pure.
  eapply wp_mono with
    (Q := fun _ s' =>
       s' = (io2, I2C.mkVars (mkSlice l4 (spare p3)) 0 tR rpos false r
                    (2 + tW + (if h then 1 else 0)) dd pos rlen mR snd_))
    (R := i2c_abort r0); [ | | auto].
  { wp_step. destruct h.
    - wp_pure.
      destruct (get_at_some l4 (2 + tW)) as [b Hb]; [lia | ].
      rewrite Hb. wp_pure.
      destruct (Z.eqb b 1); cbn [negb].
      + wp_pure. reflexivity.
      + wp_step. unfold i2c_abort. st_simpl. split; [exact Hok2 | ].
        split; [destruct HJ as [HJ | [_ HJ]]; [exact HJ | discriminate] | ].
        subst io2. cbn [log]. eauto.
    - st_simpl. f_equal. f_equal. lia. }
  intros a' s' ->. wp_pure.
  destruct (sub_some_len r rpos (rpos + tR)) as (dst & -> & Hdst); [lia | lia | ].
  wp_pure.
  destruct (ssub_some (mkSlice l4 (spare p3))
              (2 + tW + (if h then 1 else 0))
              (2 + tW + (if h then 1 else 0) + tR)) as (src & -> & Hsrc);
    [destruct h; lia | destruct h; lia | ].
  wp_pure. subst io2. st_simpl.
  repeat split; try assumption; try lia.
  rewrite <- Hr. unfold len in *.
  rewrite !length_app, copy_length, length_firstn, length_skipn. lia.
Qed.
End I2CProps.

(** ** The closure pack of I2C *)

Section I2CProps.
Context {D : Type} `{HIDDev D}.
Implicit Types s : st D I2C.vars.

Lemma pack_spec (r0 elems : list Z) s :
  i2c_core r0 s ->
  len elems <= 506 ->
  (I2C.v_hasRead (snd s) = true -> 1 <= I2C.v_toRead (snd s)) ->
  wp (I2C.pack elems) (fun _ s' => packed r0 elems s s') (i2c_abort r0) s.
Proof.
  intros Hcore He HK. unfold I2C.pack. wp_pure.
  pose proof (len_nonneg elems) as He0.
  eapply wp_mono with
    (Q := fun _ s' =>
       i2c_core r0 s' /\ same_loop_vars (snd s) (snd s') /\
       accounted s' = accounted s /\ delivered s' = delivered s /\
       (I2C.v_toRead (snd s) = 0 -> I2C.v_r (snd s') = I2C.v_r (snd s)) /\
       slen (I2C.v_p (snd s')) + len elems <= 509 /\
       ((I2C.v_toWrite (snd s') = I2C.v_toWrite (snd s) /\
         I2C.v_toRead (snd s') = I2C.v_toRead (snd s) /\
         I2C.v_hasRead (snd s') = I2C.v_hasRead (snd s) /\
         I2C.v_rpos (snd s') = I2C.v_rpos (snd s) /\
         I2C.v_p (snd s') = I2C.v_p (snd s))
        \/
        (I2C.v_toWrite (snd s') = 0 /\ I2C.v_toRead (snd s') = 0 /\
         I2C.v_hasRead (snd s') = false /\ slen (I2C.v_p (snd s')) = 0)))
    (R := i2c_abort r0); [ | | auto].
  { wp_step. unfold I2C.maxPacketLen.
    destruct (Z.geb_spec (slen (I2C.v_p (snd s)) + len elems) (512 - 2)) as [Hge | Hlt].
    - eapply wp_mono; [apply write_spec; [exact Hcore | lia | exact HK] | | auto].
      intros a s' (Hc' & Hs' & HtW' & HtR' & Hh' & Hrp' & Hrr' & Hcons' & Hsame).
      unfold accounted, delivered, ack_pending. rewrite HtW', HtR', Hh', Hs', Hrp', Hcons'.
      unfold ack_pending.
      split; [exact Hc' | ]. split; [exact Hsame | ].
      repeat split; try lia; try assumption.
    - split; [exact Hcore | ]. unfold same_loop_vars.
      repeat split; try lia. left. repeat split; reflexivity. }
  intros a [[d l] [p tW tR rpos h r cpos dd pos rlen mR snd_]]
    (Hc' & Hsame & Hacc & Hdel & Hrr & Hfit & Hcase).
  unfold i2c_core, ack_pending in Hc'. st_simpl.
  destruct Hc' as (Hok & Hlen & Hcap & HtW & HtR & Hrpos & Hrb & Hr & Hsum & HJ).
  wp_pure.
  eapply wp_mono with
    (Q := fun _ s' =>
       s' = (mkIO d l,
             I2C.mkVars (if slen p =? 0
                         then append (append p [0; 0]) [I2C.CmdI2CStream] else p)
                        tW tR rpos h r cpos dd pos rlen mR snd_))
    (R := i2c_abort r0); [ | | auto].
  { wp_step. destruct (slen p =? 0); [wp_pure | ]; reflexivity. }
  intros a' s' ->. wp_pure.
  set (p2 := if slen p =? 0 then _ else p).
  assert (Hp2 : slen p2 = (if slen p =? 0 then 3 else slen p) /\ scap p2 = 512).
  { subst p2. destruct (Z.eqb_spec (slen p) 0) as [Hz | Hnz]; [ | auto].
    rewrite !slen_append, Hz. change (len [0; 0]) with 2.
    change (len [I2C.CmdI2CStream]) with 1.
    assert (Hsp : len (spare p) = 512) by (unfold scap, slen in *; lia).
    split; [lia | ].
    rewrite scap_append.
    - rewrite scap_append; [exact Hcap | ]. change (len [0; 0]) with 2. lia.
    - unfold append, len in *. cbn [spare length]. rewrite length_skipn.
      cbn [length]. lia. }
  destruct Hp2 as [Hs2 Hc2].
  assert (Hfit2 : slen p2 + len elems <= 509).
  { rewrite Hs2. destruct (Z.eqb_spec (slen p) 0); lia. }
  unfold packed, i2c_core, same_loop_vars, accounted, delivered, ack_pending in *.
  st_simpl. rewrite !slen_append.
  rewrite scap_append by (unfold scap, slen in *; lia).
  repeat split; try assumption; try lia; try tauto.
  destruct Hcase as [(-> & -> & -> & -> & ->) | (-> & -> & -> & Hz)].
  - left. repeat split; try reflexivity. lia.
  - right. repeat split; try reflexivity. rewrite Hs2, Hz. reflexivity.
Qed.
End I2CProps.

(** ** The write loop of I2C *)

Lemma set_at_some (l : list Z) (i x : Z) :
  0 <= i < len l -> exists l', set_at l i x = Some l' /\ len l' = len l.
Proof.
  intros Hi. unfold set_at.
  destruct (Z.ltb_spec i 0); [lia | ].
  destruct (Z.leb_spec (len l) i); [lia | ]. cbn [orb].
  eexists. split; [reflexivity | ].
  unfold len in *. rewrite length_app. cbn [length].
  rewrite length_firstn, length_skipn. lia.
Qed.

Lemma len_app {A} (l1 l2 : list A) : len (l1 ++ l2) = len l1 + len l2.
Proof. unfold len. rewrite length_app. lia. Qed.

Section I2CProps.
Context {D : Type} `{HIDDev D}.
Implicit Types s : st D I2C.vars.

Lemma write_body_spec (addr : Z) (w r0 : list Z) s :
  write_inv w r0 s ->
  I2C.v_pos (snd s) < len w ->
  wp (I2C.write_body addr w (len w))
     (fun _ s' => write_inv w r0 s' /\
                  (Z.to_nat (len w - I2C.v_pos (snd s'))
                   < Z.to_nat (len w - I2C.v_pos (snd s)))%nat)
     (i2c_abort r0) s.
Proof.
  intros Hinv Hlt. unfold I2C.write_body.
  destruct s as [[d l] [p tW tR rpos h r cpos dd pos rlen mR snd_]].
  unfold write_inv in Hinv. st_simpl.
  destruct Hinv as (Hcore & -> & -> & -> & -> & Hfit & Hd & Hpos & Hacc).
  wp_pure. cbv zeta. unfold I2C.maxLen.
  set (dlen := if (pos =? 0) && (_ =? 63) then _ else _).
  assert (Hdlen : 1 <= dlen <= 63 /\ pos + dlen <= len w /\ (pos = 0 -> dlen <= 62)).
  { subst dlen. destruct (Z.gtb_spec (len w - pos) 63);
      destruct (Z.eqb_spec pos 0); cbn [andb];
      try match goal with |- context [?a =? 63] => destruct (Z.eqb_spec a 63) end; lia. }
  eapply wp_mono with
    (Q := fun _ s' =>
       exists dd', len dd' = 1 + (if pos =? 0 then 1 else 0) /\
         s' = (mkIO d l, I2C.mkVars p tW 0 0 false r0 cpos dd' pos rlen mR snd_))
    (R := i2c_abort r0); [ | | auto].
  { wp_step. destruct (Z.eqb_spec pos 0).
    - wp_pure. eexists. split; [ | reflexivity]. rewrite len_app, Hd. reflexivity.
    - exists dd. split; [lia | reflexivity]. }
  intros a s' (dd' & Hdd' & ->). wp_pure.
  destruct (sub_some_len w pos (pos + dlen)) as (data & -> & Hdata); [lia | lia | ].
  wp_pure.
  assert (Hpos' : (pos + dlen =? 0) = false) by (apply Z.eqb_neq; lia).
  rewrite Hpos'.
  set (dlen2 := len (dd' ++ data) - 1).
  assert (Hdlen2 : dlen2 = dlen + (if pos =? 0 then 1 else 0)).
  { subst dlen2. rewrite len_app. lia. }
  assert (Hdlen2' : 1 <= dlen2 <= 63).
  { rewrite Hdlen2. destruct (Z.eqb_spec pos 0); lia. }
  destruct (set_at_some (dd' ++ data) 0 (Z.lor I2C.CmdI2CWrite (byte dlen2)))
    as (d2 & -> & Hd2); [rewrite len_app; destruct (pos =? 0); lia | ].
  wp_pure.
  assert (Hd2' : len d2 = dlen2 + 1) by (subst dlen2; lia).
  eapply wp_mono; [apply pack_spec | | auto].
  - exact Hcore.
  - st_simpl. lia.
  - st_simpl. discriminate.
  - intros a' [[d1 l1] [p1 tW1 tR1 rpos1 h1 r1 cpos1 dd1 pos1 rlen1 mR1 snd1]].
    unfold packed, same_loop_vars, accounted, delivered, ack_pending. st_simpl.
    intros (Hcore1 & (-> & -> & -> & -> & ->) & Hacc1 & Hdel1 & Hr1 & Hcase).
    specialize (Hr1 eq_refl). subst r1.
    wp_pure.
    destruct (sub_some_len d2 0 1) as (d3 & -> & Hd3); [lia | lia | ].
    wp_pure.
    unfold write_inv, accounted, ack_pending in *. st_simpl.
    unfold i2c_core, ack_pending in *. st_simpl.
    destruct Hcore1 as (Hok & Hlen & Hcap & HtW & HtR & Hrpos & Hrb & Hr & Hsum & HJ).
    assert (Hpz : (if pos + dlen =? 0 then 0 else 1) = 1) by (rewrite Hpos'; reflexivity).
    destruct Hcase as [(-> & -> & -> & -> & Hs1) | (-> & -> & -> & Hs1)].
    + assert (Hpne : (slen p =? 0) = false) by (apply Z.eqb_neq; lia).
      rewrite Hpne in Hs1.
      repeat split; try assumption; try lia; try (left; reflexivity).
      rewrite Hpz. destruct (Z.eqb_spec pos 0); lia.
    + repeat split; try assumption; try lia; try (left; reflexivity).
      rewrite Hpz. destruct (Z.eqb_spec pos 0); lia.
  - intros x s' Hx. exact Hx.
Qed.
End I2CProps.

(** ** The read loop of I2C *)

Section I2CProps.
Context {D : Type} `{HIDDev D}.
Implicit Types s : st D I2C.vars.

Lemma read_body_spec (W : Z) (r0 : list Z) s :
  read_inv W r0 s ->
  0 < I2C.v_rlen (snd s) ->
  wp I2C.read_body
     (fun _ s' => read_inv W r0 s' /\
                  (Z.to_nat (I2C.v_rlen (snd s')) < Z.to_nat (I2C.v_rlen (snd s)))%nat)
     (i2c_abort r0) s.
Proof.
  intros Hinv Hlt. unfold I2C.read_body.
  destruct s as [[d l] [p tW tR rpos h r cpos dd pos rlen mR snd_]].
  unfold read_inv, accounted, delivered, ack_done, ack_pending in Hinv. st_simpl.
  destruct Hinv as (Hcore & Hrlen & -> & Hsum9 & Hphase & Hd12 & Hd63 & Hacc & Hdel).
  specialize (Hd63 Hlt).
  pose proof Hcore as Hcore0.
  unfold i2c_core, ack_pending in Hcore. st_simpl.
  destruct Hcore as (Hok & Hlen & Hcap & HtW & HtR & Hrpos & Hrb & Hr & Hsum & HJ).
  wp_pure. cbv zeta. unfold I2C.maxLen, I2C.maxPacketLen.
  set (dlen0 := if rlen >? 63 then 63 else rlen).
  assert (Hdlen0 : 1 <= dlen0 <= 63 /\ dlen0 <= rlen /\ (63 < rlen -> dlen0 = 63)
                   /\ (rlen <= 63 -> dlen0 = rlen)).
  { subst dlen0. destruct (Z.gtb_spec rlen 63); lia. }
  destruct (Z.geb_spec (2 + tW + tR + dlen0) 512) as [Hsend | Hfit].
  - (* the frame is full: the requests packed so far are sent *)
    set (dlen := dlen0 - (2 + tW + tR + dlen0 - 512)).
    assert (Hdlen : dlen = 510 - tW - tR) by (subst dlen; lia).
    assert (Hfirst : h = true -> 1 <= tR - 1 + dlen).
    { intros ->. destruct Hphase as [(_ & _ & -> & Hw & _) | (_ & Hk)];
        [lia | specialize (Hk eq_refl); lia]. }
    set (tR2 := tR - (if h then 1 else 0) + dlen).
    assert (HtR2 : 1 <= tR2) by (subst tR2; destruct h; [specialize (Hfirst eq_refl) | ]; lia).
    wp_step.
    eapply wp_mono with
      (Q := fun _ s' =>
         s' = (mkIO d l, I2C.mkVars p tW (tR - (if h then 1 else 0)) rpos h r cpos dd
                           pos rlen mR true))
      (R := i2c_abort r0); [ | | auto].
    { wp_pure. wp_step. destruct h; wp_pure; f_equal; f_equal; lia. }
    intros a s' ->. wp_pure.
    eapply wp_mono with
      (Q := fun _ s' => exists dd', len dd' <= len dd + 1 /\
         s' = (mkIO d l, I2C.mkVars p tW (tR - (if h then 1 else 0)) rpos h r cpos dd'
                           pos rlen mR true))
      (R := i2c_abort r0); [ | | auto].
    { destruct (mR =? 63); [ | destruct (dlen >? 1)]; wp_pure;
        eexists; (split; [ | reflexivity]); rewrite ?len_app; change (len [_]) with 1; lia. }
    intros a' s' (dd' & Hdd' & ->). wp_pure.
    eapply wp_mono with
      (Q := fun _ s' =>
         s' = (mkIO d l, I2C.mkVars p tW (tR - (if h then 1 else 0)) rpos h r cpos dd'
                           pos rlen 63 true))
      (R := i2c_abort r0); [ | | auto].
    { wp_step. destruct (Z.eqb_spec mR 64).
      - wp_pure. reflexivity.
      - destruct Hphase as [(-> & _) | (-> & _)]; [lia | reflexivity]. }
    intros a'' s' ->. wp_pure. fold tR2. wp_step. wp_pure.
    set (smid := (mkIO d l, I2C.mkVars p tW tR2 rpos h r cpos dd' pos rlen 63 false)).
    assert (Hmid : i2c_core r0 smid).
    { unfold i2c_core, ack_pending. subst smid. st_simpl.
      repeat split; try assumption; try lia; subst tR2; destruct h; lia. }
    assert (HKmid : I2C.v_hasRead (snd smid) = true -> 1 <= I2C.v_toRead (snd smid)).
    { subst smid. st_simpl. lia. }
    eapply wp_mono; [apply pack_spec; [exact Hmid | lia | exact HKmid] | | auto].
    intros b s1 (Hcore1 & Hsame1 & Hacc1 & Hdel1 & _ & Hcase1).
    wp_pure.
    assert (Hp1 : 1 <= slen (I2C.v_p (snd s1))).
    { pose proof (len_nonneg dd'). unfold slen in *. pose proof (len_nonneg (live p)).
      subst smid. st_simpl.
      destruct Hcase1 as [(_ & _ & _ & _ & ->) | (_ & _ & _ & ->)]; [ | lia].
      destruct (Z.eqb_spec (len (live p)) 0); lia. }
    assert (HK1 : I2C.v_hasRead (snd s1) = true -> 1 <= I2C.v_toRead (snd s1)).
    { subst smid. st_simpl.
      destruct Hcase1 as [(_ & -> & -> & _) | (_ & _ & -> & _)]; [lia | discriminate]. }
    eapply wp_mono; [apply write_spec; [exact Hcore1 | exact Hp1 | exact HK1] | | auto].
    intros b' [[d2 l2] [p2 tW2 tR2' rpos2 h2 r2 cpos2 dd2 pos2 rlen2 mR2 snd2]].
    unfold flushed, same_loop_vars. st_simpl.
    intros (Hcore2 & Hs2 & -> & -> & -> & Hrp2 & _ & Hcons2 & Hsame2).
    wp_pure.
    unfold read_inv, accounted, delivered, ack_done, ack_pending in *.
    unfold same_loop_vars in Hsame1. subst smid. st_simpl.
    destruct Hsame1 as (Hd1 & Hpos1 & Hrlen1 & HmR1 & Hsnd1).
    destruct Hsame2 as (-> & -> & -> & -> & ->).
    rewrite HmR1, Hsnd1.
    split; [ | lia]. split.
    { unfold i2c_core, ack_pending in *. st_simpl. exact Hcore2. }
    change (len []) with 0.
    repeat split; try lia.
    + rewrite Hcons2. subst tR2. destruct h; lia.
    + rewrite Hrp2. subst tR2. destruct h; lia.
  - (* the request fits *)
    wp_step. wp_pure.
    eapply wp_mono with
      (Q := fun _ s' => exists dd', len dd' <= len dd + 1 /\
         s' = (mkIO d l, I2C.mkVars p tW tR rpos h r cpos dd' pos rlen mR false))
      (R := i2c_abort r0); [ | | auto].
    { destruct (mR =? 63); [ | destruct (dlen0 >? 1)]; wp_pure;
        eexists; (split; [ | reflexivity]); rewrite ?len_app; change (len [_]) with 1; lia. }
    intros a s' (dd' & Hdd' & ->). wp_pure.
    eapply wp_mono with
      (Q := fun _ s' =>
         s' = (mkIO d l, I2C.mkVars p tW tR rpos h r cpos dd' pos rlen 63 false))
      (R := i2c_abort r0); [ | | auto].
    { wp_step. destruct (Z.eqb_spec mR 64).
      - wp_pure. reflexivity.
      - destruct Hphase as [(-> & _) | (-> & _)]; [lia | reflexivity]. }
    intros a' s' ->. wp_pure. wp_step. wp_pure.
    unfold read_inv, accounted, delivered, ack_done, ack_pending, i2c_core. st_simpl.
    unfold ack_pending. st_simpl.
    repeat split; try assumption; try lia; destruct h; lia.
Qed.
End I2CProps.

(** ** The write phase of I2C *)

Section I2CProps.
Context {D : Type} `{HIDDev D}.
Implicit Types s : st D I2C.vars.

Lemma init_core (r0 : list Z) (d : D) : i2c_core r0 (mkIO d [], I2C.init r0).
Proof.
  unfold i2c_core, ack_pending, I2C.init. st_simpl.
  pose proof (len_nonneg r0).
  repeat split; try lia; try (vm_compute; congruence);
    try constructor; try (left; reflexivity).
Qed.

(** The write phase: [START] and the WRITE primitives for [w]. *)
Lemma write_phase_spec (addr : Z) (w r0 : list Z) s :
  i2c_core r0 s ->
  slen (I2C.v_p (snd s)) = 0 -> accounted s = 0 ->
  I2C.v_toWrite (snd s) = 0 -> I2C.v_toRead (snd s) = 0 ->
  I2C.v_hasRead (snd s) = false -> I2C.v_rpos (snd s) = 0 -> I2C.v_r (snd s) = r0 ->
  wp (when (negb (len w =? 0))
        (I2C.pack [I2C.CmdI2CStart] ;;
         update (I2C.set_pos 0) ;;
         update (I2C.set_d [I2C.CmdI2CWrite]) ;;
         while (length w) (fun s => I2C.v_pos (snd s) <? len w)
               (I2C.write_body addr w (len w))))
     (fun _ s' =>
        i2c_core r0 s' /\ I2C.v_hasRead (snd s') = false /\
        I2C.v_toRead (snd s') = 0 /\ I2C.v_rpos (snd s') = 0 /\
        I2C.v_r (snd s') = r0 /\ I2C.v_toWrite (snd s') <= 505 /\
        accounted s' = (if len w =? 0 then 0 else len w + 1))
     (i2c_abort r0) s.
Proof.
  intros Hcore Hp Hacc HtW HtR Hh Hrpos Hr. wp_step.
  destruct (Z.eqb_spec (len w) 0) as [Hw0 | Hw]; cbn [negb].
  { split; [exact Hcore | ]. repeat split; try assumption; lia. }
  wp_pure.
  eapply wp_mono; [apply pack_spec | | auto].
  - exact Hcore.
  - change (len [I2C.CmdI2CStart]) with 1. lia.
  - rewrite Hh. discriminate.
  - intros a [[d1 l1] [p1 tW1 tR1 rpos1 h1 r1 cpos1 dd1 pos1 rlen1 mR1 snd1]].
    unfold packed, same_loop_vars, accounted, delivered, ack_pending in *.
    rewrite Hp, HtW, HtR, Hh, Hrpos, Hr in *. st_simpl.
    change (len [I2C.CmdI2CStart]) with 1. cbn [Z.eqb].
    intros (Hcore1 & _ & Hacc1 & Hdel1 & Hr1 & Hcase).
    specialize (Hr1 eq_refl). subst r1.
    assert (Hst : tW1 = 0 /\ tR1 = 0 /\ h1 = false /\ slen p1 = 4).
    { destruct Hcase as [(-> & -> & -> & _ & ->) | (-> & -> & -> & ->)]; repeat split; lia. }
    destruct Hst as (-> & -> & -> & Hs1).
    assert (rpos1 = 0) by lia. subst rpos1.
    wp_pure.
    eapply wp_mono;
      [ apply wp_while with
          (I := write_inv w r0)
          (m := fun s' => Z.to_nat (len w - I2C.v_pos (snd s')))
          (R := i2c_abort r0) | | auto].
    + intros s' _ Hc. zbool. lia.
    + intros s' Hinv Hc. zbool. now apply write_body_spec.
    + unfold write_inv, accounted, ack_pending. st_simpl.
      pose proof (len_nonneg w).
      split; [unfold i2c_core, ack_pending in *; st_simpl; exact Hcore1 | ].
      repeat split; try assumption; try lia.
      cbn [Z.eqb]. lia.
    + st_simpl. unfold len. lia.
    + intros a' s' [Hinv Hc]. zbool. unfold write_inv in Hinv.
      destruct Hinv as (Hc' & Hh' & HtR' & Hrp' & Hr' & Hfit' & Hd' & Hpos' & Hacc').
      assert (Hpw : I2C.v_pos (snd s') = len w) by lia.
      rewrite Hpw in Hacc'.
      destruct (Z.eqb_spec (len w) 0); [lia | ].
      split; [exact Hc' | ]. repeat split; try assumption.
      unfold i2c_core in Hc'. lia.
  - intros x s' Hx. exact Hx.
Qed.
End I2CProps.

(** ** The whole of I2C *)

Section I2CProps.
Context {D : Type} `{HIDDev D}.
Implicit Types s : st D I2C.vars.

(** The read phase: the read request, the READ primitives and the
    final one-byte READ. *)
Lemma read_phase_spec (addr W : Z) (r0 : list Z) s :
  i2c_core r0 s ->
  I2C.v_hasRead (snd s) = false -> I2C.v_toRead (snd s) = 0 ->
  I2C.v_rpos (snd s) = 0 -> I2C.v_r (snd s) = r0 ->
  I2C.v_toWrite (snd s) <= 505 -> accounted s = W ->
  wp (when (negb (len r0 =? 0))
        (update (I2C.set_d [I2C.CmdI2CStart; Z.lor I2C.CmdI2CWrite 1;
                            Z.lor (byte (Z.shiftl addr 1 mod 65536)) 1]) ;;
         update (I2C.set_hasRead true) ;;
         update (I2C.set_maxRLen 64) ;;
         update (I2C.set_send false) ;;
         update (I2C.set_rlen (len r0)) ;;
         while (length r0) (fun s => I2C.v_rlen (snd s) >? 0) I2C.read_body ;;
         hasRead <- local I2C.v_hasRead ;;
         when (negb hasRead)
           (toRead <- local I2C.v_toRead ;;
            update (I2C.set_toRead (toRead + 1))) ;;
         d <- local I2C.v_d ;;
         let d := d ++ [I2C.CmdI2CRead] in
         update (I2C.set_d d) ;;
         I2C.pack d))
     (fun _ s' =>
        i2c_core r0 s' /\
        (I2C.v_hasRead (snd s') = true -> 1 <= I2C.v_toRead (snd s')) /\
        accounted s' = W + (if len r0 =? 0 then 0 else 1) + len r0)
     (i2c_abort r0) s.
Proof.
  intros Hcore Hh HtR Hrpos Hr HtW Hacc. wp_step.
  destruct (Z.eqb_spec (len r0) 0) as [Hr0 | Hr0]; cbn [negb].
  { split; [exact Hcore | ]. split; [rewrite Hh; discriminate | lia]. }
  destruct s as [[d l] [p tW tR rpos h r cpos dd pos rlen mR snd_]].
  st_simpl. subst h tR rpos r.
  unfold accounted, ack_pending in Hacc. st_simpl.
  pose proof Hcore as Hcore0.
  unfold i2c_core, ack_pending in Hcore. st_simpl.
  destruct Hcore as (Hok & Hlen & Hcap & HtW0 & _ & _ & _ & _ & _ & _).
  pose proof (len_nonneg r0) as HR.
  wp_pure.
  eapply wp_mono;
    [ apply wp_while with
        (I := read_inv W r0)
        (m := fun s' => Z.to_nat (I2C.v_rlen (snd s')))
        (R := i2c_abort r0) | | auto].
  - intros s' _ Hc. zbool. lia.
  - intros s' Hinv Hc. zbool. now apply read_body_spec.
  - unfold read_inv, accounted, delivered, ack_done, ack_pending. st_simpl.
    split.
    { unfold i2c_core, ack_pending. st_simpl.
      repeat split; try assumption; try lia. left. reflexivity. }
    change (len [I2C.CmdI2CStart; _; _]) with 3.
    repeat split; try lia.
  - st_simpl. unfold len. lia.
  - intros a [[d1 l1] [p1 tW1 tR1 rpos1 h1 r1 cpos1 dd1 pos1 rlen1 mR1 snd1]] [Hinv Hc].
    zbool. unfold read_inv, accounted, delivered, ack_done, ack_pending in Hinv.
    st_simpl.
    destruct Hinv as (Hcore1 & Hrlen1 & -> & Hsum9 & Hphase & Hd12 & _ & Hacc1 & Hdel1).
    assert (rlen1 = 0) by lia. subst rlen1.
    assert (HK1 : h1 = true -> 1 <= tR1).
    { destruct Hphase as [(_ & _ & _ & _ & _ & Hx) | (_ & Hx)]; [lia | exact Hx]. }
    pose proof Hcore1 as Hcore1'.
    unfold i2c_core, ack_pending in Hcore1. st_simpl.
    destruct Hcore1 as (Hok1 & Hlen1 & Hcap1 & HtW1 & HtR1 & Hrpos1 & Hrb1 & Hr1 & Hsum1 & HJ1).
    wp_pure.
    set (tR2 := tR1 + (if h1 then 0 else 1)).
    eapply wp_mono with
      (Q := fun _ s' =>
         s' = (mkIO d1 l1, I2C.mkVars p1 tW1 tR2 rpos1 h1 r1 cpos1 dd1 pos1 0 mR1 false))
      (R := i2c_abort r0); [ | | auto].
    { wp_step. subst tR2. destruct h1; cbn [negb]; [ | wp_pure]; f_equal; f_equal; lia. }
    intros a' s' ->. wp_pure. cbv zeta. wp_pure.
    match goal with |- wp _ _ _ ?s0 => set (s2 := s0) end.
    assert (Hcore2 : i2c_core r0 s2).
    { unfold i2c_core, ack_pending. subst s2 tR2. st_simpl.
      repeat split; try assumption; try lia; destruct h1; lia. }
    eapply wp_mono; [apply pack_spec | | auto].
    + exact Hcore2.
    + subst s2. st_simpl. rewrite len_app. change (len [I2C.CmdI2CRead]) with 1. lia.
    + subst s2 tR2. st_simpl. intros ->. specialize (HK1 eq_refl). lia.
    + intros b s3 (Hcore3 & _ & Hacc3 & _ & _ & Hcase).
      split; [exact Hcore3 | ]. split.
      * subst s2 tR2. st_simpl.
        destruct Hcase as [(_ & -> & -> & _) | (_ & _ & -> & _)]; [ | discriminate].
        intros ->. specialize (HK1 eq_refl). lia.
      * rewrite Hacc3. unfold accounted, ack_pending. subst s2 tR2. st_simpl.
        destruct h1; lia.
    + intros x s' Hx. exact Hx.
Qed.

(** The whole call: every frame sent is well formed; the call returns;
    when it returns nil the response bytes read back are those of
    [response_bytes]; when it returns a NAK the caller's buffer is
    untouched. *)
Lemma I2C_spec (addr : Z) (w r0 : list Z) (d : D) :
  wp (I2C.I2C addr w)
     (fun _ s' =>
        Forall frame_ok (written (log (fst s'))) /\
        consumed (log (fst s')) = response_bytes w r0)
     (i2c_abort r0) (mkIO d [], I2C.init r0).
Proof.
  unfold I2C.I2C. cbv zeta. wp_step.
  eapply wp_mono; [apply (write_phase_spec addr w r0) | | auto];
    try reflexivity; [apply init_core | ].
  intros a [[d1 l1] [p1 tW1 tR1 rpos1 h1 r1 cpos1 dd1 pos1 rlen1 mR1 snd1]].
  st_simpl. intros (Hcore1 & -> & -> & -> & -> & HtW1 & Hacc1).
  wp_pure.
  eapply wp_mono;
    [apply (read_phase_spec addr (if len w =? 0 then 0 else len w + 1) r0) | | auto];
    try reflexivity; try assumption.
  intros a' s2 (Hcore2 & HK2 & Hacc2). wp_pure.
  eapply wp_mono; [apply pack_spec; [exact Hcore2 | | exact HK2] | | auto].
  { change (len [I2C.CmdI2CStop]) with 1. lia. }
  intros b s3 (Hcore3 & _ & Hacc3 & _ & _ & Hcase).
  eapply wp_mono; [apply write_spec; [exact Hcore3 | | ] | | auto].
  - change (len [I2C.CmdI2CStop]) with 1 in Hcase.
    pose proof (len_nonneg (live (I2C.v_p (snd s2)))). unfold slen in *.
    destruct Hcase as [(_ & _ & _ & _ & ->) | (_ & _ & _ & ->)]; [ | lia].
    destruct (Z.eqb_spec (len (live (I2C.v_p (snd s2)))) 0); lia.
  - destruct Hcase as [(_ & -> & -> & _) | (_ & _ & -> & _)]; [exact HK2 | discriminate].
  - intros b' s4 (Hcore4 & _ & HtW4 & HtR4 & Hh4 & _ & _ & Hcons4 & _).
    split; [unfold i2c_core in Hcore4; tauto | ].
    rewrite Hcons4. unfold accounted, response_bytes in *. lia.
Qed.
End I2CProps.

(** ** Stepping through a loop *)

Lemma wp_while_step {S : Type} (fuel : nat) (cond : S -> bool) (body : M S unit)
      (Q : unit -> S -> Prop) (R : abort -> S -> Prop) (s : S) :
  cond s = true ->
  wp body (fun _ s' => wp (while fuel cond body) Q R s') R s ->
  wp (while (Datatypes.S fuel) cond body) Q R s.
Proof.
  intros Hc Hb. unfold wp at 1. cbn [while]. rewrite Hc.
  change (wp (bind body (fun _ => while fuel cond body)) Q R s).
  now apply wp_bind.
Qed.

Lemma wp_while_done {S : Type} (fuel : nat) (cond : S -> bool) (body : M S unit)
      (Q : unit -> S -> Prop) (R : abort -> S -> Prop) (s : S) :
  cond s = false -> Q tt s -> wp (while fuel cond body) Q R s.
Proof.
  intros Hc HQ. unfold wp. destruct fuel; cbn [while]; rewrite Hc; exact HQ.
Qed.

Lemma gtb_true (a b : Z) : b < a -> (a >? b) = true.
Proof. intros. rewrite Z.gtb_ltb. now apply Z.ltb_lt. Qed.
Lemma gtb_false (a b : Z) : a <= b -> (a >? b) = false.
Proof. intros. rewrite Z.gtb_ltb. now apply Z.ltb_ge. Qed.
Lemma geb_true (a b : Z) : b <= a -> (a >=? b) = true.
Proof. intros. rewrite Z.geb_leb. now apply Z.leb_le. Qed.
Lemma geb_false (a b : Z) : a < b -> (a >=? b) = false.
Proof. intros. rewrite Z.geb_leb. now apply Z.leb_gt. Qed.
Lemma eqb_false (a b : Z) : a <> b -> (a =? b) = false.
Proof. intros. now apply Z.eqb_neq. Qed.
Lemma ltb_true (a b : Z) : a < b -> (a <? b) = true.
Proof. intros. now apply Z.ltb_lt. Qed.
Lemma ltb_false (a b : Z) : b <= a -> (a <? b) = false.
Proof. intros. now apply Z.ltb_ge. Qed.
Lemma leb_true (a b : Z) : a <= b -> (a <=? b) = true.
Proof. intros. now apply Z.leb_le. Qed.
Lemma leb_false (a b : Z) : b < a -> (a <=? b) = false.
Proof. intros. now apply Z.leb_gt. Qed.

(** Decide the comparisons of the goal that [lia] can decide. *)
Ltac zdecide :=
  repeat match goal with
  | |- context [?a >? ?b] =>
      first [rewrite (gtb_true a b) by lia | rewrite (gtb_false a b) by lia]
  | |- context [?a >=? ?b] =>
      first [rewrite (geb_true a b) by lia | rewrite (geb_false a b) by lia]
  | |- context [?a <? ?b] =>
      first [rewrite (ltb_true a b) by lia | rewrite (ltb_false a b) by lia]
  | |- context [?a <=? ?b] =>
      first [rewrite (leb_true a b) by lia | rewrite (leb_false a b) by lia]
  | |- context [?a =? ?b] =>
      first [rewrite (Z.eqb_refl a) | rewrite (eqb_false a b) by lia]
  end; cbv iota.

Lemma slen_make0 (c : nat) : slen (make 0 c) = 0.
Proof. reflexivity. Qed.

Section SPIPackets.
Context {D : Type} `{HIDDev D}.
Implicit Types s : st D SPI.vars.

(** The acknowledgements read back by [write] add no frame to those sent. *)
Lemma drain_written (F : list (list Z)) (fuel : nat) s :
  written (log (fst s)) = F ->
  wp (while fuel (fun s => 0 <? SPI.v_sent (snd s)) SPI.confirm)
     (fun _ s' => written (log (fst s')) = F)
     (fun _ s' => written (log (fst s')) = F) s.
Proof.
  intros HF.
  eapply wp_mono;
    [ apply wp_while_keeps with
        (P := fun s' => written (log (fst s')) = F)
        (R := fun (_ : abort) s' => written (log (fst s')) = F) | | auto].
  - auto.
  - intros [[d l] v] Hs _. st_simpl. unfold SPI.confirm. wp_pure.
    destruct (reslice (SPI.v_p v) 5) as [p5 | ]; [ | apply wp_must; exact Hs].
    wp_pure. wp_read d1 data err Hrd.
    assert (HF' : written (l ++ [EvRead (length (live p5)) data]) = F).
    { rewrite written_app, Hs. cbn. apply app_nil_r. }
    destruct err; [exact HF' | ]. wp_pure.
    destruct (get_at _ 2); [ | apply wp_must; exact HF']. wp_pure.
    destruct (get_at _ 3); [ | apply wp_must; exact HF']. wp_pure.
    destruct (negb (z =? 196) && negb (z0 =? 1)); [wp_step | wp_pure]; exact HF'.
  - exact HF.
  - now intros a s' [Hs _].
Qed.
End SPIPackets.

(** ** SPI: two packets *)

Lemma firstn_2_cons {A} (a b : A) (l : list A) : firstn 2 (a :: b :: l) = [a; b].
Proof. reflexivity. Qed.

Lemma skipn_1_cons {A} (a : A) (l : list A) : skipn 1 (a :: l) = l.
Proof. reflexivity. Qed.

Section SPIPackets.
Context {D : Type} `{HIDDev D}.
Implicit Types s : st D SPI.vars.

Lemma SPI_two_packets (w : list Z) (d : D) :
  error_free (D := D) ->
  504 < len w < 1011 ->
  written (log (fst (snd (run (SPI.SPI w []) d SPI.init)))) = spi_two_packets w.
Proof.
  intros [Hew _] Hw. unfold run.
  apply (wp_run _ (fun s => written (log (fst s)) = spi_two_packets w)).
  unfold SPI.SPI. change (negb (len [] =? 0)) with false. cbv iota zeta.
  destruct (length w) as [| [| fuel]] eqn:Hlw; [unfold len in Hw; lia .. | ].
  assert (Hlw' : Z.of_nat (length w) = len w) by reflexivity.
  wp_step. unfold SPI.init.
  (* first iteration: the operation header and 504 bytes, sent at once *)
  apply wp_while_step; [st_simpl; apply Z.ltb_lt; lia | ].
  unfold SPI.body at 1. wp_pure. wp_step. cbn [Z.eqb]. wp_pure.
  change SPI.maxOpLen with 31750. change SPI.maxDataLen with 509.
  rewrite slen_append, slen_make0. change (len [_; _; _; _; _]) with 5.
  rewrite Z.sub_0_r. zdecide.
  change (0 + (509 - (0 + 5))) with 504.
  rewrite sub_some by lia. change (Z.to_nat (504 - 0)) with 504%nat.
  change (Z.to_nat 0) with 0%nat. cbn [skipn]. wp_pure.
  set (hdr := [0; 0; SPI.CmdSPIWrite; Z.land (byte (len w)) 255;
               Z.land (byte (Z.shiftr (len w) 8)) 255]).
  assert (Hf504 : len (firstn 504 w) = 504).
  { unfold len in *. rewrite length_firstn. lia. }
  rewrite !slen_append, slen_make0, Hf504. change (len hdr) with 5.
  zdecide. wp_step.
  unfold SPI.write at 1. wp_pure.
  rewrite !slen_append, slen_make0, Hf504. change (len hdr) with 5.
  zdecide. change (0 + 5 + 504 - 2) with 507.
  change (byte (Z.land 507 255)) with 0xFB.
  change (byte (Z.land (Z.shiftr 507 8) 255)) with 0x01.
  subst hdr. cbn [make repeat app live spare append].
  rewrite set_at_0 by (unfold len in *; cbn [length]; lia). wp_pure.
  cbn [skipn]. rewrite set_at_1 by (unfold len in *; cbn [length]; lia). wp_pure.
  cbn [skipn].
  wp_write d1 err Hw1.
  pose proof (Hew d (251 :: 1 :: SPI.CmdSPIWrite :: Z.land (byte (len w)) 255
                       :: Z.land (byte (Z.shiftr (len w) 8)) 255 :: firstn 504 w)) as He1.
  rewrite Hw1 in He1. cbn [snd] in He1. subst err.
  wp_pure. wp_step. wp_pure.
  match goal with |- wp (must (reslice ?P 2)) _ _ _ =>
    destruct (reslice_some P 2) as (p2 & -> & Hs2 & _ & Hl2);
      [unfold scap, len; cbn [live length]; lia | ]
  end.
  change (Z.to_nat 2) with 2%nat in Hl2. cbn [live app] in Hl2.
  rewrite firstn_2_cons in Hl2.
  wp_pure. wp_step. wp_pure. cbn [app].
  set (F1 := 251 :: 1 :: _) in *.
  (* second iteration: the rest of the buffer, left in the frame buffer *)
  apply wp_while_step; [st_simpl; apply Z.ltb_lt; lia | ].
  unfold SPI.body at 1. wp_pure. wp_step. cbn [Z.eqb]. wp_pure.
  change SPI.maxOpLen with 31750. change SPI.maxDataLen with 509.
  rewrite Hs2. zdecide.
  rewrite sub_some by lia.
  replace (Z.to_nat (504 + (len w - 504) - 504)) with (length w - 504)%nat
    by (unfold len; lia).
  change (Z.to_nat 504) with 504%nat.
  rewrite firstn_all2 by (rewrite length_skipn; lia).
  assert (Hs504 : len (skipn 504 w) = len w - 504).
  { unfold len. rewrite length_skipn. lia. }
  wp_pure. rewrite slen_append, Hs2, Hs504. zdecide. wp_step. wp_pure.
  wp_step.
  apply wp_while_done; [st_simpl; apply Z.ltb_ge; lia | ].
  (* the final flush: the second packet, then the acknowledgements *)
  unfold SPI.write. wp_pure.
  rewrite slen_append, Hs2, Hs504. zdecide.
  cbn [append live spare]. rewrite Hl2. cbn [app].
  rewrite set_at_0 by (unfold len in *; cbn [length]; lia). wp_pure.
  rewrite skipn_1_cons.
  rewrite set_at_1 by (unfold len in *; cbn [length]; lia). wp_pure.
  rewrite skipn_1_cons.
  replace (2 + (len w - 504) - 2) with (len w - 504) by lia.
  set (F2 := byte _ :: byte _ :: skipn 504 w).
  wp_write d2 err Hw2.
  pose proof (Hew d1 F2) as He2. rewrite Hw2 in He2. cbn [snd] in He2. subst err.
  wp_pure. wp_step. wp_pure.
  assert (HF : written (([] ++ [EvWrite F1]) ++ [EvWrite F2]) = spi_two_packets w)
    by reflexivity.
  eapply wp_mono; [apply (drain_written (spi_two_packets w)); exact HF | | auto].
  intros a [[d3 l3] v3] HF3. st_simpl. wp_pure.
  destruct (reslice (SPI.v_p v3) 2); [wp_pure | apply wp_must]; exact HF3.
Qed.
End SPIPackets.

(** ** SPI: one packet *)

Lemma wp_done {S A : Type} (c : M S A) (Q : A -> S -> Prop) (s : S) :
  wp c Q (fun _ _ => False) s ->
  exists a s', c s = (Done a, s') /\ Q a s'.
Proof.
  unfold wp. destruct (c s) as [[a | e | | ] s']; try contradiction. eauto.
Qed.

Section SPIPackets.
Context {D : Type} `{HIDDev D}.
Implicit Types s : st D SPI.vars.

Lemma SPI_504 (w : list Z) (d : D) :
  error_free (D := D) ->
  len w = 504 ->
  exists s', run (SPI.SPI w []) d SPI.init = (Done tt, s') /\
             log (fst s') = [EvWrite (spi_one_packet w)].
Proof.
  intros [Hew _] Hw. unfold run.
  assert (Hwp : wp (SPI.SPI w []) (fun _ s' => log (fst s') = [EvWrite (spi_one_packet w)])
                   (fun _ _ => False) (mkIO d [], SPI.init)).
  2:{ apply wp_done in Hwp. destruct Hwp as ([] & s' & E & Hl). eauto. }
  unfold SPI.SPI. change (negb (len [] =? 0)) with false. cbv iota zeta.
  destruct (length w) as [| fuel] eqn:Hlw; [unfold len in Hw; lia | ].
  wp_step. unfold SPI.init.
  apply wp_while_step; [st_simpl; apply Z.ltb_lt; lia | ].
  unfold SPI.body at 1. wp_pure. wp_step. cbn [Z.eqb]. wp_pure.
  change SPI.maxOpLen with 31750. change SPI.maxDataLen with 509.
  rewrite slen_append, slen_make0. change (len [_; _; _; _; _]) with 5.
  rewrite Z.sub_0_r. zdecide.
  rewrite (sub_some w 0 (0 + len w)) by lia.
  change (Z.to_nat 0) with 0%nat. cbn [skipn].
  rewrite firstn_all2 by (unfold len in *; lia). wp_pure.
  set (hdr := [0; 0; SPI.CmdSPIWrite; Z.land (byte (len w)) 255;
               Z.land (byte (Z.shiftr (len w) 8)) 255]).
  rewrite !slen_append, slen_make0. change (len hdr) with 5.
  zdecide. wp_step.
  unfold SPI.write at 1. wp_pure.
  rewrite !slen_append, slen_make0. change (len hdr) with 5.
  zdecide. replace (0 + 5 + len w - 2) with 507 by lia.
  change (byte (Z.land 507 255)) with 0xFB.
  change (byte (Z.land (Z.shiftr 507 8) 255)) with 0x01.
  subst hdr. cbn [make repeat app live spare append].
  rewrite set_at_0 by (unfold len in *; cbn [length]; lia). wp_pure.
  rewrite skipn_1_cons.
  rewrite set_at_1 by (unfold len in *; cbn [length]; lia). wp_pure.
  rewrite skipn_1_cons.
  wp_write d1 err Hw1.
  match type of Hw1 with dev_Write _ ?F = _ => pose proof (Hew d F) as He1 end.
  rewrite Hw1 in He1. cbn [snd] in He1. subst err.
  wp_pure. wp_step. wp_pure.
  match goal with |- wp (must (reslice ?P 2)) _ _ _ =>
    destruct (reslice_some P 2) as (p2 & -> & Hs2 & _ & _);
      [unfold scap, len; cbn [live length]; lia | ]
  end.
  wp_pure. wp_step. wp_pure. cbn [app].
  apply wp_while_done; [st_simpl; apply Z.ltb_ge; lia | ].
  unfold SPI.write. wp_pure. rewrite Hs2. zdecide. wp_pure.
  reflexivity.
Qed.
End SPIPackets.

(** ** I2C: acknowledgements *)

Section I2CFlush.
Context {D : Type} `{HIDDev D}.
Implicit Types s : st D I2C.vars.

(** One turn of the loop over the WRITE acknowledgements: a zero byte
    is a NAK, anything else counts as success. *)
Lemma confirm_write_run s (b : Z) :
  get_at (live (I2C.v_p (snd s))) (I2C.v_cpos (snd s)) = Some b ->
  I2C.confirm_write s =
    if b =? 0x00 then (Fail ErrI2CWrite, s)
    else (Done tt, (fst s, I2C.set_cpos (I2C.v_cpos (snd s) + 1)
                             (I2C.set_toWrite (I2C.v_toWrite (snd s) - 1) (snd s)))).
Proof.
  intros Hb. destruct s as [i v]. cbn [fst snd] in *.
  unfold I2C.confirm_write, bind, local, gets, update, modify. cbn [fst snd].
  rewrite Hb. cbv beta iota delta [must ret].
  destruct (b =? 0); reflexivity.
Qed.

(** The acknowledgement of the read request: anything but [0x01] is a
    NAK, and nothing is copied into the caller's buffer. *)
Lemma confirm_reads_nak s (b : Z) :
  0 < I2C.v_toRead (snd s) -> I2C.v_hasRead (snd s) = true ->
  get_at (live (I2C.v_p (snd s))) (I2C.v_cpos (snd s)) = Some b ->
  b <> 0x01 ->
  I2C.confirm_reads s = (Fail ErrI2CRead, (fst s, I2C.set_hasRead false (snd s))).
Proof.
  intros HtR Hh Hb Hne.
  destruct s as [i [p tW tR rpos h r cpos dd pos rlen mR snd_]]. st_simpl. subst h.
  unfold I2C.confirm_reads, bind, local, gets, update, modify, when. st_simpl.
  rewrite (gtb_true _ _ HtR). st_simpl. rewrite Hb.
  cbv beta iota delta [must ret].
  rewrite (eqb_false _ _ Hne). reflexivity.
Qed.

End I2CFlush.

(** ** GPIO: WritePin *)

Section GPIOWrite.
Context {D : Type} `{HIDDev D}.

(** C4, as the code has it. For a pin in [0,8) and a device that echoes
    the header, [WritePin] writes the 13-byte frame once and reads the
    13-byte echo once; then, with [b] the echoed byte at offset
    [5 + pin]: a request for an input fails exactly when bit 7 of [b] is
    set; a request for a low output fails exactly when bit 7 is clear; a
    request for a high output succeeds when bits 7 and 6 are both set and
    fails when both are clear. *)
Theorem WritePin_verifies (pin : Z) (output level : bool) (s : st D unit)
        (f : list Z) (d1 d2 : D) (data : list Z) :
  0 <= pin < 8 ->
  set_at GPIO.status_frame (5 + pin)
         (if output then (if level then 0xf8 else 0xf0) else 0xc0) = Some f ->
  dev_Write (Dev (fst s)) f = (d1, None) ->
  dev_Read d1 13 = (d2, data, None) ->
  let p := fill f data in
  nth 0 p 0 = 0x0b ->
  nth 2 p 0 = 0xcc ->
  let b := nth (Z.to_nat (5 + pin)) p 0 in
  let res := GPIO.WritePin pin output level s in
  log (fst (snd res)) = log (fst s) ++ [EvWrite f; EvRead 13 data] /\
  (output = false ->
     fst res = if Z.testbit b 7 then Fail (ErrGPIOInput b) else Done tt) /\
  (output = true -> level = false ->
     fst res = if Z.testbit b 7 then Done tt else Fail (ErrGPIOOutput b)) /\
  (output = true -> level = true ->
     (Z.testbit b 7 = true -> Z.testbit b 6 = true -> fst res = Done tt) /\
     (Z.testbit b 7 = false -> Z.testbit b 6 = false ->
        fst res = Fail (ErrGPIOOutput b))).
Proof.
  intros Hp Hf Hw Hr p H0 H2 b res.
  pose proof (set_at_length _ _ _ _ Hf) as Hlen.
  change (length GPIO.status_frame) with 13%nat in Hlen.
  assert (E : res =
    ((if output then
        if Z.land b (if level then Z.lor 0x80 0x40 else 0x80) =? 0
        then Fail (ErrGPIOOutput b) else Done tt
      else if negb (Z.land b 0x80 =? 0) then Fail (ErrGPIOInput b) else Done tt),
     (mkIO d2 (log (fst s) ++ [EvWrite f; EvRead 13 data]), snd s))).
  { subst res. unfold GPIO.WritePin.
    rewrite pin_offset by exact Hp.
    unfold bind at 1. rewrite Hf. cbv beta iota delta [must ret].
    rewrite (exchange_run f s d1 d2 data Hlen Hw Hr H0 H2).
    unfold bind. rewrite get_at_nth.
    2:{ unfold len. rewrite fill_length, Hlen. lia. }
    fold p. fold b. cbv beta iota delta [must ret fail].
    destruct output; [destruct level | ];
      match goal with |- context [if ?c then _ else _] => destruct c end;
      reflexivity. }
  rewrite E. clear E res. cbn [fst snd log].
  split; [reflexivity | ].
  split; [intros -> | split; [intros -> -> | intros -> ->]].
  - rewrite bit7. destruct (Z.testbit b 7); reflexivity.
  - rewrite bit7. destruct (Z.testbit b 7); reflexivity.
  - rewrite bits76. split; intros -> ->; reflexivity.
Qed.
End GPIOWrite.

(** [WritePin(0, false, false)] succeeds on an echo whose byte for
    pin 0 has bit 7 clear. *)
Lemma WritePin_input_accepts_clear_bit7 :
  let reply := [0x0b; 0x00; 0xcc; 0x08; 0x00; 0x00; 0; 0; 0; 0; 0; 0; 0] in
  fst (run (GPIO.WritePin 0 false false) [reply] tt) = Done tt /\
  Z.testbit (nth 5 reply 0) 7 = false.
Proof. vm_compute. split; reflexivity. Qed.

(** ** SetSPI *)

Lemma Acking_error_free : error_free (D := Acking).
Proof. split; intros; reflexivity. Qed.

Lemma Scripted_error_free : error_free (D := Scripted).
Proof. split; intros d n; [reflexivity | destruct d; reflexivity]. Qed.

Section SetSPIProps.
Context {D : Type} `{HIDDev D}.

Lemma config_frame_reslice (mode clock byteOrder : Z) :
  reslice (SPI.config_frame mode clock byteOrder) 6 =
    Some (mkSlice (firstn 6 (live (SPI.config_frame mode clock byteOrder)))
                  (skipn 6 (live (SPI.config_frame mode clock byteOrder)
                            ++ spare (SPI.config_frame mode clock byteOrder)))).
Proof.
  unfold SPI.config_frame.
  destruct (mode =? 0); [reflexivity | ].
  destruct (mode =? 1); [reflexivity | ].
  destruct (mode =? 2); [reflexivity | ].
  destruct (mode =? 3); reflexivity.
Qed.

(** C3, what the code does. When the configuration frame is written and
    the 6-byte reply is read without a transport error, [SetSPI] fails
    with [ErrInvalidResponse] exactly when byte 2 of the reply differs
    from [0xc0] and byte 3 differs from [0x01] as well; a reply that has
    only one of the two bytes right is accepted. *)
Theorem SetSPI_checks_reply (mode clock byteOrder : Z) (s : st D unit) d1 d2 data :
  dev_Write (Dev (fst s)) (live (SPI.config_frame mode clock byteOrder)) = (d1, None) ->
  dev_Read d1 6 = (d2, data, None) ->
  let p := fill (firstn 6 (live (SPI.config_frame mode clock byteOrder))) data in
  fst (SPI.SetSPI mode clock byteOrder s) =
    if negb (nth 2 p 0 =? 0xc0) && negb (nth 3 p 0 =? 0x01)
    then Fail ErrInvalidResponse else Done tt.
Proof.
  intros Hw Hr p. unfold SPI.SetSPI. cbv zeta.
  assert (H6 : length (firstn 6 (live (SPI.config_frame mode clock byteOrder))) = 6%nat).
  { unfold SPI.config_frame.
    destruct (mode =? 0); [reflexivity | ].
    destruct (mode =? 1); [reflexivity | ].
    destruct (mode =? 2); [reflexivity | ].
    destruct (mode =? 3); reflexivity. }
  assert (Hlen : len p = 6) by (unfold len, p; rewrite fill_length, H6; reflexivity).
  unfold bind at 1. unfold Dev_Write. rewrite Hw.
  unfold bind at 1. rewrite config_frame_reslice. cbv beta iota delta [must ret].
  unfold bind at 1. unfold Dev_Read. cbn [fst snd Dev log live]. rewrite H6, Hr.
  fold p. unfold bind. rewrite !get_at_nth by lia.
  change (Z.to_nat 2) with 2%nat. change (Z.to_nat 3) with 3%nat.
  cbv beta iota delta [must ret fail].
  destruct (negb (nth 2 p 0 =? 192) && negb (nth 3 p 0 =? 1)); reflexivity.
Qed.
End SetSPIProps.

(** ** Whole calls *)

Section Whole.
Context {D : Type} `{HIDDev D}.

(** What [I2C_spec] says of the pair a call evaluates to. *)
Lemma I2C_run (addr : Z) (w r0 : list Z) (d : D) :
  let res := run (I2C.I2C addr w) d (I2C.init r0) in
  returned (fst res) /\
  Forall frame_ok (written (log (fst (snd res)))) /\
  (fst res = Done tt -> consumed (log (fst (snd res))) = response_bytes w r0) /\
  (fst res = Fail ErrI2CWrite \/ fst res = Fail ErrI2CRead ->
     I2C.v_r (snd (snd res)) = r0 /\
     exists l n data, log (fst (snd res)) = l ++ [EvRead n data]) /\
  (error_free (D := D) -> forall c, fst res <> Fail (ErrTransport c)).
Proof.
  pose proof (I2C_spec addr w r0 d) as Hs.
  unfold wp in Hs. cbv zeta. unfold run.
  destruct (I2C.I2C addr w (mkIO d [], I2C.init r0)) as [[[] | e | | ] s'];
    cbn [fst snd]; unfold i2c_abort in Hs.
  - destruct Hs as [Hf Hc].
    split; [exact I | ]. split; [exact Hf | ]. split; [intros _; exact Hc | ].
    split; [intros [E | E]; discriminate | intros _ c E; discriminate].
  - destruct Hs as [Hf He].
    split; [exact I | ]. split; [exact Hf | ]. split; [discriminate | ].
    split.
    + intros [E | E]; injection E as ->; exact He.
    + intros Hef c E. injection E as ->. contradiction.
  - destruct Hs as [_ []].
  - destruct Hs as [_ []].
Qed.



Lemma confirm_reads_ack (s : st D I2C.vars) :
  0 < I2C.v_toRead (snd s) -> I2C.v_hasRead (snd s) = true ->
  get_at (live (I2C.v_p (snd s))) (I2C.v_cpos (snd s)) = Some 0x01 ->
  fst (I2C.confirm_reads s) <> Fail ErrI2CRead.
Proof.
  intros HtR Hh Hb.
  destruct s as [i [p tW tR rpos h r cpos dd pos rlen mR snd_]]. st_simpl. subst h.
  unfold I2C.confirm_reads, bind, local, gets, update, modify, when. st_simpl.
  rewrite (gtb_true _ _ HtR). st_simpl. rewrite Hb.
  cbv beta iota delta [must ret]. cbn [Z.eqb Pos.eqb negb]. st_simpl.
  destruct (sub r rpos (rpos + tR)); [ | discriminate]. st_simpl.
  destruct (ssub p (cpos + 1) (cpos + 1 + tR)); discriminate.
Qed.

(** C10. Every frame written by [UART.Write], by [SPI] and by [I2C], on
    any device and however the call ends, carries in its first two bytes
    the little-endian count of the bytes that follow them. *)
Theorem frames_length_prefixed (b w r : list Z) (addr : Z) (wi ri : list Z) (d : D) :
  Forall frame_ok (written (log (fst (snd (run (UART.Write b) d UART.Write_init))))) /\
  Forall frame_ok (written (log (fst (snd (run (SPI.SPI w r) d SPI.init))))) /\
  Forall frame_ok (written (log (fst (snd (run (I2C.I2C addr wi) d (I2C.init ri)))))).
Proof.
  split; [apply UART_Write_frames_ok | ]. split; [apply SPI_frames_ok | ].
  apply (I2C_run addr wi ri d).
Qed.

(** C2 fails on a buffer of 504 bytes. Over an error-free transport
    [SPI(w, nil)] with [len w = 504] returns nil after sending exactly one
    packet, the operation header followed by the 504 bytes, and performs
    no acknowledgement read at all: the packet is sent by [write(false)]
    inside the loop, which leaves [p] at two bytes, so the closing
    [write(true)] returns at [len(p) <= 2] before draining. *)
Theorem SPI_504_unacknowledged (w : list Z) (d : D) :
  error_free (D := D) ->
  len w = 504 ->
  exists s', run (SPI.SPI w []) d SPI.init = (Done tt, s') /\
             written (log (fst s')) = [spi_one_packet w] /\
             reads (log (fst s')) = [].
Proof.
  intros Hef Hw. destruct (SPI_504 w d Hef Hw) as (s' & E & Hl).
  exists s'. rewrite Hl. split; [exact E | split; reflexivity].
Qed.

(** C5, as the code has it. Over an error-free transport [SPI(w, nil)]
    sends exactly one packet when [len w = 504], the 5-byte operation
    header and the data, and exactly two packets when
    [504 < len w < 1011] (509 and 510 bytes alike): the first carries the
    operation header and 504 bytes, the second its length and the rest. *)
Theorem SPI_packet_boundary (w : list Z) (d : D) :
  error_free (D := D) ->
  504 <= len w < 1011 ->
  written (log (fst (snd (run (SPI.SPI w []) d SPI.init)))) =
    if len w =? 504 then [spi_one_packet w] else spi_two_packets w.
Proof.
  intros Hef Hw. destruct (Z.eqb_spec (len w) 504) as [E | E].
  - destruct (SPI_504 w d Hef E) as (s' & -> & Hl). cbn [fst snd]. rewrite Hl. reflexivity.
  - apply SPI_two_packets; [exact Hef | lia].
Qed.
End Whole.

(** ** Runs on sample inputs *)



(** [SPI_504_unacknowledged] on 504 zero bytes and the acknowledging
    device. *)
Lemma SPI_504_unacknowledged_witness :
  error_free (D := Acking) /\
  len (repeat 0 504) = 504 /\
  exists s', run (SPI.SPI (repeat 0 504) []) acking SPI.init = (Done tt, s') /\
             written (log (fst s')) = [spi_one_packet (repeat 0 504)] /\
             reads (log (fst s')) = [].
Proof.
  split; [split; intros; reflexivity | ]. split; [reflexivity | ].
  apply SPI_504_unacknowledged; [split; intros; reflexivity | reflexivity].
Defined.

(** [SetSPI_checks_reply] on [sample_reply], whose status byte is [0x00]:
    the configuration is reported as accepted. *)
Lemma SetSPI_checks_reply_witness :
  dev_Write (Dev (fst (mkIO [sample_reply] [], tt))) (live (SPI.config_frame 0 0 0))
    = ([sample_reply], None) /\
  dev_Read [sample_reply] 6 = ([], sample_reply, None) /\
  nth 3 sample_reply 0 <> 0x01 /\
  fst (SPI.SetSPI 0 0 0 (mkIO [sample_reply] [], tt)) = Done tt.
Proof.
  split; [reflexivity | ]. split; [reflexivity | ]. split; [discriminate | ].
  exact (SetSPI_checks_reply 0 0 0 (mkIO [sample_reply] [], tt)
           [sample_reply] [] sample_reply eq_refl eq_refl).
Defined.

(** [WritePin_verifies] for pin 0 asked to be an input, on an echo
    whose byte for the pin is [0x00]. *)
Lemma WritePin_verifies_witness :
  0 <= 0 < 8 /\
  set_at GPIO.status_frame (5 + 0) 0xc0 = Some (firstn 5 GPIO.status_frame ++ 0xc0 :: skipn 6 GPIO.status_frame) /\
  fst (GPIO.WritePin 0 false false (mkIO [sample_echo] [], tt)) = Done tt.
Proof.
  split; [lia | ]. split; [reflexivity | ].
  exact (proj1 (proj2 (WritePin_verifies 0 false false (mkIO [sample_echo] [], tt)
                        (firstn 5 GPIO.status_frame ++ 0xc0 :: skipn 6 GPIO.status_frame)
                        [sample_echo] [] sample_echo
                        (conj (Z.le_refl 0) eq_refl) eq_refl eq_refl eq_refl eq_refl eq_refl))
               eq_refl).
Defined.

(** [SPI_packet_boundary] on 509 zero bytes and the acknowledging
    device. *)
Lemma SPI_packet_boundary_witness :
  error_free (D := Acking) /\
  504 <= len (repeat 0 509) < 1011 /\
  written (log (fst (snd (run (SPI.SPI (repeat 0 509) []) acking SPI.init)))) =
    spi_two_packets (repeat 0 509).
Proof.
  split; [split; intros; reflexivity | ].
  assert (Hl : 504 <= len (repeat 0 509) < 1011) by (change (504 <= 509 < 1011); lia).
  split; [exact Hl | ].
  exact (SPI_packet_boundary (repeat 0 509) acking
           (conj (fun _ _ => eq_refl) (fun _ _ => eq_refl)) Hl).
Defined.

(** A buffer of 509 bytes goes out in two packets, of 509 and 7 bytes
    (504 and 5 bytes of data), each acknowledged by one 5-byte read. *)
Lemma SPI_509_two_packets :
  let res := run (SPI.SPI (repeat 0 509) []) acking SPI.init in
  fst res = Done tt /\
  map (@length Z) (written (log (fst (snd res)))) = [509%nat; 7%nat] /\
  reads (log (fst (snd res))) = [5%nat; 5%nat].
Proof. vm_compute. repeat split; reflexivity. Qed.


(** [SPI_read_unsupported] with a read buffer of one byte. *)
Lemma SPI_read_unsupported_witness :
  [0x00] <> [] /\
  SPI.SPI sample_w [0x00] (mkIO acking [], SPI.init) = (Fail ErrUnsupported, (mkIO acking [], SPI.init)).
Proof.
  split; [discriminate | ].
  apply SPI_read_unsupported. discriminate.
Defined.

(** [ReadPin_decodes] for pin 3 on an echo whose byte for the pin is
    [0x00]: an input read as high. *)
Lemma ReadPin_decodes_witness :
  0 <= 3 < 8 /\
  dev_Write (Dev (fst (mkIO [sample_echo] [], tt))) GPIO.status_frame = ([sample_echo], None) /\
  dev_Read [sample_echo] 13 = ([], sample_echo, None) /\
  fst (GPIO.ReadPin 3 (mkIO [sample_echo] [], tt)) = Done true.
Proof.
  split; [lia | ]. split; [reflexivity | ]. split; [reflexivity | ].
  exact (ReadPin_decodes 3 (mkIO [sample_echo] [], tt) [sample_echo] [] sample_echo
           (conj (proj1 (Z.leb_le 0 3) eq_refl) eq_refl) eq_refl eq_refl eq_refl eq_refl).
Defined.

(** * Further properties of the codecs and of their callers *)

(** ** Chip select *)

Section ChipSelect.
Context {D : Type} `{HIDDev D}.

(** What [Dev_Write] returns, from what the device returns. *)
Lemma Dev_Write_run {L : Type} (p : list Z) (s : st D L) :
  Dev_Write p s =
    (match snd (dev_Write (Dev (fst s)) p) with
     | None => Done tt
     | Some c => Fail (ErrTransport c)
     end,
     (mkIO (fst (dev_Write (Dev (fst s)) p)) (log (fst s) ++ [EvWrite p]), snd s)).
Proof.
  unfold Dev_Write. destruct (dev_Write (Dev (fst s)) p) as [d' [c | ]]; reflexivity.
Qed.

(** X1. [SetCS] and [SetCS1] each make one [Write] and no [Read]. The
    frame is the same 15-byte, well-formed frame but for one byte:
    [SetCS] stores [0x80] (assert) or [0xc0] (release) at offset 5 and
    leaves offset 10 zero, [SetCS1] does the reverse. *)
Theorem SetCS_frames (enable : bool) (s : st D unit) :
  exists f0 f1,
    (SPI.SetCS enable s = Dev_Write f0 s /\
     frame_ok f0 /\ len f0 = 15 /\
     nth 5 f0 0 = (if enable then 0x80 else 0xc0) /\ nth 10 f0 0 = 0x00) /\
    (SPI.SetCS1 enable s = Dev_Write f1 s /\
     frame_ok f1 /\ len f1 = 15 /\
     nth 10 f1 0 = (if enable then 0x80 else 0xc0) /\ nth 5 f1 0 = 0x00) /\
    reads (log (fst (snd (SPI.SetCS enable s)))) = reads (log (fst s)) /\
    reads (log (fst (snd (SPI.SetCS1 enable s)))) = reads (log (fst s)).
Proof.
  unfold SPI.SetCS, SPI.SetCS1, SPI.setCS. cbv zeta.
  change (5 + 5 * 0) with 5. change (5 + 5 * 1) with 10.
  destruct enable.
  - do 2 eexists. split; [ | split; [ | split]].
    + split; [reflexivity | ]. cbv [frame_ok len]. cbn. repeat split; lia.
    + split; [reflexivity | ]. cbv [frame_ok len]. cbn. repeat split; lia.
    + cbn [set_at]. unfold bind, must, ret. cbn -[Dev_Write]. rewrite Dev_Write_run.
      cbn [fst snd log]. rewrite reads_app. cbn. apply app_nil_r.
    + unfold bind, must, ret. cbn -[Dev_Write]. rewrite Dev_Write_run.
      cbn [fst snd log]. rewrite reads_app. cbn. apply app_nil_r.
  - do 2 eexists. split; [ | split; [ | split]].
    + split; [reflexivity | ]. cbv [frame_ok len]. cbn. repeat split; lia.
    + split; [reflexivity | ]. cbv [frame_ok len]. cbn. repeat split; lia.
    + unfold bind, must, ret. cbn -[Dev_Write]. rewrite Dev_Write_run.
      cbn [fst snd log]. rewrite reads_app. cbn. apply app_nil_r.
    + unfold bind, must, ret. cbn -[Dev_Write]. rewrite Dev_Write_run.
      cbn [fst snd log]. rewrite reads_app. cbn. apply app_nil_r.
Qed.
End ChipSelect.

(** ** UART and I2C settings *)

Lemma byte_shift (x k : Z) :
  0 <= k -> byte (Z.land (Z.shiftr x k) 0xff) = (x / 2 ^ k) mod 256.
Proof.
  intros Hk. unfold byte. change 0xff with (Z.ones 8). rewrite Z.land_ones by lia.
  rewrite Z.shiftr_div_pow2 by lia. change (2 ^ 8) with 256. apply Z.mod_mod. lia.
Qed.

Lemma le24 (x : Z) :
  x mod 256 + 256 * ((x / 256) mod 256) + 65536 * ((x / 65536) mod 256) = x mod 16777216.
Proof.
  pose proof (Z.div_mod x 256 ltac:(lia)).
  pose proof (Z.div_mod (x / 256) 256 ltac:(lia)).
  pose proof (Z.div_mod x 65536 ltac:(lia)).
  pose proof (Z.div_mod (x / 65536) 256 ltac:(lia)).
  pose proof (Z.div_mod x 16777216 ltac:(lia)).
  pose proof (Z.mod_pos_bound x 256 ltac:(lia)).
  pose proof (Z.mod_pos_bound (x / 256) 256 ltac:(lia)).
  pose proof (Z.mod_pos_bound (x / 65536) 256 ltac:(lia)).
  pose proof (Z.mod_pos_bound x 16777216 ltac:(lia)).
  assert (E1 : x / 65536 = x / 256 / 256) by (rewrite Z.div_div by lia; reflexivity).
  assert (E2 : x / 16777216 = x / 65536 / 256) by (rewrite Z.div_div by lia; reflexivity).
  lia.
Qed.

Section Settings.
Context {D : Type} `{HIDDev D}.

(** X2. [UART.Set] sends one feature report of 11 bytes and makes no
    [Write] or [Read]; bytes 3 to 5 hold the baud rate little-endian,
    reduced modulo [2^24]; bytes 7, 8, 9 hold the stop bits, the parity
    and the data bits; the result is the transport's. *)
Theorem UART_Set_report (baudRate dataBits parity stop : Z) (s : st D unit) :
  exists p,
    log (fst (snd (UART.Set_ baudRate dataBits parity stop s))) = log (fst s) ++ [EvFeature p] /\
    len p = 11 /\
    nth 3 p 0 + 256 * nth 4 p 0 + 65536 * nth 5 p 0 = baudRate mod 2 ^ 24 /\
    nth 7 p 0 = byte stop /\ nth 8 p 0 = byte parity /\ nth 9 p 0 = byte dataBits /\
    fst (UART.Set_ baudRate dataBits parity stop s) =
      match snd (dev_SendFeatureReport (Dev (fst s)) p) with
      | None => Done tt
      | Some c => Fail (ErrTransport c)
      end.
Proof.
  unfold UART.Set_. cbv zeta. eexists.
  unfold Dev_SendFeatureReport.
  destruct (dev_SendFeatureReport (Dev (fst s)) _) as [d' err] eqn:E.
  split; [destruct err; reflexivity | ].
  split; [reflexivity | ].
  split.
  - cbn [nth]. rewrite !byte_shift by lia.
    change (2 ^ 0) with 1. change (2 ^ 8) with 256. change (2 ^ 16) with 65536.
    change (2 ^ 24) with 16777216. rewrite Z.div_1_r. apply le24.
  - repeat split; try reflexivity. rewrite E. cbn [snd]. destruct err; reflexivity.
Qed.

(** X3. For a mode in [0,4), [SetI2C] makes one [Write], of a 5-byte
    well-formed frame whose byte 3 carries [0x60] in its high bits and
    the mode in its low bits, and expects no reply. *)
Theorem SetI2C_frame (mode : Z) (s : st D unit) :
  0 <= mode < 4 ->
  exists f,
    I2C.SetI2C mode s = Dev_Write f s /\
    frame_ok f /\ len f = 5 /\
    Z.land (nth 3 f 0) 0x1f = mode /\ Z.land (nth 3 f 0) 0xe0 = 0x60.
Proof.
  intros Hm. unfold I2C.SetI2C. eexists. split; [reflexivity | ].
  assert (E : mode = 0 \/ mode = 1 \/ mode = 2 \/ mode = 3) by lia.
  destruct E as [-> | [-> | [-> | ->]]]; cbv [frame_ok len]; cbn; repeat split; lia.
Qed.
End Settings.

(** [SetI2C_frame] for mode 1. *)
Lemma SetI2C_frame_witness :
  0 <= 1 < 4 /\
  exists f,
    I2C.SetI2C 1 (mkIO acking [], tt) = Dev_Write f (mkIO acking [], tt) /\
    frame_ok f /\ len f = 5 /\
    Z.land (nth 3 f 0) 0x1f = 1 /\ Z.land (nth 3 f 0) 0xe0 = 0x60.
Proof.
  split; [lia | ]. apply SetI2C_frame. lia.
Defined.

(** ** GPIO: echoes and pins out of range *)

Section GPIOEdges.
Context {D : Type} `{HIDDev D}.

(** The exchange of [WritePin] and [ReadPin] when the echo does not start
    as expected. *)
Lemma exchange_mismatch (f : list Z) (s : st D unit) d1 d2 data :
  length f = 13%nat ->
  dev_Write (Dev (fst s)) f = (d1, None) ->
  dev_Read d1 13 = (d2, data, None) ->
  nth 0 (fill f data) 0 <> 0x0b \/ nth 2 (fill f data) 0 <> 0xcc ->
  forall (A : Type) (k : list Z -> M (st D unit) A),
    (Dev_Write f ;; p <- Dev_Read f ;; GPIO.check_header p ;; k p) s
    = (Fail (ErrGPIOResponse (nth 0 (fill f data) 0) (nth 1 (fill f data) 0)
                             (nth 2 (fill f data) 0)),
       (mkIO d2 (log (fst s) ++ [EvWrite f; EvRead 13 data]), snd s)).
Proof.
  intros Hf Hw Hr Hne A k.
  assert (Hlen : len (fill f data) = 13) by (unfold len; rewrite fill_length, Hf; reflexivity).
  unfold bind at 1. unfold Dev_Write. rewrite Hw.
  unfold bind at 1. unfold Dev_Read. cbn [fst snd Dev log]. rewrite Hf, Hr.
  unfold bind at 1. unfold GPIO.check_header.
  rewrite !get_at_nth by lia.
  change (Z.to_nat 0) with 0%nat. change (Z.to_nat 1) with 1%nat. change (Z.to_nat 2) with 2%nat.
  unfold bind, must, ret, fail. rewrite <- app_assoc. cbn [app].
  destruct (Z.eqb_spec (nth 0 (fill f data) 0) 11) as [E0 | E0];
    destruct (Z.eqb_spec (nth 2 (fill f data) 0) 204) as [E2 | E2];
    cbn [negb orb]; try reflexivity.
  destruct Hne; contradiction.
Qed.

(** X4. When the echo of the status frame does not start with [0x0b] at
    offset 0 and [0xcc] at offset 2 (either of them wrong), [ReadPin]
    fails with the error that reports bytes 0, 1 and 2 of the echo, for
    any pin, before looking at the pin's byte. *)
Theorem ReadPin_header_mismatch (pin : Z) (s : st D unit) d1 d2 data :
  dev_Write (Dev (fst s)) GPIO.status_frame = (d1, None) ->
  dev_Read d1 13 = (d2, data, None) ->
  let p := fill GPIO.status_frame data in
  nth 0 p 0 <> 0x0b \/ nth 2 p 0 <> 0xcc ->
  fst (GPIO.ReadPin pin s) = Fail (ErrGPIOResponse (nth 0 p 0) (nth 1 p 0) (nth 2 p 0)).
Proof.
  intros Hw Hr p Hne. unfold GPIO.ReadPin.
  rewrite (exchange_mismatch GPIO.status_frame s d1 d2 data eq_refl Hw Hr Hne).
  reflexivity.
Qed.

(** X5. When the echo does not start with [0x0b] at offset 0 and [0xcc]
    at offset 2, [WritePin] fails with the error that reports bytes 0, 1
    and 2 of the echo, whatever the pin's byte says. *)
Theorem WritePin_header_mismatch (pin : Z) (output level : bool) (s : st D unit)
        (f : list Z) d1 d2 data :
  set_at GPIO.status_frame (byte (5 + pin))
         (if output then (if level then 0xf8 else 0xf0) else 0xc0) = Some f ->
  dev_Write (Dev (fst s)) f = (d1, None) ->
  dev_Read d1 13 = (d2, data, None) ->
  let p := fill f data in
  nth 0 p 0 <> 0x0b \/ nth 2 p 0 <> 0xcc ->
  fst (GPIO.WritePin pin output level s) =
    Fail (ErrGPIOResponse (nth 0 p 0) (nth 1 p 0) (nth 2 p 0)).
Proof.
  intros Hf Hw Hr p Hne. unfold GPIO.WritePin.
  pose proof (set_at_length _ _ _ _ Hf) as Hlen.
  change (length GPIO.status_frame) with 13%nat in Hlen.
  unfold bind at 1. rewrite Hf. cbv beta iota delta [must ret].
  rewrite (exchange_mismatch f s d1 d2 data Hlen Hw Hr Hne).
  reflexivity.
Qed.

(** X6. A [Pin] above [GPIO7]: for 8 to 250, [WritePin] panics on the
    index [5 + pin] before any call on the device; for 251 to 255 the
    [uint8] sum [5 + pin] wraps, and the frame sent has the pin pattern
    stored at offset [pin - 251], over the frame's first bytes. *)
Theorem WritePin_pin_out_of_range (pin : Z) (output level : bool) (s : st D unit) :
  8 <= pin < 256 ->
  if pin <? 251
  then GPIO.WritePin pin output level s = (Panic, s)
  else exists f,
         set_at GPIO.status_frame (pin - 251)
                (if output then (if level then 0xf8 else 0xf0) else 0xc0) = Some f /\
         written (log (fst (snd (GPIO.WritePin pin output level s))))
           = written (log (fst s)) ++ [f].
Proof.
  intros Hp. destruct (Z.ltb_spec pin 251) as [Hlt | Hge].
  - unfold GPIO.WritePin. cbv zeta.
    assert (E : byte (5 + pin) = 5 + pin) by (unfold byte; apply Z.mod_small; lia).
    rewrite E. unfold set_at.
    change (len GPIO.status_frame) with 13.
    destruct (Z.ltb_spec (5 + pin) 0); [lia | ].
    destruct (Z.leb_spec 13 (5 + pin)); [ | lia]. reflexivity.
  - assert (E : byte (5 + pin) = pin - 251).
    { unfold byte. replace (5 + pin) with (pin - 251 + 1 * 256) by lia.
      rewrite Z.mod_add by lia. apply Z.mod_small. lia. }
    unfold GPIO.WritePin. cbv zeta. rewrite E.
    destruct (set_at GPIO.status_frame (pin - 251) _) as [f | ] eqn:Ef.
    2:{ unfold set_at in Ef. change (len GPIO.status_frame) with 13 in Ef.
        destruct (Z.ltb_spec (pin - 251) 0); [lia | ].
        destruct (Z.leb_spec 13 (pin - 251)); [lia | discriminate]. }
    exists f. split; [reflexivity | ].
    apply (wp_run _ (fun s' => written (log (fst s')) = written (log (fst s)) ++ [f])).
    destruct s as [[d l] u]. st_simpl.
    assert (Hrd : forall n data, written ((l ++ [EvWrite f]) ++ [EvRead n data])
                                 = written l ++ [f]).
    { intros n data. rewrite !written_app. cbn. now rewrite app_nil_r. }
    wp_step. wp_step. wp_step. wp_write d1 err Hw.
    destruct err; [rewrite written_app; reflexivity | ].
    wp_step. wp_read d2 data err Hr.
    destruct err; [apply Hrd | ].
    wp_step. unfold GPIO.check_header.
    wp_step. destruct (get_at _ 0); [ | apply wp_must; apply Hrd]. wp_pure.
    destruct (get_at _ 1); [ | apply wp_must; apply Hrd]. wp_pure.
    destruct (get_at _ 2); [ | apply wp_must; apply Hrd]. wp_pure.
    destruct (negb (z =? 11) || negb (z1 =? 204)); [wp_step; apply Hrd | ].
    wp_pure.
    destruct (get_at _ (pin - 251)); [ | apply wp_must; apply Hrd]. wp_pure.
    destruct output.
    + destruct (Z.land _ _ =? 0); wp_step; apply Hrd.
    + destruct (negb _); wp_step; apply Hrd.
Qed.

(** X7. For a [Pin] from 8 to 250, [ReadPin] panics on the index
    [5 + pin], but only after it has written the status frame and read
    an echo with the right header. *)
Theorem ReadPin_pin_out_of_range (pin : Z) (s : st D unit) d1 d2 data :
  8 <= pin < 251 ->
  dev_Write (Dev (fst s)) GPIO.status_frame = (d1, None) ->
  dev_Read d1 13 = (d2, data, None) ->
  let p := fill GPIO.status_frame data in
  nth 0 p 0 = 0x0b ->
  nth 2 p 0 = 0xcc ->
  GPIO.ReadPin pin s =
    (Panic, (mkIO d2 (log (fst s) ++ [EvWrite GPIO.status_frame; EvRead 13 data]), snd s)).
Proof.
  intros Hp Hw Hr p H0 H2. unfold GPIO.ReadPin.
  rewrite (exchange_run GPIO.status_frame s d1 d2 data eq_refl Hw Hr H0 H2).
  assert (E : byte (5 + pin) = 5 + pin) by (unfold byte; apply Z.mod_small; lia).
  cbv zeta. rewrite E. unfold bind, get_at.
  assert (Hlen : len (fill GPIO.status_frame data) = 13)
    by (unfold len; rewrite fill_length; reflexivity).
  rewrite Hlen.
  destruct (Z.ltb_spec (5 + pin) 0); [lia | ].
  destruct (Z.leb_spec 13 (5 + pin)); [ | lia]. reflexivity.
Qed.
End GPIOEdges.

(** ** The SPI configuration frame; empty calls; the I2C address *)

(** X8. For a mode in [0,4), a clock in [0,8) and a byte order in [0,2),
    the frame [SetSPI] sends has 31 bytes and is well formed, and the
    three settings can be read back from it: the mode is byte 11 plus
    byte 13, the clock is byte 17 shifted right by 3, the byte order is
    bit 7 of byte 19. *)
Theorem config_frame_layout (mode clock byteOrder : Z) :
  0 <= mode < 4 -> 0 <= clock < 8 -> 0 <= byteOrder < 2 ->
  let f := live (SPI.config_frame mode clock byteOrder) in
  frame_ok f /\ len f = 31 /\
  nth 11 f 0 + nth 13 f 0 = mode /\
  Z.shiftr (nth 17 f 0) 3 = clock /\
  Z.shiftr (nth 19 f 0) 7 = byteOrder.
Proof.
  intros Hm Hc Hb.
  assert (Em : mode = 0 \/ mode = 1 \/ mode = 2 \/ mode = 3) by lia.
  assert (Ec : clock = 0 \/ clock = 1 \/ clock = 2 \/ clock = 3 \/
               clock = 4 \/ clock = 5 \/ clock = 6 \/ clock = 7) by lia.
  assert (Eb : byteOrder = 0 \/ byteOrder = 1) by lia.
  destruct Em as [-> | [-> | [-> | ->]]];
    destruct Ec as [-> | [-> | [-> | [-> | [-> | [-> | [-> | ->]]]]]]];
    destruct Eb as [-> | ->];
    vm_compute; repeat split; intros; discriminate.
Qed.

(** [config_frame_layout] for mode 3, clock 1, LSB first. *)
Lemma config_frame_layout_witness :
  0 <= 3 < 4 /\ 0 <= 1 < 8 /\ 0 <= 1 < 2 /\
  frame_ok (live (SPI.config_frame 3 1 1)) /\ len (live (SPI.config_frame 3 1 1)) = 31 /\
  nth 11 (live (SPI.config_frame 3 1 1)) 0 + nth 13 (live (SPI.config_frame 3 1 1)) 0 = 3 /\
  Z.shiftr (nth 17 (live (SPI.config_frame 3 1 1)) 0) 3 = 1 /\
  Z.shiftr (nth 19 (live (SPI.config_frame 3 1 1)) 0) 7 = 1.
Proof.
  split; [lia | ]. split; [lia | ]. split; [lia | ].
  apply config_frame_layout; lia.
Defined.

(** X9. For a mode outside [0,4) the [switch] of [SetSPI] appends
    nothing: the frame has 27 bytes while its first byte still announces
    29 bytes to follow, so it is not well formed. *)
Theorem config_frame_unknown_mode (mode clock byteOrder : Z) :
  mode < 0 \/ 4 <= mode ->
  let f := live (SPI.config_frame mode clock byteOrder) in
  len f = 27 /\ nth 0 f 0 = 0x1d /\ ~ frame_ok f.
Proof.
  intros Hm. unfold SPI.config_frame.
  destruct (Z.eqb_spec mode 0); [lia | ].
  destruct (Z.eqb_spec mode 1); [lia | ].
  destruct (Z.eqb_spec mode 2); [lia | ].
  destruct (Z.eqb_spec mode 3); [lia | ].
  cbv zeta. split; [reflexivity | ]. split; [reflexivity | ].
  cbv [frame_ok append make live spare repeat app len length].
  intros (_ & _ & E). cbn in E. lia.
Qed.

(** [config_frame_unknown_mode] for mode 4. *)
Lemma config_frame_unknown_mode_witness :
  (4 < 0 \/ 4 <= 4) /\
  len (live (SPI.config_frame 4 0 0)) = 27 /\ nth 0 (live (SPI.config_frame 4 0 0)) 0 = 0x1d /\
  ~ frame_ok (live (SPI.config_frame 4 0 0)).
Proof.
  split; [right; lia | ]. apply config_frame_unknown_mode. right. lia.
Defined.

Section Empty.
Context {D : Type} `{HIDDev D}.

(** X10. With nothing to write and nothing to read, [SPI] returns nil
    without a single call on the device. *)
Theorem SPI_empty (i : io D) :
  SPI.SPI [] [] (i, SPI.init) = (Done tt, (i, SPI.init)).
Proof. reflexivity. Qed.

(** X11. With nothing to write and nothing to read, [I2C] sends one
    frame holding a lone STOP, [03 00 aa 75 00], reads nothing back, and
    returns what the transport returns. *)
Theorem I2C_empty (addr : Z) (i : io D) :
  fst (I2C.I2C addr [] (i, I2C.init [])) =
    match snd (dev_Write (Dev i) [0x03; 0x00; I2C.CmdI2CStream; I2C.CmdI2CStop; 0x00]) with
    | None => Done tt
    | Some c => Fail (ErrTransport c)
    end /\
  log (fst (snd (I2C.I2C addr [] (i, I2C.init [])))) =
    log i ++ [EvWrite [0x03; 0x00; I2C.CmdI2CStream; I2C.CmdI2CStop; 0x00]].
Proof.
  destruct i as [d l].
  unfold I2C.I2C, I2C.pack, I2C.write, I2C.init, bind, when, local, update, gets, modify,
    must, ret. cbn -[Dev_Write]. rewrite Dev_Write_run. cbn [fst snd Dev log].
  destruct (snd (dev_Write d _)); split; reflexivity.
Qed.

(** Only the low seven bits of the address reach the bus. *)
Lemma address_byte (addr : Z) :
  byte (Z.shiftl addr 1 mod 65536) = byte (Z.shiftl (addr mod 128) 1 mod 65536).
Proof.
  unfold byte. rewrite !Z.shiftl_mul_pow2 by lia. change (2 ^ 1) with 2.
  assert (E : forall x, (x mod 65536) mod 256 = x mod 256).
  { intros x. change 65536 with (256 * 256).
    rewrite Z.rem_mul_r by lia. rewrite (Z.mul_comm 256), Z.mod_add by lia.
    apply Z.mod_mod. lia. }
  rewrite !E.
  pose proof (Z.div_mod addr 128 ltac:(lia)) as Hd.
  rewrite Hd at 1.
  replace ((128 * (addr / 128) + addr mod 128) * 2)
    with (addr mod 128 * 2 + (addr / 128) * 256) by lia.
  apply Z.mod_add. lia.
Qed.

(** X12. [I2C] uses the low seven bits of the address only: a call
    with [addr] is the call with [addr mod 128]. *)
Theorem I2C_address_7bit (addr : Z) (w : list Z) :
  I2C.I2C addr w = I2C.I2C (addr mod 128) w.
Proof.
  unfold I2C.I2C, I2C.write_body. rewrite (address_byte addr). reflexivity.
Qed.
End Empty.

(** ** The checksums of the examples *)

Lemma zrange_In (n : nat) (start x : Z) :
  start <= x < start + Z.of_nat n -> In x (zrange n start).
Proof.
  revert start. induction n as [| n IH]; intros start Hx; [lia | ].
  cbn [zrange]. destruct (Z.eq_dec start x) as [-> | Hne]; [now left | right].
  apply IH. lia.
Qed.

(** A check made on every value below a bound holds of each of them. *)
Lemma below_forallb (N : Z) (f : Z -> bool) :
  forallb f (zrange (Z.to_nat N) 0) = true ->
  forall x, 0 <= x < N -> f x = true.
Proof.
  intros Hall x Hx. rewrite forallb_forall in Hall. apply Hall.
  apply zrange_In. lia.
Qed.

Lemma lxor_range (n a b : Z) :
  0 < n -> 0 <= a < 2 ^ n -> 0 <= b < 2 ^ n -> 0 <= Z.lxor a b < 2 ^ n.
Proof.
  intros Hn Ha Hb.
  assert (H0 : 0 <= Z.lxor a b) by (apply Z.lxor_nonneg; lia).
  split; [exact H0 | ].
  assert (Hl : forall x, 0 <= x < 2 ^ n -> Z.log2 x < n).
  { intros x Hx. destruct (Z.eq_dec x 0) as [-> | Hx0]; [cbn; lia | ].
    apply Z.log2_lt_pow2; lia. }
  destruct (Z.eq_dec (Z.lxor a b) 0) as [E | E]; [rewrite E; lia | ].
  apply Z.log2_lt_pow2; [lia | ].
  pose proof (Z.log2_lxor a b ltac:(lia) ltac:(lia)).
  pose proof (Hl a Ha). pose proof (Hl b Hb). lia.
Qed.

Lemma lxor_cancel_r (a b c : Z) : Z.lxor a c = Z.lxor b c -> a = b.
Proof.
  intros E. rewrite <- (Z.lxor_0_r a), <- (Z.lxor_0_r b), <- (Z.lxor_nilpotent c).
  rewrite <- !Z.lxor_assoc. now rewrite E.
Qed.

Lemma lxor_cancel_l (a b c : Z) : Z.lxor c a = Z.lxor c b -> a = b.
Proof. rewrite !(Z.lxor_comm c). apply lxor_cancel_r. Qed.

Section Crc16Facts.
Import Pzem.

Lemma crc16_bit_spec (c : Z) :
  0 <= c < 65536 ->
  0 <= crc16_bit c < 65536 /\ uncrc16_bit (crc16_bit c) = c.
Proof.
  intros Hc.
  pose proof (below_forallb 65536
    (fun c => (0 <=? crc16_bit c) && (crc16_bit c <? 65536)
              && (uncrc16_bit (crc16_bit c) =? c))) as Hall.
  cbv beta in Hall. specialize (Hall ltac:(vm_compute; reflexivity) c ltac:(lia)).
  apply andb_true_iff in Hall. destruct Hall as [Hr Hu].
  apply andb_true_iff in Hr. destruct Hr as [H1 H2].
  apply Z.leb_le in H1. apply Z.ltb_lt in H2. apply Z.eqb_eq in Hu. lia.
Qed.

Lemma crc16_bits_range (n : nat) (c : Z) :
  0 <= c < 65536 -> 0 <= Nat.iter n crc16_bit c < 65536.
Proof.
  intros Hc. induction n as [| n IH]; [exact Hc | ].
  rewrite Nat.iter_succ. now apply crc16_bit_spec.
Qed.

Lemma crc16_bits_inj (n : nat) (c c' : Z) :
  0 <= c < 65536 -> 0 <= c' < 65536 ->
  Nat.iter n crc16_bit c = Nat.iter n crc16_bit c' -> c = c'.
Proof.
  intros Hc Hc'. induction n as [| n IH]; [auto | ].
  rewrite !Nat.iter_succ. intros E. apply IH.
  pose proof (crc16_bits_range n c Hc) as R. pose proof (crc16_bits_range n c' Hc') as R'.
  destruct (crc16_bit_spec _ R) as [_ U]. destruct (crc16_bit_spec _ R') as [_ U'].
  rewrite <- U, <- U'. now rewrite E.
Qed.

Lemma crc16_byte_range (c a : Z) :
  0 <= c < 65536 -> is_byte a -> 0 <= crc16_byte c a < 65536.
Proof.
  intros Hc Ha. unfold crc16_byte. apply crc16_bits_range.
  apply (lxor_range 16); unfold is_byte in *; lia.
Qed.

Lemma crc16_fold_range (p : list Z) (c : Z) :
  0 <= c < 65536 -> Forall is_byte p -> 0 <= fold_left crc16_byte p c < 65536.
Proof.
  revert c. induction p as [| a p IH]; intros c Hc Hp; [exact Hc | ].
  inversion Hp; subst. cbn [fold_left]. apply IH; [ | assumption].
  now apply crc16_byte_range.
Qed.

Lemma crc16_range (p : list Z) : Forall is_byte p -> 0 <= crc16 p < 65536.
Proof. intros Hp. apply crc16_fold_range; [lia | exact Hp]. Qed.

Lemma crc16_fold_inj (p : list Z) (c c' : Z) :
  0 <= c < 65536 -> 0 <= c' < 65536 -> Forall is_byte p ->
  fold_left crc16_byte p c = fold_left crc16_byte p c' -> c = c'.
Proof.
  revert c c'. induction p as [| a p IH]; intros c c' Hc Hc' Hp E; [exact E | ].
  inversion Hp; subst. cbn [fold_left] in E.
  apply IH in E; try assumption; try (now apply crc16_byte_range).
  unfold crc16_byte in E. apply crc16_bits_inj in E.
  - now apply lxor_cancel_r in E.
  - apply (lxor_range 16); unfold is_byte in *; lia.
  - apply (lxor_range 16); unfold is_byte in *; lia.
Qed.

(** X13. A message followed by its [crc16], low byte first as [ReadAll]
    appends it, has [crc16] zero. *)
Theorem crc16_residue (p : list Z) :
  Forall is_byte p ->
  let crc := crc16 p in
  crc16 (p ++ [Z.land (byte crc) 0xff; Z.land (byte (Z.shiftr crc 8)) 0xff]) = 0.
Proof.
  intros Hp crc. pose proof (crc16_range p Hp) as Hc. fold crc in Hc.
  unfold crc16. rewrite fold_left_app. fold (crc16 p). fold crc. cbn [fold_left].
  pose proof (below_forallb 65536
    (fun c => crc16_byte (crc16_byte c (Z.land (byte c) 0xff))
                         (Z.land (byte (Z.shiftr c 8)) 0xff) =? 0)) as Hall.
  cbv beta in Hall. specialize (Hall ltac:(vm_compute; reflexivity) crc ltac:(lia)).
  now apply Z.eqb_eq in Hall.
Qed.

(** X14. [crc16] tells apart two messages that differ in one byte
    only. *)
Theorem crc16_detects_byte_error (p1 p2 : list Z) (a b : Z) :
  Forall is_byte p1 -> Forall is_byte p2 -> is_byte a -> is_byte b ->
  a <> b ->
  crc16 (p1 ++ a :: p2) <> crc16 (p1 ++ b :: p2).
Proof.
  intros H1 H2 Ha Hb Hab E. apply Hab. unfold crc16 in E. rewrite !fold_left_app in E.
  cbn [fold_left] in E.
  pose proof (crc16_fold_range p1 0xffff ltac:(lia) H1) as Hc.
  set (c := fold_left crc16_byte p1 65535) in *.
  apply crc16_fold_inj in E; try assumption; try (now apply crc16_byte_range).
  unfold crc16_byte in E. apply crc16_bits_inj in E.
  - now apply lxor_cancel_l in E.
  - apply (lxor_range 16); unfold is_byte in *; lia.
  - apply (lxor_range 16); unfold is_byte in *; lia.
Qed.
End Crc16Facts.

Section Crc8Facts.
Import AHT2x.

Lemma crc8_bit_spec (c : Z) :
  0 <= c < 256 -> 0 <= crc8_bit c < 256 /\ uncrc8_bit (crc8_bit c) = c.
Proof.
  intros Hc.
  pose proof (below_forallb 256
    (fun c => (0 <=? crc8_bit c) && (crc8_bit c <? 256)
              && (uncrc8_bit (crc8_bit c) =? c))) as Hall.
  cbv beta in Hall. specialize (Hall ltac:(vm_compute; reflexivity) c ltac:(lia)).
  apply andb_true_iff in Hall. destruct Hall as [Hr Hu].
  apply andb_true_iff in Hr. destruct Hr as [H1 H2].
  apply Z.leb_le in H1. apply Z.ltb_lt in H2. apply Z.eqb_eq in Hu. lia.
Qed.

Lemma crc8_bits_range (n : nat) (c : Z) :
  0 <= c < 256 -> 0 <= Nat.iter n crc8_bit c < 256.
Proof.
  intros Hc. induction n as [| n IH]; [exact Hc | ].
  rewrite Nat.iter_succ. now apply crc8_bit_spec.
Qed.

Lemma crc8_bits_inj (n : nat) (c c' : Z) :
  0 <= c < 256 -> 0 <= c' < 256 ->
  Nat.iter n crc8_bit c = Nat.iter n crc8_bit c' -> c = c'.
Proof.
  intros Hc Hc'. induction n as [| n IH]; [auto | ].
  rewrite !Nat.iter_succ. intros E. apply IH.
  pose proof (crc8_bits_range n c Hc) as R. pose proof (crc8_bits_range n c' Hc') as R'.
  destruct (crc8_bit_spec _ R) as [_ U]. destruct (crc8_bit_spec _ R') as [_ U'].
  rewrite <- U, <- U'. now rewrite E.
Qed.

Lemma crc8_byte_range (c a : Z) :
  0 <= c < 256 -> is_byte a -> 0 <= crc8_byte c a < 256.
Proof.
  intros Hc Ha. unfold crc8_byte. apply crc8_bits_range.
  apply (lxor_range 8); unfold is_byte in *; lia.
Qed.

Lemma crc8_fold_range (p : list Z) (c : Z) :
  0 <= c < 256 -> Forall is_byte p -> 0 <= fold_left crc8_byte p c < 256.
Proof.
  revert c. induction p as [| a p IH]; intros c Hc Hp; [exact Hc | ].
  inversion Hp; subst. cbn [fold_left]. apply IH; [ | assumption].
  now apply crc8_byte_range.
Qed.

Lemma crc8_fold_inj (p : list Z) (c c' : Z) :
  0 <= c < 256 -> 0 <= c' < 256 -> Forall is_byte p ->
  fold_left crc8_byte p c = fold_left crc8_byte p c' -> c = c'.
Proof.
  revert c c'. induction p as [| a p IH]; intros c c' Hc Hc' Hp E; [exact E | ].
  inversion Hp; subst. cbn [fold_left] in E.
  apply IH in E; try assumption; try (now apply crc8_byte_range).
  unfold crc8_byte in E. apply crc8_bits_inj in E.
  - now apply lxor_cancel_r in E.
  - apply (lxor_range 8); unfold is_byte in *; lia.
  - apply (lxor_range 8); unfold is_byte in *; lia.
Qed.

(** X15. The check of the AHT2x example: a byte [x] is the [crc8] of a
    message exactly when the message followed by [x] has [crc8] zero. *)
Theorem crc8_check (p : list Z) (x : Z) :
  Forall is_byte p -> is_byte x ->
  (x = crc8 p <-> crc8 (p ++ [x]) = 0).
Proof.
  intros Hp Hx. pose proof (crc8_fold_range p 0xff ltac:(lia) Hp) as Hc.
  unfold crc8. rewrite fold_left_app. cbn [fold_left].
  set (c := fold_left crc8_byte p 255) in *.
  assert (Z0 : Nat.iter 8 crc8_bit 0 = 0) by reflexivity.
  unfold crc8_byte. split.
  - intros ->. rewrite Z.lxor_nilpotent. exact Z0.
  - intros E. rewrite <- Z0 in E. apply crc8_bits_inj in E; [ | | lia].
    + apply Z.lxor_eq in E. congruence.
    + apply (lxor_range 8); unfold is_byte in *; lia.
Qed.

(** X16. [crc8] tells apart two messages that differ in one byte
    only. *)
Theorem crc8_detects_byte_error (p1 p2 : list Z) (a b : Z) :
  Forall is_byte p1 -> Forall is_byte p2 -> is_byte a -> is_byte b ->
  a <> b ->
  crc8 (p1 ++ a :: p2) <> crc8 (p1 ++ b :: p2).
Proof.
  intros H1 H2 Ha Hb Hab E. apply Hab. unfold crc8 in E. rewrite !fold_left_app in E.
  cbn [fold_left] in E.
  pose proof (crc8_fold_range p1 0xff ltac:(lia) H1) as Hc.
  set (c := fold_left crc8_byte p1 255) in *.
  apply crc8_fold_inj in E; try assumption; try (now apply crc8_byte_range).
  unfold crc8_byte in E. apply crc8_bits_inj in E.
  - now apply lxor_cancel_l in E.
  - apply (lxor_range 8); unfold is_byte in *; lia.
  - apply (lxor_range 8); unfold is_byte in *; lia.
Qed.
End Crc8Facts.

(** ** UART.Write: everything is sent *)

Lemma firstn_add_skipn {A} (a d : nat) (l : list A) :
  firstn a l ++ firstn d (skipn a l) = firstn (a + d) l.
Proof.
  rewrite firstn_skipn_comm.
  rewrite <- (firstn_skipn a (firstn (a + d) l)) at 2.
  f_equal. rewrite firstn_firstn. f_equal. lia.
Qed.

Lemma payloads_write (l : list event) (f : list Z) :
  payloads (l ++ [EvWrite f]) = payloads l ++ skipn 2 f.
Proof.
  unfold payloads. rewrite written_app, map_app, concat_app. cbn. now rewrite app_nil_r.
Qed.

Lemma payloads_read (l : list event) (n : nat) (data : list Z) :
  payloads (l ++ [EvRead n data]) = payloads l.
Proof.
  unfold payloads. rewrite written_app. cbn. now rewrite app_nil_r.
Qed.

Lemma removelast_snoc {A} (l : list A) (x : A) : removelast (l ++ [x]) = l.
Proof. apply removelast_last. Qed.

Section UARTSends.
Context {D : Type} `{HIDDev D}.
Implicit Types s : st D UART.write_vars.

Lemma Write_body_sends (b : list Z) (plen : Z) s :
  error_free (D := D) ->
  0 < plen <= 510 ->
  uart_sent b plen s ->
  UART.w_pos (snd s) < len b ->
  wp (UART.Write_body b plen (len b))
     (fun _ s' => uart_sent b plen s' /\ UART.w_pos (snd s) < UART.w_pos (snd s'))
     (fun _ _ => False) s.
Proof.
  intros [Hew _] Hplen (Hpos & Hpay & Hrd & Hpos2 & Hfull) Hlt.
  destruct Hfull as [[Hp Hfull] | [Hge _]]; [ | lia].
  unfold UART.Write_body, uart_sent. destruct s as [[d l] [p pos]]. st_simpl.
  wp_step. wp_step. wp_step. wp_step. cbv zeta.
  set (dlen := if _ >? plen then plen else _).
  assert (Hd : 0 < dlen <= plen /\ pos + dlen <= len b /\ (dlen <> plen -> pos + dlen = len b)).
  { subst dlen. destruct (Z.gtb_spec (len b - pos) plen); lia. }
  destruct (set_header p (byte (Z.land dlen 255)) (byte (Z.land (Z.shiftr dlen 8) 255)))
    as [p1 [E1 E2]]; [lia | ].
  wp_step. wp_step. rewrite E1. wp_step. wp_step. rewrite E2.
  set (lo := byte (Z.land dlen 255)) in *. set (hi := byte (Z.land (Z.shiftr dlen 8) 255)) in *.
  wp_step. wp_step.
  assert (Hskip : length (skipn 2 p) = Z.to_nat plen).
  { rewrite length_skipn. unfold len in Hp. lia. }
  rewrite (sub_some (lo :: hi :: skipn 2 p) 2 (len (lo :: hi :: skipn 2 p)));
    [ | unfold len; cbn [length]; lia | lia].
  change (Z.to_nat 2) with 2%nat.
  change (skipn 2 (lo :: hi :: skipn 2 p)) with (skipn 2 p).
  rewrite (@firstn_all2 _ _ (skipn 2 p)) by (unfold len; cbn [length]; lia).
  wp_step. wp_step.
  rewrite (sub_some b pos (pos + dlen)) by lia.
  replace (pos + dlen - pos) with dlen by lia.
  set (src := firstn (Z.to_nat dlen) (skipn (Z.to_nat pos) b)).
  assert (Hsrc : length src = Z.to_nat dlen).
  { subst src. rewrite length_firstn, length_skipn. unfold len in *. lia. }
  wp_step. cbn [firstn app].
  assert (Hcopy : copy (skipn 2 p) src = src ++ skipn (Z.to_nat dlen) (skipn 2 p)).
  { unfold copy. rewrite Hsrc. f_equal. apply firstn_all2. lia. }
  rewrite Hcopy.
  eapply wp_mono with
    (Q := fun f s' => s' = (mkIO d l, UART.mkWriteVars p pos) /\ f = lo :: hi :: src)
    (R := fun _ _ => False); [ | | auto].
  { destruct (Z.eqb_spec dlen plen) as [Heq | Hne]; cbn [negb].
    - wp_step. split; [reflexivity | ].
      rewrite skipn_all2 by lia. now rewrite app_nil_r.
    - wp_step.
      rewrite (sub_some _ 0 (2 + dlen));
        [ | lia | unfold len; cbn [length]; rewrite length_app; lia].
      split; [reflexivity | ].
      replace (Z.to_nat (2 + dlen - 0)) with (S (S (Z.to_nat dlen))) by lia.
      change (Z.to_nat 0) with 0%nat. cbn [skipn firstn]. f_equal. f_equal.
      rewrite firstn_app, firstn_all2 by lia.
      replace (Z.to_nat dlen - length src)%nat with 0%nat by lia.
      cbn [firstn]. apply app_nil_r. }
  intros f s' [-> ->]. st_simpl.
  wp_step. wp_step. wp_step. wp_write d1 err Hw1.
  match type of Hw1 with dev_Write _ ?F = _ => pose proof (Hew d F) as He1 end.
  rewrite Hw1 in He1. cbn [snd] in He1. subst err.
  wp_step. st_simpl.
  assert (Hlf : len (lo :: hi :: src) = 2 + dlen).
  { unfold len. cbn [length]. lia. }
  split; [ | lia]. split; [lia | ].
  split.
  { rewrite payloads_write, Hpay. cbn [skipn]. subst src.
    rewrite firstn_add_skipn. f_equal. lia. }
  split; [rewrite reads_app, Hrd; reflexivity | ].
  split.
  { rewrite written_app. apply Forall_app. split; [exact Hpos2 | ].
    constructor; [lia | constructor]. }
  rewrite written_app. cbn [written flat_map app].
  destruct (Z.eq_dec dlen plen) as [Heq | Hne].
  - left. split; [lia | ].
    apply Forall_app. split; [exact Hfull | constructor; [lia | constructor]].
  - right. split; [lia | ]. rewrite removelast_snoc. exact Hfull.
Qed.

Lemma UART_Write_sent (b : list Z) (d : D) :
  error_free (D := D) ->
  exists s',
    run (UART.Write b) d UART.Write_init = (Done tt, s') /\
    uart_sent b (Z.min (len b) 510) s' /\ UART.w_pos (snd s') = len b.
Proof.
  intros Hef. unfold run.
  assert (Hwp : wp (UART.Write b)
                   (fun _ s' => uart_sent b (Z.min (len b) 510) s' /\ UART.w_pos (snd s') = len b)
                   (fun _ _ => False) (mkIO d [], UART.Write_init)).
  2:{ apply wp_done in Hwp. destruct Hwp as ([] & s' & E & Hs). eauto. }
  unfold UART.Write. cbv zeta.
  set (plen := if len b >? 510 then 510 else len b).
  assert (Hplen : plen = Z.min (len b) 510).
  { subst plen. destruct (Z.gtb_spec (len b) 510); lia. }
  pose proof (len_nonneg b) as Hb.
  wp_step. wp_step.
  eapply wp_mono with (R := fun _ _ => False);
    [ apply (wp_while (uart_sent b plen)
               (fun s => Z.to_nat (len b - UART.w_pos (snd s)))) | | auto].
  - intros s _ Hc. zbool. lia.
  - intros s Hs Hc. zbool.
    assert (Hp0 : 0 <= UART.w_pos (snd s)) by (destruct Hs as ((Hp0 & _) & _); exact Hp0).
    eapply wp_mono with (R := fun _ _ => False);
      [apply Write_body_sends; try assumption; lia | | auto].
    intros a s' [Hs' Hlt]. split; [exact Hs' | ].
    destruct Hs' as ((Hp1 & _) & _). lia.
  - unfold uart_sent, payloads. st_simpl. cbn.
    split; [lia | ]. split; [reflexivity | ]. split; [reflexivity | ].
    split; [constructor | ]. left. split; [ | constructor].
    unfold len. rewrite repeat_length. lia.
  - st_simpl. unfold len. lia.
  - intros a s [Hs Hc]. cbv beta in Hc. zbool. rewrite <- Hplen.
    split; [exact Hs | ]. destruct Hs as (Hp1 & _). lia.
Qed.

Lemma UART_Write_run (b : list Z) (d : D) :
  error_free (D := D) ->
  exists s',
    run (UART.Write b) d UART.Write_init = (Done tt, s') /\
    UART.w_pos (snd s') = len b /\
    payloads (log (fst s')) = b /\
    reads (log (fst s')) = [] /\
    Forall (fun f => 2 < len f) (written (log (fst s'))) /\
    Forall (fun f => len f = Z.min (len b) 510 + 2) (removelast (written (log (fst s')))).
Proof.
  intros Hef. destruct (UART_Write_sent b d Hef) as (s' & E & Hs & Hpos).
  exists s'. destruct Hs as (_ & Hpay & Hrd & Hne & Hfull).
  split; [exact E | ]. split; [exact Hpos | ].
  split.
  { rewrite Hpay, Hpos. apply firstn_all2. unfold len. lia. }
  split; [exact Hrd | ]. split; [exact Hne | ].
  destruct Hfull as [[_ Hf] | [_ Hf]]; [ | exact Hf].
  clear - Hf. induction Hf as [| f l Hfl Hl IH]; [constructor | ].
  destruct l as [| g l]; [constructor | ]. cbn [removelast] in *.
  constructor; [exact Hfl | exact IH].
Qed.
(** X17. Over an error-free transport [UART.Write(b)] returns
    [len b] with nil; the payloads of the frames it sent, one after the
    other, are [b]; every frame carries data, and every frame but the
    last carries [min(len b, 510)] bytes; nothing is read. An empty
    buffer sends no frame. *)
Theorem UART_Write_sends_all (b : list Z) (d : D) :
  error_free (D := D) ->
  exists s',
    run (UART.Write b) d UART.Write_init = (Done tt, s') /\
    UART.w_pos (snd s') = len b /\
    payloads (log (fst s')) = b /\
    reads (log (fst s')) = [] /\
    Forall (fun f => 2 < len f) (written (log (fst s'))) /\
    Forall (fun f => len f = Z.min (len b) 510 + 2) (removelast (written (log (fst s')))).
Proof. exact (UART_Write_run b d). Qed.
End UARTSends.

(** [UART_Write_sends_all] on 1000 bytes: two frames. *)
Lemma UART_Write_sends_all_witness :
  error_free (D := Acking) /\
  exists s',
    run (UART.Write (repeat 0x55 1000)) acking UART.Write_init = (Done tt, s') /\
    UART.w_pos (snd s') = len (repeat 0x55 1000) /\
    payloads (log (fst s')) = repeat 0x55 1000 /\
    reads (log (fst s')) = [] /\
    Forall (fun f => 2 < len f) (written (log (fst s'))) /\
    Forall (fun f => len f = Z.min (len (repeat 0x55 1000)) 510 + 2)
           (removelast (written (log (fst s')))).
Proof.
  split; [split; intros; reflexivity | ].
  apply UART_Write_sends_all. split; intros; reflexivity.
Defined.

(** ** UART: what is written can be read back *)

Lemma map_byte_id (l : list Z) : Forall is_byte l -> map byte l = l.
Proof.
  induction 1 as [| x l Hx Hl IH]; [reflexivity | ].
  cbn [map]. rewrite IH. f_equal. unfold byte. apply Z.mod_small. exact Hx.
Qed.

(** The value of two bytes read as a little-endian number. *)
Lemma le16_value (lo hi : Z) :
  0 <= lo < 256 -> 0 <= hi -> Z.lor (Z.shiftl hi 8) lo = lo + 256 * hi.
Proof.
  intros Hlo Hhi.
  rewrite <- Z.lxor_lor, <- Z.add_nocarry_lxor.
  - rewrite Z.shiftl_mul_pow2 by lia. change (2 ^ 8) with 256. lia.
  - apply Z.bits_inj'. intros n Hn. rewrite Z.land_spec, Z.bits_0.
    destruct (Z.lt_ge_cases n 8) as [Hlt | Hge].
    + rewrite Z.shiftl_spec_low by lia. reflexivity.
    + rewrite (Z.bits_above_log2 lo n); [apply andb_false_r | lia | ].
      destruct (Z.eq_dec lo 0) as [-> | H0]; [cbn; lia | ].
      apply Z.lt_le_trans with 8; [ | lia]. apply Z.log2_lt_pow2; lia.
  - apply Z.bits_inj'. intros n Hn. rewrite Z.land_spec, Z.bits_0.
    destruct (Z.lt_ge_cases n 8) as [Hlt | Hge].
    + rewrite Z.shiftl_spec_low by lia. reflexivity.
    + rewrite (Z.bits_above_log2 lo n); [apply andb_false_r | lia | ].
      destruct (Z.eq_dec lo 0) as [-> | H0]; [cbn; lia | ].
      apply Z.lt_le_trans with 8; [ | lia]. apply Z.log2_lt_pow2; lia.
Qed.

Section UARTRoundTrip.
Context {D : Type} `{HIDDev D}.

(** A buffer of at most 510 bytes goes out in one frame. *)
Lemma UART_Write_one_frame (b : list Z) (d : D) :
  error_free (D := D) ->
  0 < len b <= 510 ->
  exists lo hi,
    written (log (fst (snd (run (UART.Write b) d UART.Write_init)))) = [lo :: hi :: b] /\
    is_byte lo /\ is_byte hi /\ lo + 256 * hi = len b.
Proof.
  intros Hef Hb.
  pose proof (UART_Write_frames_ok b d) as Hok.
  destruct (UART_Write_run b d Hef) as (s' & E & _ & Hpay & _ & Hne & Hfull).
  rewrite E in *. cbn [fst snd] in *.
  unfold payloads in Hpay.
  destruct (written (log (fst s'))) as [| f [| g r]].
  - cbn in Hpay. subst b. unfold len in Hb. cbn in Hb. lia.
  - cbn in Hpay. rewrite app_nil_r in Hpay.
    apply Forall_inv in Hok. rename Hok into Hf.
    destruct f as [| lo [| hi payload]]; try contradiction.
    simpl in Hpay. subst payload. destruct Hf as (Hlo & Hhi & Hsum).
    exists lo, hi. repeat split; try assumption; lia.
  - exfalso. cbn [removelast] in Hfull. apply Forall_inv in Hfull.
    apply Forall_inv_tail in Hne. apply Forall_inv in Hne.
    assert (Hl : len b = len (skipn 2 f ++ skipn 2 g ++ concat (map (skipn 2) r))).
    { rewrite <- Hpay. reflexivity. }
    unfold len in *. rewrite !length_app, !length_skipn in Hl. lia.
Qed.

(** X18. Over an error-free transport a buffer of 1 to 510 bytes is
    written as a single frame, and [UART.Read] into a buffer of the same
    length, handed that frame, returns the length and the bytes
    written. *)
Theorem UART_round_trip (b : list Z) (d : D) :
  error_free (D := D) ->
  0 < len b <= 510 ->
  Forall is_byte b ->
  exists f,
    written (log (fst (snd (run (UART.Write b) d UART.Write_init)))) = [f] /\
    forall (b' : list Z) (s : st D unit) (d1 : D),
      length b' = length b ->
      dev_Read (Dev (fst s)) (length b' + 2) = (d1, f, None) ->
      fst (UART.Read b' s) = Done (len b, b).
Proof.
  intros Hef Hb Hbytes.
  destruct (UART_Write_one_frame b d Hef Hb) as (lo & hi & Hw & Hlo & Hhi & Hsum).
  exists (lo :: hi :: b). split; [exact Hw | ].
  intros b' s d1 Hlen Hr. unfold UART.Read. cbv zeta.
  assert (Hb' : len b' = len b) by (unfold len; lia).
  rewrite Hb'. rewrite (gtb_false (len b) 510) by lia.
  replace (Z.to_nat (len b + 2)) with (length b' + 2)%nat by (unfold len; lia).
  unfold bind at 1. unfold Dev_Read. rewrite repeat_length, Hr.
  assert (Hfill : fill (repeat 0 (length b' + 2)) (lo :: hi :: b) = lo :: hi :: b).
  { unfold fill, copy. rewrite repeat_length, length_map.
    rewrite map_byte_id by (constructor; [exact Hlo | constructor; [exact Hhi | exact Hbytes]]).
    rewrite firstn_all2 by (cbn [length]; lia).
    rewrite skipn_all2 by (rewrite repeat_length; cbn [length]; lia).
    apply app_nil_r. }
  rewrite Hfill.
  unfold bind, get_at, must, ret.
  assert (Hl : len (lo :: hi :: b) = len b + 2) by (unfold len; cbn [length]; lia).
  rewrite Hl.
  rewrite (ltb_false 1 0), (leb_false (len b + 2) 1) by lia.
  rewrite (ltb_false 0 0), (leb_false (len b + 2) 0) by lia.
  change (Z.to_nat 1) with 1%nat. change (Z.to_nat 0) with 0%nat.
  cbn [orb nth_error].
  unfold is_byte in *. rewrite le16_value by lia. rewrite Hsum.
  rewrite (gtb_false (len b) (len b)) by lia.
  rewrite (sub_some b' 0 (len b)) by lia.
  rewrite (sub_some (lo :: hi :: b) 2 (len b + 2)) by lia.
  cbn [fst]. f_equal. f_equal.
  change (Z.to_nat 0) with 0%nat. change (Z.to_nat 2) with 2%nat. cbn [skipn].
  rewrite Z.sub_0_r. replace (len b + 2 - 2) with (len b) by lia.
  rewrite !firstn_all2 by (unfold len; lia).
  rewrite skipn_all2 by (unfold len; lia).
  unfold copy. rewrite firstn_all2, skipn_all2 by lia. now rewrite !app_nil_r.
Qed.
End UARTRoundTrip.

(** [UART_round_trip] on two bytes. *)
Lemma UART_round_trip_witness :
  error_free (D := Acking) /\
  0 < len [0x68; 0x69] <= 510 /\
  Forall is_byte [0x68; 0x69] /\
  exists f,
    written (log (fst (snd (run (UART.Write [0x68; 0x69]) acking UART.Write_init)))) = [f] /\
    forall (b' : list Z) (s : st Acking unit) (d1 : Acking),
      length b' = length [0x68; 0x69] ->
      dev_Read (Dev (fst s)) (length b' + 2) = (d1, f, None) ->
      fst (UART.Read b' s) = Done (len [0x68; 0x69], [0x68; 0x69]).
Proof.
  assert (Hef : error_free (D := Acking)) by (split; intros; reflexivity).
  assert (Hl : 0 < len [0x68; 0x69] <= 510) by (unfold len; cbn [length]; lia).
  assert (Hb : Forall is_byte [0x68; 0x69]) by (repeat constructor; unfold is_byte; lia).
  split; [exact Hef | ]. split; [exact Hl | ]. split; [exact Hb | ].
  exact (UART_round_trip [0x68; 0x69] acking Hef Hl Hb).
Defined.

(** ** SPI: the size of the packets *)

Section SPIFits.
Context {D : Type} `{HIDDev D}.
Implicit Types s : st D SPI.vars.

Lemma confirm_fit s :
  frames_fit s ->
  wp SPI.confirm
     (fun _ s' => frames_fit s' /\ slen (SPI.v_p (snd s')) = 5
                  /\ SPI.v_pos (snd s') = SPI.v_pos (snd s)
                  /\ SPI.v_olen (snd s') = SPI.v_olen (snd s))
     (fun _ s' => frames_fit s') s.
Proof.
  intros Hok. unfold SPI.confirm. destruct s as [[d l] v]. unfold frames_fit in *.
  st_simpl.
  wp_step. wp_step. wp_step. wp_step.
  destruct (reslice (SPI.v_p v) 5) as [p5 | ] eqn:Ers; [ | exact Hok].
  pose proof (reslice_slen _ _ _ Ers) as Hs5.
  wp_step. wp_step. wp_step. wp_step.
  assert (Hok' : Forall (fun f => 2 < len f <= SPI.maxDataLen) (written (l ++ [EvRead (length (live p5)) data]))).
  { rewrite written_app. cbn. now rewrite app_nil_r. }
  destruct err; [exact Hok' | ].
  st_simpl.
  repeat wp_step. st_simpl.
  destruct (get_at _ 2); [ | exact Hok']. wp_step. wp_step.
  destruct (get_at _ 3); [ | exact Hok']. wp_step.
  destruct (negb (z =? 196) && negb (z0 =? 1)).
  - wp_step. exact Hok'.
  - repeat wp_step. st_simpl. repeat split; try exact Hok'.
    unfold slen, len in *. cbn [live]. rewrite fill_length. exact Hs5.
Qed.

Lemma write_fit (finish : bool) s :
  frames_fit s -> slen (SPI.v_p (snd s)) <= SPI.maxDataLen ->
  wp (SPI.write finish)
     (fun _ s' => frames_fit s' /\ slen (SPI.v_p (snd s')) <= 2
                  /\ SPI.v_pos (snd s') = SPI.v_pos (snd s)
                  /\ SPI.v_olen (snd s') = SPI.v_olen (snd s))
     (fun _ s' => frames_fit s') s.
Proof.
  intros Hok Hlen. unfold SPI.write. destruct s as [[d l] v].
  unfold frames_fit in *. st_simpl.
  change (slen (SPI.v_p v) <= 509) in Hlen.
  wp_step. wp_step.
  destruct (Z.leb_spec (slen (SPI.v_p v)) 2) as [Hle | Hgt].
  { wp_step. auto. }
  destruct (set_header (live (SPI.v_p v))
              (byte (Z.land (slen (SPI.v_p v) - 2) 255))
              (byte (Z.land (Z.shiftr (slen (SPI.v_p v) - 2) 8) 255)))
    as [l1 [E1 E2]]; [unfold slen in Hgt; lia | ].
  wp_step. wp_step. rewrite E1. wp_step. wp_step. rewrite E2.
  wp_step. wp_step. wp_step. wp_step.
  assert (Hok' : Forall (fun f => 2 < len f <= SPI.maxDataLen)
            (written (l ++ [EvWrite (byte (Z.land (slen (SPI.v_p v) - 2) 255)
               :: byte (Z.land (Z.shiftr (slen (SPI.v_p v) - 2) 8) 255)
               :: skipn 2 (live (SPI.v_p v)))]))).
  { rewrite written_app. apply Forall_app. split; [exact Hok | ].
    constructor; [ | constructor].
    change SPI.maxDataLen with 509.
    unfold slen, len in *. cbn [length]. rewrite length_skipn. lia. }
  destruct err; [exact Hok' | ].
  wp_step. wp_step. wp_step. wp_step.
  match goal with |- wp _ _ _ ?s0 => set (s1 := s0) end.
  assert (Hdrain : wp (when finish
               (sent <- local SPI.v_sent ;;
                while (Z.to_nat sent) (fun s => 0 <? SPI.v_sent (snd s)) SPI.confirm))
            (fun _ s' => frames_fit s'
                         /\ SPI.v_pos (snd s') = SPI.v_pos v
                         /\ SPI.v_olen (snd s') = SPI.v_olen v)
            (fun _ s' => frames_fit s') s1).
  { wp_step. destruct finish; [ | now unfold frames_fit].
    wp_step. wp_step.
    eapply wp_mono.
    - apply (wp_while_keeps
               (fun s' => frames_fit s'
                          /\ SPI.v_pos (snd s') = SPI.v_pos v
                          /\ SPI.v_olen (snd s') = SPI.v_olen v)
               (fun _ s' => frames_fit s')).
      + tauto.
      + intros s' [Hf [Hp Ho]] _.
        eapply wp_mono; [apply confirm_fit; exact Hf | | auto].
        intros a s'' (Hf' & _ & Hp' & Ho').
        repeat split; [exact Hf' | congruence | congruence].
      + now unfold frames_fit.
    - intros a s' [HH _]. exact HH.
    - auto. }
  apply wp_bind. eapply wp_mono; [exact Hdrain | | auto].
  intros a [[d2 l2] v2] (Hf & Hp & Ho). st_simpl.
  wp_step. wp_step. wp_step. wp_step.
  destruct (reslice (SPI.v_p v2) 2) as [p2 | ] eqn:Ers; [ | exact Hf].
  wp_step. st_simpl. repeat split; try assumption.
  rewrite (reslice_slen _ _ _ Ers). lia.
Qed.


Lemma body_fit (w : list Z) s :
  spi_fit s ->
  wp (SPI.body w (len w)) (fun _ s' => spi_fit s') (fun _ s' => frames_fit s') s.
Proof.
  intros [Hok Hlen]. unfold SPI.body. destruct s as [[d l] v].
  unfold spi_fit, frames_fit in *. st_simpl.
  change (slen (SPI.v_p v) <= 509) in Hlen.
  wp_step. wp_step. wp_step. wp_step. wp_step.
  eapply wp_mono with
    (Q := fun _ s' => frames_fit s' /\ slen (SPI.v_p (snd s')) <= 514)
    (R := fun _ s' => frames_fit s'); [ | | auto].
  { wp_step. destruct (SPI.v_olen v =? 0).
    - cbv zeta. wp_step. wp_step. wp_step. unfold frames_fit. st_simpl.
      split; [exact Hok | ]. rewrite slen_append. change (len _) with 5. lia.
    - unfold frames_fit. st_simpl. split; [exact Hok | lia]. }
  intros a [[d1 l1] v1] [Hok1 Hlen1]. unfold frames_fit in Hok1. st_simpl.
  wp_step. wp_step. cbv zeta.
  set (dlen := if _ >? SPI.maxOpLen then _ else _).
  assert (Hd : slen (SPI.v_p v1) + dlen <= 509).
  { subst dlen. unfold SPI.maxDataLen.
    destruct (Z.gtb_spec (slen (SPI.v_p v1) + (len w - SPI.v_pos v)) 509);
      match goal with |- context [if ?b then _ else _] => destruct b eqn:E end;
      zbool; lia. }
  wp_step. wp_step.
  destruct (sub w (SPI.v_pos v) (SPI.v_pos v + dlen)) as [data | ] eqn:Esub; [ | exact Hok1].
  apply sub_length in Esub. destruct Esub as [Hdata _].
  wp_step. wp_step. wp_step. wp_step.
  assert (Hlen2 : slen (append (SPI.v_p v1) data) <= 509) by (rewrite slen_append; lia).
  wp_step.
  eapply wp_mono with
    (Q := fun _ s' => frames_fit s' /\ slen (SPI.v_p (snd s')) <= 509)
    (R := fun _ s' => frames_fit s'); [ | | auto].
  { wp_step. destruct (slen (append (SPI.v_p v1) data) >=? SPI.maxDataLen).
    - eapply wp_mono; [apply write_fit | | auto].
      + exact Hok1.
      + st_simpl. exact Hlen2.
      + intros a' s' (Hf & Hs & _). split; [exact Hf | lia].
    - unfold frames_fit. st_simpl. auto. }
  intros a' [[d2 l2] v2] [Hok2 Hlen3]. unfold frames_fit in Hok2. st_simpl.
  wp_step. wp_step. wp_step. wp_step. wp_step.
  destruct (SPI.v_olen v + dlen =? SPI.maxOpLen).
  - wp_step. eapply wp_mono; [apply write_fit | | auto].
    + exact Hok2.
    + st_simpl. exact Hlen3.
    + intros a'' [[d3 l3] v3] (Hf & Hs & _). unfold frames_fit in Hf. st_simpl.
      wp_step. wp_step. wp_step. wp_step.
      destruct (reslice (SPI.v_p v3) 0) as [p0 | ] eqn:Ers; [ | exact Hf].
      wp_step. wp_step. wp_step. st_simpl.
      split; [exact Hf | ]. rewrite (reslice_slen _ _ _ Ers). change SPI.maxDataLen with 509. lia.
  - st_simpl. split; [exact Hok2 | exact Hlen3].
Qed.

Lemma SPI_packets_fit_run (w r : list Z) (d : D) :
  Forall (fun f => 2 < len f <= SPI.maxDataLen) (written (log (fst (snd (run (SPI.SPI w r) d SPI.init))))).
Proof.
  unfold run. apply (wp_run _ (fun s => Forall (fun f => 2 < len f <= SPI.maxDataLen) (written (log (fst s))))).
  unfold SPI.SPI. destruct (negb (len r =? 0)).
  - wp_step. constructor.
  - cbv zeta. wp_step.
    eapply wp_mono; [ apply (wp_while_keeps spi_fit (fun _ s' => frames_fit s')) | | auto].
    + now intros s [Hf _].
    + intros s Hs _. now apply body_fit.
    + split; [constructor | ]. st_simpl. vm_compute. discriminate.
    + intros a s [[Hf Hs] _].
      eapply wp_mono; [apply write_fit | | auto]; try assumption; try lia.
      now intros a' s' [Hf' _].
Qed.
End SPIFits.

Section SPIFitsAll.
Context {D : Type} `{HIDDev D}.

(** X19. Every packet [SPI] sends, for any buffers, on any device and
    however the call ends, has more than 2 and at most 509 bytes: it
    carries data and fits the 512-byte packet of the device. *)
Theorem SPI_packets_fit (w r : list Z) (d : D) :
  Forall (fun f => 2 < len f <= SPI.maxDataLen)
         (written (log (fst (snd (run (SPI.SPI w r) d SPI.init))))).
Proof. exact (SPI_packets_fit_run w r d). Qed.
End SPIFitsAll.

(** ** SPI: a buffer that fits one packet *)

Section SPISmall.
Context {D : Type} `{HIDDev D}.
Implicit Types s : st D SPI.vars.

Lemma SPI_small_io (w : list Z) (d : D) (l0 : list event) :
  error_free (D := D) ->
  0 < len w < 504 ->
  exists data,
    let ack := fill (firstn 5 (spi_packet w)) data in
    log (fst (snd (SPI.SPI w [] (mkIO d l0, SPI.init))))
      = l0 ++ [EvWrite (spi_packet w); EvRead 5 data] /\
    fst (SPI.SPI w [] (mkIO d l0, SPI.init)) =
      if negb (nth 2 ack 0 =? 0xc4) && negb (nth 3 ack 0 =? 0x01)
      then Fail ErrInvalidResponse else Done tt.
Proof.
  intros [Hew Her] Hw.
  assert (Hwp : wp (SPI.SPI w [])
    (fun _ s' => exists data,
       log (fst s') = l0 ++ [EvWrite (spi_packet w); EvRead 5 data] /\
       (negb (nth 2 (fill (firstn 5 (spi_packet w)) data) 0 =? 0xc4)
        && negb (nth 3 (fill (firstn 5 (spi_packet w)) data) 0 =? 0x01)) = false)
    (fun x s' => exists data,
       log (fst s') = l0 ++ [EvWrite (spi_packet w); EvRead 5 data] /\
       (negb (nth 2 (fill (firstn 5 (spi_packet w)) data) 0 =? 0xc4)
        && negb (nth 3 (fill (firstn 5 (spi_packet w)) data) 0 =? 0x01)) = true /\
       x = AFail ErrInvalidResponse)
    (mkIO d l0, SPI.init)).
  { unfold SPI.SPI. change (negb (len [] =? 0)) with false. cbv iota zeta.
    destruct (length w) as [| fuel] eqn:Hlw; [unfold len in Hw; lia | ].
    wp_step. unfold SPI.init.
    apply wp_while_step; [st_simpl; apply Z.ltb_lt; lia | ].
    unfold SPI.body at 1. wp_pure. wp_step. cbn [Z.eqb]. wp_pure.
    change SPI.maxOpLen with 31750. change SPI.maxDataLen with 509.
    rewrite slen_append, slen_make0. change (len [_; _; _; _; _]) with 5.
    rewrite Z.sub_0_r. zdecide.
    rewrite (sub_some w 0 (0 + len w)) by lia.
    change (Z.to_nat 0) with 0%nat. cbn [skipn].
    rewrite firstn_all2 by (unfold len in *; lia). wp_pure.
    set (hdr := [0; 0; SPI.CmdSPIWrite; Z.land (byte (len w)) 255;
                 Z.land (byte (Z.shiftr (len w) 8)) 255]).
    rewrite !slen_append, slen_make0. change (len hdr) with 5.
    zdecide. wp_step. wp_pure. wp_step. zdecide. wp_pure.
    apply wp_while_done; [st_simpl; apply Z.ltb_ge; lia | ].
    unfold SPI.write. wp_pure.
    rewrite !slen_append, slen_make0. change (len hdr) with 5.
    zdecide. replace (0 + 5 + len w - 2) with (len w + 3) by lia.
    subst hdr. cbn [make repeat app live spare append].
    rewrite set_at_0 by (unfold len in *; cbn [length]; lia). wp_pure.
    rewrite skipn_1_cons.
    rewrite set_at_1 by (unfold len in *; cbn [length]; lia). wp_pure.
    rewrite skipn_1_cons.
    fold (spi_packet w).
    wp_write d1 err Hw1.
    match type of Hw1 with dev_Write _ ?F = _ => pose proof (Hew d F) as He1 end.
    rewrite Hw1 in He1. cbn [snd] in He1. subst err.
    wp_pure. wp_step. wp_pure.
    change (Z.to_nat (0 + 1)) with 1%nat.
    apply wp_while_step; [st_simpl; reflexivity | ].
    unfold SPI.confirm at 1. wp_pure.
    match goal with |- wp (must (reslice ?P 5)) _ _ _ =>
      destruct (reslice_some P 5) as (p5 & E5 & Hs5 & Hc5 & Hl5);
        [unfold scap, len; cbn [live length]; lia | ]
    end.
    rewrite E5. wp_pure.
    assert (Hlive : live p5 = firstn 5 (spi_packet w)).
    { rewrite Hl5. cbn [live spare]. unfold spi_packet.
      change (Z.to_nat 5) with 5%nat. reflexivity. }
    rewrite Hlive.
    assert (Hf5 : length (firstn 5 (spi_packet w)) = 5%nat) by reflexivity.
    wp_read d2 data err Hr2. rewrite Hf5 in *.
    pose proof (Her d1 5%nat) as He2. rewrite Hr2 in He2. cbn [snd] in He2. subst err.
    wp_pure.
    set (ack := fill (firstn 5 (spi_packet w)) data).
    assert (Hack : len ack = 5) by (unfold len, ack; rewrite fill_length, Hf5; reflexivity).
    rewrite !get_at_nth by lia.
    change (Z.to_nat 2) with 2%nat. change (Z.to_nat 3) with 3%nat.
    wp_pure.
    destruct (negb (nth 2 ack 0 =? 196) && negb (nth 3 ack 0 =? 1)) eqn:Eack.
    - wp_step. exists data. split; [now rewrite <- app_assoc | split; [exact Eack | reflexivity]].
    - wp_pure. change (0 + 1 - 1) with 0.
      apply wp_while_done; [st_simpl; reflexivity | ].
      wp_pure.
      match goal with |- wp (must (reslice ?P 2)) _ _ _ =>
        destruct (reslice_some P 2) as (p2 & -> & _);
          [unfold scap, len in *; cbn [live spare length]; lia | ]
      end.
      wp_pure. exists data. split; [now rewrite <- app_assoc | exact Eack]. }
  unfold wp in Hwp.
  destruct (SPI.SPI w [] (mkIO d l0, SPI.init)) as [[[] | e | | ] s'];
    cbn [fst snd]; destruct Hwp as (data & Hl & Hk); exists data; cbv zeta.
  - rewrite Hk. auto.
  - destruct Hk as [Hk [= ->]]. rewrite Hk. auto.
  - destruct Hk as [_ [=]].
  - destruct Hk as [_ [=]].
Qed.

Lemma SPI_small_run (w : list Z) (d : D) :
  error_free (D := D) ->
  0 < len w < 504 ->
  exists data,
    let ack := fill (firstn 5 (spi_packet w)) data in
    log (fst (snd (run (SPI.SPI w []) d SPI.init)))
      = [EvWrite (spi_packet w); EvRead 5 data] /\
    fst (run (SPI.SPI w []) d SPI.init) =
      if negb (nth 2 ack 0 =? 0xc4) && negb (nth 3 ack 0 =? 0x01)
      then Fail ErrInvalidResponse else Done tt.
Proof. intros Hef Hw. exact (SPI_small_io w d [] Hef Hw). Qed.

(** X20. Over an error-free transport a write buffer of 1 to 503 bytes
    goes out as one packet, the operation header and the data, followed
    by one 5-byte acknowledgement read; the call fails with
    [ErrInvalidResponse] exactly when byte 2 of the acknowledgement is
    not [0xc4] and byte 3 is not [0x01] either, and returns nil
    otherwise. *)
Theorem SPI_small_write (w : list Z) (d : D) :
  error_free (D := D) ->
  0 < len w < 504 ->
  exists data,
    let ack := fill (firstn 5 (spi_packet w)) data in
    log (fst (snd (run (SPI.SPI w []) d SPI.init)))
      = [EvWrite (spi_packet w); EvRead 5 data] /\
    fst (run (SPI.SPI w []) d SPI.init) =
      if negb (nth 2 ack 0 =? 0xc4) && negb (nth 3 ack 0 =? 0x01)
      then Fail ErrInvalidResponse else Done tt.
Proof. exact (SPI_small_run w d). Qed.
End SPISmall.

(** ** spi-flash: the calls that read *)

Section FlashProbes.
Context {D : Type} `{HIDDev D}.

(** [SPI] called with a read buffer: the error comes back and nothing
    else happens. *)
Lemma call_SPI_read {L : Type} (w r : list Z) (s : st D L) :
  r <> [] ->
  attempt (call SPI.init (SPI.SPI w r)) s = (Done (Some ErrUnsupported), s).
Proof.
  intros Hr. unfold attempt, call, SPI.SPI. destruct r as [| x r]; [contradiction | ].
  unfold len. cbn [length].
  destruct (Z.eqb_spec (Z.of_nat (S (length r))) 0) as [E | E]; [lia | ].
  cbn. destruct s as [i l]. reflexivity.
Qed.

(** [SetCS] never panics, so [attempt] always hands its result over. *)
Lemma attempt_SetCS (enable : bool) (s : st D unit) :
  exists e, attempt (SPI.SetCS enable) s = (Done e, snd (attempt (SPI.SetCS enable) s)).
Proof.
  unfold attempt, SPI.SetCS, SPI.setCS. cbv zeta. change (5 + 5 * 0) with 5.
  destruct enable; cbn [set_at]; unfold bind, must, ret; cbn -[Dev_Write];
    rewrite Dev_Write_run; destruct (snd (dev_Write _ _)); eexists; reflexivity.
Qed.

(** A transfer with a read buffer between the two chip-select calls: what
    is left of it is the two chip-select calls. *)
Lemma transfer_read {A : Type} (w r : list Z) (k : option error -> M (st D unit) A)
      (s : st D unit) :
  r <> [] ->
  (attempt (SPI.SetCS true) ;;
   err <- attempt (call SPI.init (SPI.SPI w r)) ;;
   attempt (SPI.SetCS false) ;;
   k err) s
  = (attempt (SPI.SetCS true) ;; attempt (SPI.SetCS false) ;; k (Some ErrUnsupported)) s.
Proof.
  intros Hr. unfold bind at 1 4.
  destruct (attempt_SetCS true s) as [e ->].
  cbv beta iota. unfold bind at 1. rewrite call_SPI_read by exact Hr. reflexivity.
Qed.

Lemma toggle_done {A : Type} (a : A) (s : st D unit) :
  (attempt (SPI.SetCS true) ;; attempt (SPI.SetCS false) ;; ret a) s
  = (Done a, snd ((attempt (SPI.SetCS true) ;; attempt (SPI.SetCS false)) s)).
Proof.
  unfold bind.
  destruct (attempt_SetCS true s) as [e ->].
  destruct (attempt_SetCS false (snd (attempt (SPI.SetCS true) s))) as [e' ->].
  reflexivity.
Qed.

(** X21. [Flash.Capacity] returns 0 on every device: its transfer has
    a read buffer, which [SPI] refuses, so all that reaches the device
    is the chip select asserted and released. *)
Theorem Flash_Capacity_zero (s : st D unit) :
  Flash.Capacity s =
    (Done 0, snd ((attempt (SPI.SetCS true) ;; attempt (SPI.SetCS false)) s)).
Proof.
  unfold Flash.Capacity. cbv zeta.
  rewrite transfer_read by discriminate. apply toggle_done.
Qed.

(** X22. [Flash.IsBusy] returns false on every device, for the same
    reason: the status register is never read. *)
Theorem Flash_IsBusy_false (s : st D unit) :
  Flash.IsBusy s =
    (Done false, snd ((attempt (SPI.SetCS true) ;; attempt (SPI.SetCS false)) s)).
Proof.
  unfold Flash.IsBusy. cbv zeta.
  rewrite transfer_read by discriminate. apply toggle_done.
Qed.

Lemma Flash_IsBusy_run (s : st D unit) :
  Flash.IsBusy s =
    (Done false, snd ((attempt (SPI.SetCS true) ;; attempt (SPI.SetCS false)) s)).
Proof.
  unfold Flash.IsBusy. cbv zeta.
  rewrite transfer_read by discriminate. apply toggle_done.
Qed.

(** X23. [Flash.Read] into a buffer that is not empty fails with
    [ErrUnsupported]; all that reaches the device is the chip select
    asserted and released. *)
Theorem Flash_Read_unsupported (p : list Z) (s : st D unit) :
  p <> [] ->
  Flash.Read p s =
    (Fail ErrUnsupported, snd ((attempt (SPI.SetCS true) ;; attempt (SPI.SetCS false)) s)).
Proof.
  intros Hp. unfold Flash.Read. cbv zeta.
  rewrite transfer_read by exact Hp.
  unfold bind, fail.
  destruct (attempt_SetCS true s) as [e ->].
  destruct (attempt_SetCS false (snd (attempt (SPI.SetCS true) s))) as [e' ->].
  reflexivity.
Qed.
End FlashProbes.

(** [Flash_Read_unsupported] with a buffer of one byte. *)
Lemma Flash_Read_unsupported_witness :
  [0x00] <> [] /\
  Flash.Read [0x00] (mkIO acking [], tt) =
    (Fail ErrUnsupported,
     snd ((attempt (SPI.SetCS true) ;; attempt (SPI.SetCS false)) (mkIO acking [], tt))).
Proof.
  split; [discriminate | ]. apply Flash_Read_unsupported. discriminate.
Defined.

(** ** spi-flash: Erase *)

Section FlashErase.
Context {D : Type} `{HIDDev D}.

Lemma attempt_SetCS_ok (enable : bool) (s : st D unit) :
  error_free (D := D) ->
  exists d', attempt (SPI.SetCS enable) s
             = (Done None, (mkIO d' (log (fst s) ++ [EvWrite (cs0_frame enable)]), snd s)).
Proof.
  intros [Hew _]. unfold attempt, SPI.SetCS, SPI.setCS. cbv zeta. change (5 + 5 * 0) with 5.
  assert (E : set_at SPI.cs_frame 5 (if enable then 128 else 192) = Some (cs0_frame enable))
    by (destruct enable; reflexivity).
  unfold bind. rewrite E. cbv beta iota delta [must ret]. rewrite Dev_Write_run.
  rewrite Hew. eexists. reflexivity.
Qed.

Lemma attempt_SPI_small (w : list Z) (s : st D unit) :
  error_free (D := D) ->
  0 < len w < 504 ->
  exists d' data err,
    attempt (call SPI.init (SPI.SPI w [])) s
    = (Done err, (mkIO d' (log (fst s) ++ [EvWrite (spi_packet w); EvRead 5 data]), snd s)) /\
    (err = None \/ err = Some ErrInvalidResponse).
Proof.
  intros Hef Hw. destruct s as [[d l] u].
  destruct (SPI_small_io w d l Hef Hw) as (data & Hl & Ho). cbv zeta in Ho.
  unfold attempt, call. cbn [fst snd].
  destruct (SPI.SPI w [] (mkIO d l, SPI.init)) as [o [[d' l'] v']]. cbn [fst snd log] in *.
  subst l'. exists d', data.
  destruct (negb _ && negb _); subst o; eexists; (split; [reflexivity | auto]).
Qed.

(** A transfer of a short buffer between the two chip-select calls. *)
Lemma transfer_small {A : Type} (w : list Z) (k : option error -> M (st D unit) A)
      (s : st D unit) :
  error_free (D := D) ->
  0 < len w < 504 ->
  exists d' data err,
    (attempt (SPI.SetCS true) ;;
     err <- attempt (call SPI.init (SPI.SPI w [])) ;;
     attempt (SPI.SetCS false) ;;
     k err) s
    = k err (mkIO d' (log (fst s) ++ [EvWrite (cs0_frame true); EvWrite (spi_packet w);
                                      EvRead 5 data; EvWrite (cs0_frame false)]), snd s) /\
    (err = None \/ err = Some ErrInvalidResponse).
Proof.
  intros Hef Hw.
  destruct (attempt_SetCS_ok true s Hef) as [d1 E1].
  destruct (attempt_SPI_small w (mkIO d1 (log (fst s) ++ [EvWrite (cs0_frame true)]), snd s) Hef Hw)
    as (d2 & data & err & E2 & Herr).
  cbn [fst snd log] in E2.
  match type of E2 with _ = (_, ?s2) =>
    destruct (attempt_SetCS_ok false s2 Hef) as [d3 E3] end.
  cbn [fst snd log] in E3.
  exists d3, data, err. split; [ | exact Herr].
  unfold bind at 1. rewrite E1. unfold bind at 1. rewrite E2.
  unfold bind at 1. rewrite E3.
  rewrite <- !app_assoc. reflexivity.
Qed.

Lemma Flash_Erase_eq (fuel : nat) (s : st D unit) :
  error_free (D := D) ->
  (1 <= fuel)%nat ->
  exists o i',
    Flash.Erase fuel s = (o, (i', snd s)) /\
    (o = Done tt \/ o = Fail ErrInvalidResponse) /\
    reads (log i') = reads (log (fst s)) ++ [5%nat; 5%nat] /\
    written (log i') =
      written (log (fst s))
      ++ [cs0_frame true; spi_packet [0x06]; cs0_frame false;
          cs0_frame true; spi_packet [0xc7]; cs0_frame false]
      ++ match o with
         | Done _ => [cs0_frame true; cs0_frame false]
         | _ => []
         end.
Proof.
  intros Hef Hfuel. unfold Flash.Erase, Flash.WriteEnable. cbv zeta.
  change (if negb true then 4 else 6) with 6.
  unfold bind at 1.
  destruct (transfer_small [6] (fun _ => ret tt) s Hef) as (d1 & data1 & err1 & E1 & _);
    [unfold len; cbn [length]; lia | ].
  match type of E1 with ?lhs = _ =>
    match goal with |- context [match ?c with pair _ _ => _ end] =>
      change c with lhs end end.
  rewrite E1. unfold ret at 1. cbv beta iota.
  set (s1 := (mkIO d1 _, snd s)).
  destruct (transfer_small [199]
              (fun err => match err with Some e => fail e | None => poll fuel Flash.IsBusy end)
              s1 Hef) as (d2 & data2 & err2 & E2 & Herr2);
    [unfold len; cbn [length]; lia | ].
  rewrite E2. subst s1. cbn [fst snd log].
  set (l2 := (log (fst s) ++ _) ++ _).
  assert (Hr2 : reads l2 = reads (log (fst s)) ++ [5%nat; 5%nat]).
  { subst l2. rewrite !reads_app. cbn. rewrite <- app_assoc. reflexivity. }
  assert (Hw2 : written l2 = written (log (fst s))
                  ++ [cs0_frame true; spi_packet [6]; cs0_frame false;
                      cs0_frame true; spi_packet [199]; cs0_frame false]).
  { subst l2. rewrite !written_app. cbn. rewrite <- app_assoc. reflexivity. }
  clearbody l2.
  destruct Herr2 as [-> | ->].
  - destruct fuel as [| fuel]; [lia | ]. cbn [poll]. unfold bind at 1.
    rewrite Flash_IsBusy_run. cbv beta iota.
    unfold bind.
    destruct (attempt_SetCS_ok true (mkIO d2 l2, snd s) Hef) as [d3 E3]. rewrite E3.
    match goal with |- context [attempt (SPI.SetCS false) ?s3] =>
      destruct (attempt_SetCS_ok false s3 Hef) as [d4 E4] end.
    rewrite E4. cbv beta iota. unfold ret. cbn [fst snd log].
    eexists. eexists. split; [reflexivity | ]. split; [left; reflexivity | ].
    cbn [log]. rewrite !reads_app, !written_app, Hr2, Hw2. cbn. rewrite !app_nil_r.
    split; [reflexivity | ]. rewrite <- !app_assoc. reflexivity.
  - unfold fail. eexists. eexists. split; [reflexivity | ]. split; [right; reflexivity | ].
    cbn [log]. rewrite Hr2, Hw2, app_nil_r. split; reflexivity.
Qed.

Lemma Flash_Erase_run (fuel : nat) (s : st D unit) :
  error_free (D := D) ->
  (1 <= fuel)%nat ->
  let res := Flash.Erase fuel s in
  (fst res = Done tt \/ fst res = Fail ErrInvalidResponse) /\
  reads (log (fst (snd res))) = reads (log (fst s)) ++ [5%nat; 5%nat] /\
  written (log (fst (snd res))) =
    written (log (fst s))
    ++ [cs0_frame true; spi_packet [0x06]; cs0_frame false;
        cs0_frame true; spi_packet [0xc7]; cs0_frame false]
    ++ match fst res with
       | Done _ => [cs0_frame true; cs0_frame false]
       | _ => []
       end.
Proof.
  intros Hef Hfuel. cbv zeta.
  destruct (Flash_Erase_eq fuel s Hef Hfuel) as (o & i' & -> & Ho & Hr & Hw).
  cbn [fst snd]. auto.
Qed.

(** X24. Over an error-free transport [Flash.Erase] sends the write
    enable and the chip erase commands, each between the two chip-select
    frames and each acknowledged by one read; it fails only with
    [ErrInvalidResponse]; otherwise it polls the busy flag once, which
    toggles the chip select and reads nothing, and returns: it does not
    wait for the erase to end, and one poll is all it needs. *)
Theorem Flash_Erase_does_not_wait (fuel : nat) (s : st D unit) :
  error_free (D := D) ->
  (1 <= fuel)%nat ->
  let res := Flash.Erase fuel s in
  (fst res = Done tt \/ fst res = Fail ErrInvalidResponse) /\
  reads (log (fst (snd res))) = reads (log (fst s)) ++ [5%nat; 5%nat] /\
  written (log (fst (snd res))) =
    written (log (fst s))
    ++ [cs0_frame true; spi_packet [0x06]; cs0_frame false;
        cs0_frame true; spi_packet [0xc7]; cs0_frame false]
    ++ match fst res with
       | Done _ => [cs0_frame true; cs0_frame false]
       | _ => []
       end.
Proof. exact (Flash_Erase_run fuel s). Qed.
End FlashErase.

(** ** I2C: a short read *)

Lemma skipn_repeat_sub {A} (x : A) (k n : nat) :
  skipn k (repeat x n) = repeat x (n - k).
Proof.
  revert n. induction k as [| k IH]; intros n.
  - now rewrite Nat.sub_0_r.
  - destruct n as [| n]; [reflexivity | ]. cbn [repeat skipn]. apply IH.
Qed.

(** Bring the slices built by [append] to the list they hold and the
    zeros left behind it. *)
Ltac norm_slice :=
  unfold append, make; cbn [live spare app length];
  change (@repeat Z 0 0) with (@nil Z); cbn [app];
  rewrite ?skipn_repeat_sub; cbn [Nat.sub].

Lemma ssub_exact (p : slice) (a b : Z) :
  0 <= a <= b -> b <= scap p ->
  ssub p a b = Some (firstn (Z.to_nat (b - a)) (skipn (Z.to_nat a) (live p ++ spare p))).
Proof.
  intros Hab Hb. unfold ssub.
  destruct (Z.ltb_spec a 0); [lia | ].
  destruct (Z.ltb_spec b a); [lia | ].
  destruct (Z.ltb_spec (scap p) b); [lia | ]. reflexivity.
Qed.

(** [copy(r[0:n], p[3:3+n])] on a buffer [r] of [n] bytes and a response
    [ack] of [n + 3] bytes. *)
Lemma copy_response (r0 ack sp : list Z) :
  len ack = len r0 + 3 ->
  firstn (Z.to_nat 0) r0
  ++ copy (firstn (Z.to_nat (0 + (0 + len r0) - 0)) (skipn (Z.to_nat 0) r0))
          (firstn (Z.to_nat (2 + 1 + (0 + len r0) - (2 + 1)))
                  (skipn (Z.to_nat (2 + 1)) (ack ++ sp)))
  ++ skipn (Z.to_nat (0 + (0 + len r0))) r0
  = firstn (length r0) (skipn 3 ack).
Proof.
  intros Hack. change (Z.to_nat 0) with 0%nat. change (Z.to_nat (2 + 1)) with 3%nat.
  replace (Z.to_nat (0 + (0 + len r0) - 0)) with (length r0) by (unfold len; lia).
  replace (Z.to_nat (2 + 1 + (0 + len r0) - (2 + 1))) with (length r0) by (unfold len; lia).
  replace (Z.to_nat (0 + (0 + len r0))) with (length r0) by (unfold len; lia).
  change (skipn 0 r0) with r0. change (firstn 0 r0) with (@nil Z). cbn [app].
  rewrite (firstn_all r0), (skipn_all r0), app_nil_r.
  assert (Hl : length (skipn 3 ack) = length r0).
  { rewrite length_skipn. unfold len in Hack. lia. }
  rewrite skipn_app, firstn_app, Hl, Nat.sub_diag. cbn [firstn]. rewrite app_nil_r.
  unfold copy. rewrite length_firstn, Hl, Nat.min_id, firstn_firstn, Nat.min_id.
  rewrite skipn_all. apply app_nil_r.
Qed.

Section I2CSmall.
Context {D : Type} `{HIDDev D}.
Implicit Types s : st D I2C.vars.

Lemma I2C_small_read_wp (addr : Z) (r0 : list Z) (d : D) :
  error_free (D := D) ->
  0 < len r0 <= 63 ->
  wp (I2C.I2C addr [])
     (fun _ s' => exists data,
        let ack := fill (i2c_response_buffer (i2c_read_frame addr (len r0)) (len r0 + 3)) data in
        log (fst s') = [EvWrite (i2c_read_frame addr (len r0));
                        EvRead (Z.to_nat (len r0 + 3)) data] /\
        nth 2 ack 0 = 0x01 /\
        I2C.v_r (snd s') = firstn (length r0) (skipn 3 ack))
     (fun x s' => exists data,
        let ack := fill (i2c_response_buffer (i2c_read_frame addr (len r0)) (len r0 + 3)) data in
        log (fst s') = [EvWrite (i2c_read_frame addr (len r0));
                        EvRead (Z.to_nat (len r0 + 3)) data] /\
        nth 2 ack 0 <> 0x01 /\
        I2C.v_r (snd s') = r0 /\ x = AFail ErrI2CRead)
     (mkIO d [], I2C.init r0).
Proof.
  intros [Hew Her] Hr. unfold I2C.I2C. cbv zeta.
  change (negb (len [] =? 0)) with false. unfold I2C.init.
  wp_pure. wp_step. wp_pure.
  rewrite (eqb_false (len r0) 0) by lia. cbn [negb]. wp_step. wp_pure.
  destruct (length r0) as [| fuel] eqn:Hlr; [unfold len in Hr; lia | ].
  apply wp_while_step; [st_simpl; apply gtb_true; lia | ].
  unfold I2C.read_body at 1. wp_pure. cbv zeta.
  change I2C.maxLen with 63. change I2C.maxPacketLen with 512.
  zdecide.
  wp_step. wp_pure. change (64 =? 63) with false. cbv iota.
  destruct (len r0 >? 1) eqn:Hgt1.
  all: wp_pure; wp_step; cbn [Z.eqb Pos.eqb]; wp_pure; wp_step; wp_pure.
  all: rewrite Z.sub_diag.
  all: apply wp_while_done; [st_simpl; reflexivity | ].
  all: wp_pure; wp_step; cbn [negb]; wp_pure.
  all: unfold I2C.pack at 1; wp_pure.
  all: cbn [app]; rewrite slen_make0; change I2C.maxPacketLen with 512.
  all: match goal with |- context [len ?l] =>
         let n := eval cbv in (len l) in change (len l) with n end.
  all: change (512 - 2) with 510; zdecide.
  all: wp_step; wp_pure; rewrite slen_make0; zdecide; wp_step; wp_pure.
  all: unfold I2C.pack at 1; wp_pure.
  all: norm_slice; unfold slen, len; cbn [live length]; change I2C.maxPacketLen with 512;
       change (512 - 2) with 510; zdecide.
  all: wp_step; wp_pure; unfold slen, len; cbn [live length]; zdecide; wp_step; wp_pure.
  all: norm_slice.
  all: unfold I2C.write; wp_pure; cbv zeta; norm_slice.
  all: rewrite set_at_0 by (unfold len; cbn [length]; lia); wp_pure; rewrite skipn_1_cons.
  all: rewrite set_at_1 by (unfold len; cbn [length]; lia); wp_pure; rewrite skipn_1_cons.
  all: unfold slen; cbn [live].
  all: match goal with |- wp (Dev_Write ?f) _ _ _ => set (frame := f) end.
  all: wp_write d1 err Hw1; pose proof (Hew d frame) as He1; rewrite Hw1 in He1;
       cbn [snd] in He1; subst err.
  all: wp_pure; zdecide; wp_step.
  all: replace (2 + (0 + (0 + Z.of_nat (length r0)) + 1)) with (len r0 + 3) by (unfold len; lia).
  all: match goal with |- wp (bind (must (reslice ?P ?n)) _) _ _ _ =>
         destruct (reslice_some P n) as (p3 & E3 & Hs3 & Hc3 & Hl3);
           [unfold scap, len in *; cbn [live spare length]; rewrite repeat_length; lia | ]
       end.
  all: cbn [live spare] in Hl3.
  all: wp_step; rewrite E3; wp_pure.
  all: assert (Hframe : i2c_read_frame addr (len r0) = frame)
         by (unfold i2c_read_frame; rewrite Hgt1; reflexivity).
  all: assert (Hbuf : live p3 = i2c_response_buffer (i2c_read_frame addr (len r0)) (len r0 + 3))
         by (rewrite Hl3, Hframe; reflexivity).
  all: assert (Hlen3 : length (live p3) = Z.to_nat (len r0 + 3))
         by (unfold slen, len in Hs3; unfold len; lia).
  all: wp_read d2 data err Hr2; pose proof (Her d1 (length (live p3))) as He2;
       rewrite Hr2 in He2; cbn [snd] in He2; subst err.
  all: wp_pure.
  all: apply wp_while_done; [st_simpl; reflexivity | ].
  all: unfold I2C.confirm_reads; wp_pure; zdecide; wp_step; wp_pure; wp_step; wp_pure.
  all: set (ack := fill (live p3) data) in *.
  all: assert (Hack : len ack = len r0 + 3)
         by (unfold ack, len; rewrite fill_length, Hlen3; unfold len; lia).
  all: rewrite (get_at_nth ack 2) by lia; change (Z.to_nat 2) with 2%nat; wp_pure.
  all: change (Z.of_nat (length r0)) with (len r0) in *.
  all: assert (Hlog : ([] ++ [EvWrite frame]) ++ [EvRead (length (live p3)) data]
                      = [EvWrite (i2c_read_frame addr (len r0));
                         EvRead (Z.to_nat (len r0 + 3)) data])
         by (rewrite Hframe, Hlen3; reflexivity).
  all: rewrite Hlog.
  all: assert (Hackb : ack = fill (i2c_response_buffer (i2c_read_frame addr (len r0))
                                                      (len r0 + 3)) data)
         by (unfold ack; rewrite Hbuf; reflexivity).
  all: destruct (Z.eqb_spec (nth 2 ack 0) 1) as [Eack | Eack]; cbn [negb];
       [ | wp_step; exists data; cbv zeta; rewrite <- Hackb; auto ].
  all: wp_pure.
  all: rewrite (sub_some r0 0 (0 + (0 + len r0))) by lia.
  all: wp_pure.
  all: rewrite ssub_exact by (unfold scap, slen, len in *; cbn [live spare] in *; lia).
  all: cbn [live spare]; wp_pure.
  all: rewrite (copy_response r0 ack (spare p3) Hack).
  all: match goal with |- wp (must (reslice ?P 0)) _ _ _ =>
         destruct (reslice_some P 0) as (p0 & -> & _);
           [unfold scap, len; cbn [live spare]; lia | ]
       end.
  all: wp_pure; exists data; cbv zeta; rewrite <- Hackb.
  all: split; [reflexivity | split; [exact Eack | rewrite Hlr; reflexivity]].
Qed.

Lemma I2C_small_read_run (addr : Z) (r0 : list Z) (d : D) :
  error_free (D := D) ->
  0 < len r0 <= 63 ->
  let res := run (I2C.I2C addr []) d (I2C.init r0) in
  exists data,
    let ack := fill (i2c_response_buffer (i2c_read_frame addr (len r0)) (len r0 + 3)) data in
    log (fst (snd res)) = [EvWrite (i2c_read_frame addr (len r0));
                           EvRead (Z.to_nat (len r0 + 3)) data] /\
    if nth 2 ack 0 =? 0x01
    then fst res = Done tt /\ I2C.v_r (snd (snd res)) = firstn (length r0) (skipn 3 ack)
    else fst res = Fail ErrI2CRead /\ I2C.v_r (snd (snd res)) = r0.
Proof.
  intros Hef Hr. cbv zeta. pose proof (I2C_small_read_wp addr r0 d Hef Hr) as Hwp.
  unfold wp in Hwp. unfold run.
  destruct (I2C.I2C addr [] (mkIO d [], I2C.init r0)) as [[[] | e | | ] s'];
    cbv zeta in Hwp; destruct Hwp as (data & Hl & Hk); exists data; cbn [fst snd].
  - destruct Hk as [Hk Hv]. rewrite Hk. cbn [Z.eqb Pos.eqb]. auto.
  - destruct Hk as (Hk & Hv & [= ->]). rewrite (eqb_false _ _ Hk). auto.
  - destruct Hk as (_ & _ & [=]).
  - destruct Hk as (_ & _ & [=]).
Qed.

(** X25. Over an error-free transport [I2C(addr, nil, r)] with 1 to 63
    bytes to read sends the single frame [i2c_read_frame] and reads
    [len r + 3] bytes back. If byte 2 of the response is [0x01] the call
    returns nil and [r] holds the response from byte 3 on; otherwise it
    fails with [ErrI2CRead] and [r] is as it was. *)
Theorem I2C_small_read (addr : Z) (r0 : list Z) (d : D) :
  error_free (D := D) ->
  0 < len r0 <= 63 ->
  let res := run (I2C.I2C addr []) d (I2C.init r0) in
  exists data,
    let ack := fill (i2c_response_buffer (i2c_read_frame addr (len r0)) (len r0 + 3)) data in
    log (fst (snd res)) = [EvWrite (i2c_read_frame addr (len r0));
                           EvRead (Z.to_nat (len r0 + 3)) data] /\
    if nth 2 ack 0 =? 0x01
    then fst res = Done tt /\ I2C.v_r (snd (snd res)) = firstn (length r0) (skipn 3 ack)
    else fst res = Fail ErrI2CRead /\ I2C.v_r (snd (snd res)) = r0.
Proof. exact (I2C_small_read_run addr r0 d). Qed.
End I2CSmall.

(** ** I2C: a short write *)

Lemma firstn_skipn_S (l : list Z) (c n : nat) :
  (c < length l)%nat ->
  firstn (S n) (skipn c l) = nth c l 0 :: firstn n (skipn (S c) l).
Proof.
  revert c. induction l as [| x l IH]; intros c Hc; [cbn in Hc; lia | ].
  destruct c as [| c]; [reflexivity | ].
  cbn [skipn nth]. apply IH. cbn [length] in Hc. lia.
Qed.

Section I2CConfirm.
Context {D : Type} `{HIDDev D}.
Implicit Types s : st D I2C.vars.

(** The loop over the WRITE acknowledgements: it goes through the next
    [n] response bytes and stops at the first zero. *)
Lemma confirm_writes_wp (n : nat) : forall (fuel : nat) s,
  I2C.v_toWrite (snd s) = Z.of_nat n ->
  (n <= fuel)%nat ->
  0 <= I2C.v_cpos (snd s) ->
  I2C.v_cpos (snd s) + Z.of_nat n <= len (live (I2C.v_p (snd s))) ->
  wp (while fuel (fun s => I2C.v_toWrite (snd s) >? 0) I2C.confirm_write)
     (fun _ s' =>
        forallb (fun b => negb (b =? 0))
                (firstn n (skipn (Z.to_nat (I2C.v_cpos (snd s))) (live (I2C.v_p (snd s))))) = true /\
        s' = (fst s, I2C.set_cpos (I2C.v_cpos (snd s) + Z.of_nat n)
                       (I2C.set_toWrite 0 (snd s))))
     (fun x s' =>
        forallb (fun b => negb (b =? 0))
                (firstn n (skipn (Z.to_nat (I2C.v_cpos (snd s))) (live (I2C.v_p (snd s))))) = false /\
        x = AFail ErrI2CWrite /\ fst s' = fst s /\ I2C.v_r (snd s') = I2C.v_r (snd s))
     s.
Proof.
  induction n as [| n IH]; intros fuel s HtW Hfuel Hc Hlen.
  - apply wp_while_done; [cbv beta; rewrite HtW; reflexivity | ].
    split; [reflexivity | ].
    destruct s as [i [p tW tR rpos h r cpos dd pos rlen mR snd_]]. st_simpl. subst tW.
    f_equal. f_equal. lia.
  - destruct fuel as [| fuel]; [lia | ].
    apply wp_while_step; [cbv beta; rewrite HtW; apply gtb_true; lia | ].
    assert (Hg : get_at (live (I2C.v_p (snd s))) (I2C.v_cpos (snd s))
                 = Some (nth (Z.to_nat (I2C.v_cpos (snd s))) (live (I2C.v_p (snd s))) 0))
      by (apply get_at_nth; lia).
    unfold wp at 1. rewrite (confirm_write_run s _ Hg).
    rewrite firstn_skipn_S by (unfold len in Hlen; lia).
    cbn [forallb].
    destruct (Z.eqb_spec (nth (Z.to_nat (I2C.v_cpos (snd s))) (live (I2C.v_p (snd s))) 0) 0)
      as [E0 | E0]; cbn [negb andb].
    + auto.
    + destruct s as [i [p tW tR rpos h r cpos dd pos rlen mR snd_]]. st_simpl. subst tW.
      eapply wp_mono; [apply (IH fuel) | | ]; st_simpl; try lia.
      * intros a s' [Hall ->]. split.
        -- rewrite <- Hall. f_equal. f_equal. f_equal. lia.
        -- f_equal. f_equal. lia.
      * intros x s' (Hall & -> & Hi & Hr). repeat split; try assumption.
        rewrite <- Hall. f_equal. f_equal. f_equal. lia.
Qed.
End I2CConfirm.

(** [append] leaves the rest of a zeroed array zeroed. *)
Lemma append_zeroed (p : slice) (xs : list Z) :
  spare p = repeat 0 (512 - length (live p)) ->
  spare (append p xs) = repeat 0 (512 - length (live (append p xs))).
Proof.
  intros Hp. unfold append. cbn [live spare]. rewrite Hp, skipn_repeat_sub, length_app.
  f_equal. lia.
Qed.

Section I2CSmallWrite.
Context {D : Type} `{HIDDev D}.
Implicit Types s : st D I2C.vars.

Lemma I2C_small_write_wp (addr : Z) (w : list Z) (d : D) :
  error_free (D := D) ->
  0 < len w <= 62 ->
  wp (I2C.I2C addr w)
     (fun _ s' => exists data,
        let ack := fill (i2c_response_buffer (i2c_write_frame addr w) (len w + 3)) data in
        log (fst s') = [EvWrite (i2c_write_frame addr w);
                        EvRead (Z.to_nat (len w + 3)) data] /\
        forallb (fun b => negb (b =? 0)) (firstn (S (length w)) (skipn 2 ack)) = true)
     (fun x s' => exists data,
        let ack := fill (i2c_response_buffer (i2c_write_frame addr w) (len w + 3)) data in
        log (fst s') = [EvWrite (i2c_write_frame addr w);
                        EvRead (Z.to_nat (len w + 3)) data] /\
        forallb (fun b => negb (b =? 0)) (firstn (S (length w)) (skipn 2 ack)) = false /\
        x = AFail ErrI2CWrite)
     (mkIO d [], I2C.init []).
Proof.
  intros [Hew Her] Hw. unfold I2C.I2C. cbv zeta.
  rewrite (eqb_false (len w) 0) by lia. cbn [negb]. unfold I2C.init.
  wp_pure. wp_step. unfold I2C.pack at 1. wp_pure.
  rewrite slen_make0. change (len [I2C.CmdI2CStart]) with 1.
  change I2C.maxPacketLen with 512. change (512 - 2) with 510. zdecide.
  wp_step. wp_pure. rewrite slen_make0. zdecide. wp_step. wp_pure.
  destruct (length w) as [| fuel] eqn:Hlw; [unfold len in Hw; lia | ].
  apply wp_while_step; [st_simpl; apply ltb_true; lia | ].
  unfold I2C.write_body at 1. wp_pure. cbv zeta.
  change I2C.maxLen with 63. zdecide. cbn [andb].
  wp_step. wp_pure.
  replace (len w - 0) with (len w) by lia.
  rewrite (sub_some w 0 (0 + len w)) by lia.
  change (Z.to_nat 0) with 0%nat. change (skipn 0 w) with w.
  replace (Z.to_nat (0 + len w - 0)) with (length w) by (unfold len; lia).
  rewrite firstn_all. wp_pure. cbn [app].
  rewrite (eqb_false (0 + len w) 0) by lia.
  rewrite set_at_0 by (unfold len; cbn [length]; lia). rewrite skipn_1_cons. wp_pure.
  replace (len (I2C.CmdI2CWrite :: byte (Z.shiftl addr 1 mod 65536) :: w) - 1)
    with (len w + 1) by (unfold len; cbn [length]; lia).
  set (dd := Z.lor I2C.CmdI2CWrite (byte (len w + 1)) :: byte (Z.shiftl addr 1 mod 65536) :: w).
  assert (Hdd : len dd = len w + 2) by (unfold dd, len; cbn [length]; lia).
  set (p0 := append (append (append (make 0 512) [0; 0]) [I2C.CmdI2CStream]) [I2C.CmdI2CStart]).
  assert (Hp0 : slen p0 = 4) by reflexivity.
  assert (Hz0 : spare p0 = repeat 0 (512 - length (live p0))) by reflexivity.
  unfold I2C.pack at 1. change (I2C.maxPacketLen - 2) with 510.
  wp_pure. rewrite Hp0, Hdd. zdecide. wp_step. wp_pure.
  rewrite Hp0. zdecide. wp_step. wp_pure.
  rewrite (sub_some dd 0 1) by lia. wp_pure.
  replace (0 + (len w + 1)) with (len w + 1) by lia.
  apply wp_while_done; [st_simpl; apply ltb_false; lia | ].
  wp_pure. wp_step. change (negb (len [] =? 0)) with false. cbv iota. wp_pure.
  unfold I2C.pack at 1. change (I2C.maxPacketLen - 2) with 510. wp_pure.
  rewrite slen_append, Hp0, Hdd. change (len [I2C.CmdI2CStop]) with 1. zdecide.
  wp_step. wp_pure. rewrite slen_append, Hp0, Hdd. zdecide. wp_step. wp_pure.
  unfold I2C.write. wp_pure. cbv zeta.
  set (pf := append (append (append p0 dd) [I2C.CmdI2CStop]) [0]).
  set (body := [I2C.CmdI2CStream; I2C.CmdI2CStart;
                Z.lor I2C.CmdI2CWrite (byte (len w + 1));
                byte (Z.shiftl addr 1 mod 65536)] ++ w ++ [I2C.CmdI2CStop; 0]).
  assert (Hlive : live pf = 0 :: 0 :: body).
  { unfold pf, p0, dd, body. cbn [append make live app repeat].
    rewrite <- !app_assoc. reflexivity. }
  assert (Hbody : len body = len w + 6).
  { unfold body, len. cbn [app length]. rewrite length_app. cbn [length]. lia. }
  assert (Hzf : spare pf = repeat 0 (512 - length (live pf))).
  { unfold pf. do 3 apply append_zeroed. exact Hz0. }
  assert (Hsf : slen pf = len body + 2).
  { unfold slen. rewrite Hlive. unfold len. cbn [length]. lia. }
  rewrite Hsf, Hlive. replace (len body + 2 - 2) with (len body) by lia.
  rewrite set_at_0 by (unfold len; cbn [length]; lia). wp_pure. rewrite skipn_1_cons.
  rewrite set_at_1 by (unfold len in *; cbn [length]; lia). wp_pure. rewrite skipn_1_cons.
  match goal with |- wp (Dev_Write ?f) _ _ _ => set (frame := f) end.
  assert (Hframe : i2c_write_frame addr w = frame) by reflexivity.
  assert (Hlf : length frame = Z.to_nat (len w + 8)).
  { unfold frame. unfold len in *. cbn [length]. lia. }
  assert (Hsp : spare pf = repeat 0 (512 - length frame)).
  { rewrite Hzf, Hlive. reflexivity. }
  wp_write d1 err Hw1. pose proof (Hew d frame) as He1. rewrite Hw1 in He1.
  cbn [snd] in He1. subst err.
  wp_pure. zdecide. wp_step.
  replace (2 + (len w + 1 + 0)) with (len w + 3) by lia.
  match goal with |- wp (bind (must (reslice ?P ?n)) _) _ _ _ =>
    destruct (reslice_some P n) as (p3 & E3 & Hs3 & Hc3 & Hl3);
      [unfold scap, len in *; cbn [live spare]; rewrite Hsp, repeat_length; lia | ]
  end.
  cbn [live spare] in Hl3.
  wp_step. rewrite E3. wp_pure.
  assert (Hbuf : live p3 = i2c_response_buffer (i2c_write_frame addr w) (len w + 3))
    by (rewrite Hl3, Hframe, Hsp; reflexivity).
  assert (Hlen3 : length (live p3) = Z.to_nat (len w + 3))
    by (unfold slen, len in Hs3; unfold len; lia).
  wp_read d2 data err Hr2. pose proof (Her d1 (length (live p3))) as He2.
  rewrite Hr2 in He2. cbn [snd] in He2. subst err.
  wp_pure.
  set (ack := fill (live p3) data) in *.
  assert (Hack : len ack = len w + 3)
    by (unfold ack, len; rewrite fill_length, Hlen3; unfold len; lia).
  assert (Hackb : ack = fill (i2c_response_buffer (i2c_write_frame addr w) (len w + 3)) data)
    by (unfold ack; rewrite Hbuf; reflexivity).
  assert (Hlog : ([] ++ [EvWrite frame]) ++ [EvRead (length (live p3)) data]
                 = [EvWrite (i2c_write_frame addr w); EvRead (Z.to_nat (len w + 3)) data])
    by (rewrite Hframe, Hlen3; reflexivity).
  rewrite Hlog. rewrite <- Hlw.
  eapply wp_mono;
    [ apply (confirm_writes_wp (S (length w)) (Z.to_nat (len w + 1)));
      st_simpl; unfold len in *; lia
    | | ].
  - intros a s' [Hall ->]. st_simpl. change (Z.to_nat 2) with 2%nat in Hall.
    unfold I2C.confirm_reads. wp_pure. zdecide. wp_step. wp_pure.
    match goal with |- wp (must (reslice ?P 0)) _ _ _ =>
      destruct (reslice_some P 0) as (p9 & -> & _);
        [unfold scap, len; cbn [live spare]; lia | ]
    end.
    wp_pure. exists data. cbv zeta. rewrite <- Hackb. split; [reflexivity | exact Hall].
  - intros x [i' v'] (Hall & -> & Hi & Hr). st_simpl. change (Z.to_nat 2) with 2%nat in Hall.
    exists data. cbv zeta. rewrite <- Hackb. subst i'.
    split; [reflexivity | split; [exact Hall | reflexivity]].
Qed.

Lemma I2C_small_write_run (addr : Z) (w : list Z) (d : D) :
  error_free (D := D) ->
  0 < len w <= 62 ->
  let res := run (I2C.I2C addr w) d (I2C.init []) in
  exists data,
    let ack := fill (i2c_response_buffer (i2c_write_frame addr w) (len w + 3)) data in
    log (fst (snd res)) = [EvWrite (i2c_write_frame addr w);
                           EvRead (Z.to_nat (len w + 3)) data] /\
    fst res = if forallb (fun b => negb (b =? 0)) (firstn (S (length w)) (skipn 2 ack))
              then Done tt else Fail ErrI2CWrite.
Proof.
  intros Hef Hw. cbv zeta. pose proof (I2C_small_write_wp addr w d Hef Hw) as Hwp.
  unfold wp in Hwp. unfold run.
  destruct (I2C.I2C addr w (mkIO d [], I2C.init [])) as [[[] | e | | ] s'];
    cbv zeta in Hwp; destruct Hwp as (data & Hl & Hk); exists data; cbn [fst snd].
  - rewrite Hk. auto.
  - destruct Hk as (Hk & [= ->]). rewrite Hk. auto.
  - destruct Hk as (_ & [=]).
  - destruct Hk as (_ & [=]).
Qed.

(** X26. Over an error-free transport [I2C(addr, w, nil)] with 1 to 62
    bytes to write sends the single frame [i2c_write_frame] and reads
    [len w + 3] bytes back; it returns nil when the [len w + 1]
    response bytes from byte 2 on are all non-zero, and fails with
    [ErrI2CWrite] otherwise. *)
Theorem I2C_small_write (addr : Z) (w : list Z) (d : D) :
  error_free (D := D) ->
  0 < len w <= 62 ->
  let res := run (I2C.I2C addr w) d (I2C.init []) in
  exists data,
    let ack := fill (i2c_response_buffer (i2c_write_frame addr w) (len w + 3)) data in
    log (fst (snd res)) = [EvWrite (i2c_write_frame addr w);
                           EvRead (Z.to_nat (len w + 3)) data] /\
    fst res = if forallb (fun b => negb (b =? 0)) (firstn (S (length w)) (skipn 2 ack))
              then Done tt else Fail ErrI2CWrite.
Proof. exact (I2C_small_write_run addr w d). Qed.
End I2CSmallWrite.

(** ** Further runs on sample inputs *)

(** [ReadPin_header_mismatch] on [sample_bad_echo]. *)
Lemma ReadPin_header_mismatch_witness :
  dev_Write (Dev (fst (mkIO [sample_bad_echo] [], tt))) GPIO.status_frame
    = ([sample_bad_echo], None) /\
  dev_Read [sample_bad_echo] 13 = ([], sample_bad_echo, None) /\
  (nth 0 (fill GPIO.status_frame sample_bad_echo) 0 <> 0x0b \/
   nth 2 (fill GPIO.status_frame sample_bad_echo) 0 <> 0xcc) /\
  fst (GPIO.ReadPin 3 (mkIO [sample_bad_echo] [], tt)) = Fail (ErrGPIOResponse 0x0b 0x00 0xc4).
Proof.
  assert (Hne : nth 0 (fill GPIO.status_frame sample_bad_echo) 0 <> 0x0b \/
                nth 2 (fill GPIO.status_frame sample_bad_echo) 0 <> 0xcc)
    by (right; discriminate).
  split; [reflexivity | ]. split; [reflexivity | ]. split; [exact Hne | ].
  exact (ReadPin_header_mismatch 3 (mkIO [sample_bad_echo] [], tt)
           [sample_bad_echo] [] sample_bad_echo eq_refl eq_refl Hne).
Defined.

(** [WritePin_header_mismatch] for pin 4 set high, on
    [sample_bad_echo]. *)
Lemma WritePin_header_mismatch_witness :
  set_at GPIO.status_frame (byte (5 + 4)) 0xf8 = Some sample_pin4_high /\
  dev_Write (Dev (fst (mkIO [sample_bad_echo] [], tt))) sample_pin4_high
    = ([sample_bad_echo], None) /\
  dev_Read [sample_bad_echo] 13 = ([], sample_bad_echo, None) /\
  (nth 0 (fill sample_pin4_high sample_bad_echo) 0 <> 0x0b \/
   nth 2 (fill sample_pin4_high sample_bad_echo) 0 <> 0xcc) /\
  fst (GPIO.WritePin 4 true true (mkIO [sample_bad_echo] [], tt))
    = Fail (ErrGPIOResponse 0x0b 0x00 0xc4).
Proof.
  assert (Hne : nth 0 (fill sample_pin4_high sample_bad_echo) 0 <> 0x0b \/
                nth 2 (fill sample_pin4_high sample_bad_echo) 0 <> 0xcc)
    by (right; discriminate).
  split; [reflexivity | ]. split; [reflexivity | ]. split; [reflexivity | ].
  split; [exact Hne | ].
  exact (WritePin_header_mismatch 4 true true (mkIO [sample_bad_echo] [], tt)
           sample_pin4_high [sample_bad_echo] [] sample_bad_echo
           eq_refl eq_refl eq_refl Hne).
Defined.

(** [WritePin_pin_out_of_range] for pin 8. *)
Lemma WritePin_pin_out_of_range_witness :
  8 <= 8 < 256 /\
  GPIO.WritePin 8 true true (mkIO acking [], tt) = (Panic, (mkIO acking [], tt)).
Proof.
  split; [lia | ].
  exact (WritePin_pin_out_of_range 8 true true (mkIO acking [], tt)
           (conj (Z.le_refl 8) eq_refl)).
Defined.

(** [ReadPin_pin_out_of_range] for pin 8 on [sample_echo]. *)
Lemma ReadPin_pin_out_of_range_witness :
  8 <= 8 < 251 /\
  dev_Write (Dev (fst (mkIO [sample_echo] [], tt))) GPIO.status_frame = ([sample_echo], None) /\
  dev_Read [sample_echo] 13 = ([], sample_echo, None) /\
  GPIO.ReadPin 8 (mkIO [sample_echo] [], tt) =
    (Panic, (mkIO [] [EvWrite GPIO.status_frame; EvRead 13 sample_echo], tt)).
Proof.
  split; [lia | ]. split; [reflexivity | ]. split; [reflexivity | ].
  exact (ReadPin_pin_out_of_range 8 (mkIO [sample_echo] [], tt) [sample_echo] [] sample_echo
           (conj (Z.le_refl 8) eq_refl) eq_refl eq_refl eq_refl eq_refl).
Defined.

(** [crc16_residue] on the request of [ReadAll]. *)
Lemma crc16_residue_witness :
  Forall is_byte sample_modbus /\
  Pzem.crc16 (sample_modbus ++ [Z.land (byte (Pzem.crc16 sample_modbus)) 0xff;
                                Z.land (byte (Z.shiftr (Pzem.crc16 sample_modbus) 8)) 0xff]) = 0.
Proof.
  assert (Hb : Forall is_byte sample_modbus)
    by (repeat constructor; unfold is_byte; lia).
  split; [exact Hb | ]. exact (crc16_residue sample_modbus Hb).
Defined.

(** [crc16_detects_byte_error] on a request with its third byte
    changed. *)
Lemma crc16_detects_byte_error_witness :
  Forall is_byte [0xf8; 0x04] /\ Forall is_byte [0x00; 0x09] /\
  is_byte 0x00 /\ is_byte 0x01 /\ 0x00 <> 0x01 /\
  Pzem.crc16 ([0xf8; 0x04] ++ 0x00 :: [0x00; 0x09])
    <> Pzem.crc16 ([0xf8; 0x04] ++ 0x01 :: [0x00; 0x09]).
Proof.
  assert (H1 : Forall is_byte [0xf8; 0x04]) by (repeat constructor; unfold is_byte; lia).
  assert (H2 : Forall is_byte [0x00; 0x09]) by (repeat constructor; unfold is_byte; lia).
  assert (Ha : is_byte 0x00) by (unfold is_byte; lia).
  assert (Hb : is_byte 0x01) by (unfold is_byte; lia).
  assert (Hab : 0x00 <> 0x01) by discriminate.
  split; [exact H1 | ]. split; [exact H2 | ]. split; [exact Ha | ]. split; [exact Hb | ].
  split; [exact Hab | ].
  exact (crc16_detects_byte_error [0xf8; 0x04] [0x00; 0x09] 0x00 0x01 H1 H2 Ha Hb Hab).
Defined.

(** [crc8_check] on [sample_aht]. *)
Lemma crc8_check_witness :
  Forall is_byte sample_aht /\ is_byte (AHT2x.crc8 sample_aht) /\
  (AHT2x.crc8 sample_aht = AHT2x.crc8 sample_aht
   <-> AHT2x.crc8 (sample_aht ++ [AHT2x.crc8 sample_aht]) = 0).
Proof.
  assert (Hb : Forall is_byte sample_aht) by (repeat constructor; unfold is_byte; lia).
  assert (Hx : is_byte (AHT2x.crc8 sample_aht)) by (unfold is_byte; split; [vm_compute; discriminate | vm_compute; reflexivity]).
  split; [exact Hb | ]. split; [exact Hx | ].
  exact (crc8_check sample_aht (AHT2x.crc8 sample_aht) Hb Hx).
Defined.

(** [crc8_detects_byte_error] on a measurement with its second byte
    changed. *)
Lemma crc8_detects_byte_error_witness :
  Forall is_byte [0x1c] /\ Forall is_byte [0x80; 0x00] /\
  is_byte 0x7f /\ is_byte 0x7e /\ 0x7f <> 0x7e /\
  AHT2x.crc8 ([0x1c] ++ 0x7f :: [0x80; 0x00]) <> AHT2x.crc8 ([0x1c] ++ 0x7e :: [0x80; 0x00]).
Proof.
  assert (H1 : Forall is_byte [0x1c]) by (repeat constructor; unfold is_byte; lia).
  assert (H2 : Forall is_byte [0x80; 0x00]) by (repeat constructor; unfold is_byte; lia).
  assert (Ha : is_byte 0x7f) by (unfold is_byte; lia).
  assert (Hb : is_byte 0x7e) by (unfold is_byte; lia).
  assert (Hab : 0x7f <> 0x7e) by discriminate.
  split; [exact H1 | ]. split; [exact H2 | ]. split; [exact Ha | ]. split; [exact Hb | ].
  split; [exact Hab | ].
  exact (crc8_detects_byte_error [0x1c] [0x80; 0x00] 0x7f 0x7e H1 H2 Ha Hb Hab).
Defined.

(** [SPI_small_write] on the one-byte command [0x06]. *)
Lemma SPI_small_write_witness :
  error_free (D := Acking) /\
  0 < len [0x06] < 504 /\
  exists data,
    log (fst (snd (run (SPI.SPI [0x06] []) acking SPI.init)))
      = [EvWrite (spi_packet [0x06]); EvRead 5 data] /\
    fst (run (SPI.SPI [0x06] []) acking SPI.init) =
      if negb (nth 2 (fill (firstn 5 (spi_packet [0x06])) data) 0 =? 0xc4)
         && negb (nth 3 (fill (firstn 5 (spi_packet [0x06])) data) 0 =? 0x01)
      then Fail ErrInvalidResponse else Done tt.
Proof.
  assert (Hef : error_free (D := Acking)) by (split; intros; reflexivity).
  assert (Hl : 0 < len [0x06] < 504) by (unfold len; cbn [length]; lia).
  split; [exact Hef | ]. split; [exact Hl | ].
  exact (SPI_small_write [0x06] acking Hef Hl).
Defined.

(** [Flash_Erase_does_not_wait] on the acknowledging device. *)
Lemma Flash_Erase_does_not_wait_witness :
  error_free (D := Acking) /\ (1 <= 1)%nat /\
  fst (Flash.Erase 1 (mkIO acking [], tt)) = Done tt /\
  reads (log (fst (snd (Flash.Erase 1 (mkIO acking [], tt))))) = [5%nat; 5%nat].
Proof.
  assert (Hef : error_free (D := Acking)) by (split; intros; reflexivity).
  split; [exact Hef | ]. split; [lia | ].
  pose proof (Flash_Erase_does_not_wait 1 (mkIO acking [], tt) Hef (le_n 1)) as Hs.
  split; [vm_compute; reflexivity | exact (proj1 (proj2 Hs))].
Defined.

(** [I2C_small_read] for seven bytes from address [0x38]. *)
Lemma I2C_small_read_witness :
  error_free (D := Acking) /\
  0 < len (repeat 0 7) <= 63 /\
  exists data,
    log (fst (snd (run (I2C.I2C 0x38 []) acking (I2C.init (repeat 0 7)))))
      = [EvWrite (i2c_read_frame 0x38 (len (repeat 0 7)));
         EvRead (Z.to_nat (len (repeat 0 7) + 3)) data] /\
    if nth 2 (fill (i2c_response_buffer (i2c_read_frame 0x38 (len (repeat 0 7)))
                                        (len (repeat 0 7) + 3)) data) 0 =? 0x01
    then fst (run (I2C.I2C 0x38 []) acking (I2C.init (repeat 0 7))) = Done tt /\
         I2C.v_r (snd (snd (run (I2C.I2C 0x38 []) acking (I2C.init (repeat 0 7)))))
           = firstn (length (repeat 0 7))
               (skipn 3 (fill (i2c_response_buffer (i2c_read_frame 0x38 (len (repeat 0 7)))
                                                   (len (repeat 0 7) + 3)) data))
    else fst (run (I2C.I2C 0x38 []) acking (I2C.init (repeat 0 7))) = Fail ErrI2CRead /\
         I2C.v_r (snd (snd (run (I2C.I2C 0x38 []) acking (I2C.init (repeat 0 7)))))
           = repeat 0 7.
Proof.
  assert (Hef : error_free (D := Acking)) by (split; intros; reflexivity).
  assert (Hl : 0 < len (repeat 0 7) <= 63) by (change (0 < 7 <= 63); lia).
  split; [exact Hef | ]. split; [exact Hl | ].
  exact (I2C_small_read 0x38 (repeat 0 7) acking Hef Hl).
Defined.

(** [I2C_small_write] for [sample_w] and address [0x38]. *)
Lemma I2C_small_write_witness :
  error_free (D := Acking) /\
  0 < len sample_w <= 62 /\
  exists data,
    log (fst (snd (run (I2C.I2C 0x38 sample_w) acking (I2C.init []))))
      = [EvWrite (i2c_write_frame 0x38 sample_w); EvRead (Z.to_nat (len sample_w + 3)) data] /\
    fst (run (I2C.I2C 0x38 sample_w) acking (I2C.init [])) =
      if forallb (fun b => negb (b =? 0))
           (firstn (S (length sample_w))
              (skipn 2 (fill (i2c_response_buffer (i2c_write_frame 0x38 sample_w)
                                                  (len sample_w + 3)) data)))
      then Done tt else Fail ErrI2CWrite.
Proof.
  assert (Hef : error_free (D := Acking)) by (split; intros; reflexivity).
  assert (Hl : 0 < len sample_w <= 62) by (change (0 < 3 <= 62); lia).
  split; [exact Hef | ]. split; [exact Hl | ].
  exact (I2C_small_write 0x38 sample_w acking Hef Hl).
Defined.

(** ** I2C: the verdict on a response *)

Lemma copy_delivered (r resp sp : list Z) (rpos tR pos : Z) :
  0 <= rpos -> 0 <= tR -> rpos + tR <= len r -> 0 <= pos -> len resp = pos + tR ->
  copy (firstn (Z.to_nat (rpos + tR - rpos)) (skipn (Z.to_nat rpos) r))
       (firstn (Z.to_nat (pos + tR - pos)) (skipn (Z.to_nat pos) (resp ++ sp)))
  = skipn (Z.to_nat pos) resp.
Proof.
  intros Hrpos HtR Hrb Hpos Hresp. unfold len in *.
  replace (Z.to_nat (rpos + tR - rpos)) with (Z.to_nat tR) by lia.
  replace (Z.to_nat (pos + tR - pos)) with (Z.to_nat tR) by lia.
  assert (Hsrc : firstn (Z.to_nat tR) (skipn (Z.to_nat pos) (resp ++ sp))
                 = skipn (Z.to_nat pos) resp).
  { rewrite skipn_app.
    replace (Z.to_nat pos - length resp)%nat with 0%nat by lia.
    cbn [skipn]. rewrite firstn_app.
    replace (Z.to_nat tR - length (skipn (Z.to_nat pos) resp))%nat with 0%nat
      by (rewrite length_skipn; lia).
    cbn [firstn]. rewrite app_nil_r. apply firstn_all2. rewrite length_skipn. lia. }
  rewrite Hsrc. unfold copy.
  assert (Hd : length (firstn (Z.to_nat tR) (skipn (Z.to_nat rpos) r)) = Z.to_nat tR)
    by (rewrite length_firstn, length_skipn; lia).
  assert (Hs : length (skipn (Z.to_nat pos) resp) = Z.to_nat tR)
    by (rewrite length_skipn; lia).
  rewrite Hd, Hs, firstn_all2 by lia.
  rewrite (skipn_all2 (n := Z.to_nat tR)) by lia. apply app_nil_r.
Qed.

Section FlushVerdict.
Context {D : Type} `{HIDDev D}.
Implicit Types s : st D I2C.vars.

Lemma write_verdict_wp s :
  error_free (D := D) ->
  1 <= slen (I2C.v_p (snd s)) <= 509 -> scap (I2C.v_p (snd s)) = 512 ->
  0 <= I2C.v_toWrite (snd s) -> 0 <= I2C.v_toRead (snd s) ->
  0 < I2C.v_toWrite (snd s) + I2C.v_toRead (snd s) ->
  flush_length (snd s) <= 512 ->
  0 <= I2C.v_rpos (snd s) ->
  I2C.v_rpos (snd s) + I2C.v_toRead (snd s) <= len (I2C.v_r (snd s)) ->
  wp I2C.write
     (fun _ s' => exists data,
        let resp := fill (flush_buffer (snd s)) data in
        log (fst s') = log (fst s) ++ [EvWrite (flush_frame (snd s));
                                       EvRead (Z.to_nat (flush_length (snd s))) data] /\
        nak_verdict (snd s) resp = Done tt /\
        I2C.v_r (snd s') = flush_delivers (snd s) resp)
     (fun x s' => exists data,
        let resp := fill (flush_buffer (snd s)) data in
        log (fst s') = log (fst s) ++ [EvWrite (flush_frame (snd s));
                                       EvRead (Z.to_nat (flush_length (snd s))) data] /\
        (exists e, nak_verdict (snd s) resp = Fail e /\ x = AFail e) /\
        I2C.v_r (snd s') = I2C.v_r (snd s))
     s.
Proof.
  intros [Hew Her] Hlen Hcap HtW HtR Hclen Hfl Hrpos Hrb. unfold I2C.write.
  destruct s as [[d l] v]. st_simpl.
  assert (Hn : flush_length v = 2 + I2C.v_toWrite v + I2C.v_toRead v
                              + (if I2C.v_hasRead v then 1 else 0)) by reflexivity.
  assert (Hfv : flush_frame v =
                byte (Z.land (slen (append (I2C.v_p v) [0]) - 2) 255)
                :: byte (Z.land (Z.shiftr (slen (append (I2C.v_p v) [0]) - 2) 8) 255)
                :: skipn 2 (live (append (I2C.v_p v) [0]))) by reflexivity.
  assert (Hbv : flush_buffer v =
                firstn (Z.to_nat (flush_length v))
                       (flush_frame v ++ spare (append (I2C.v_p v) [0]))) by reflexivity.
  remember (I2C.v_p v) as p eqn:Ep. remember (I2C.v_toWrite v) as tW eqn:EtW.
  remember (I2C.v_toRead v) as tR eqn:EtR. remember (I2C.v_hasRead v) as h eqn:Eh.
  remember (flush_length v) as n eqn:En.
  remember (flush_frame v) as frame eqn:Efr.
  wp_pure. cbv zeta. rewrite <- ?Ep.
  set (p1 := append p [0]).
  assert (Hs1 : slen p1 = slen p + 1) by (subst p1; now rewrite slen_append).
  assert (Hc1 : scap p1 = 512).
  { subst p1. rewrite scap_append; [exact Hcap | ].
    unfold scap, slen, len in *. cbn [length]. lia. }
  rewrite set_at_0 by (unfold slen in *; lia). wp_pure.
  rewrite set_at_1 by (unfold slen, len in *; rewrite length_skipn; lia). wp_pure.
  rewrite skipn_skipn. change (1 + 1)%nat with 2%nat.
  fold p1 in Hfv, Hbv. rewrite <- Hfv.
  assert (Hfr : len frame = slen p1).
  { rewrite Hfv. unfold slen, len in *. cbn [length]. rewrite length_skipn. lia. }
  wp_write d1 err Hw1. pose proof (Hew d frame) as He1. rewrite Hw1 in He1.
  cbn [snd] in He1. subst err.
  wp_pure. rewrite <- ?EtW, <- ?EtR, <- ?Eh. rewrite (gtb_true (tW + tR) 0) by lia. wp_step.
  replace (2 + (if h then tW + tR + 1 else tW + tR)) with n by (rewrite Hn; destruct h; lia).
  destruct (reslice_some (mkSlice frame (spare p1)) n) as (p3 & E3 & Hs3 & Hc3 & Hl3).
  { unfold scap, slen in *. cbn [live spare]. destruct h; lia. }
  cbn [live spare] in Hl3.
  rewrite <- Hbv in Hl3.
  wp_step. rewrite E3. wp_pure.
  assert (Hlen3 : length (live p3) = Z.to_nat n) by (unfold slen, len in Hs3; lia).
  wp_read d2 data err Hr2. pose proof (Her d1 (length (live p3))) as He2.
  rewrite Hr2 in He2. cbn [snd] in He2. subst err.
  wp_pure.
  assert (Hlog : (l ++ [EvWrite frame]) ++ [EvRead (length (live p3)) data]
                 = l ++ [EvWrite frame; EvRead (Z.to_nat n) data])
    by (rewrite Hlen3, <- app_assoc; reflexivity).
  rewrite Hlog. rewrite Hl3.
  set (resp := fill (flush_buffer v) data) in *.
  assert (Hresp : len resp = n)
    by (unfold resp, len; rewrite fill_length, <- Hl3, Hlen3; rewrite Hn; destruct h; lia).
  assert (Hsp3 : scap (mkSlice resp (spare p3)) = 512).
  { unfold scap, slen in *. cbn [live spare] in *. fold (len resp). rewrite Hresp.
    rewrite <- Hs3. lia. }
  eapply wp_mono;
    [ apply (confirm_writes_wp (Z.to_nat tW) (Z.to_nat tW)); st_simpl;
      try (rewrite Hn in Hresp; destruct h; lia) | | ].
  - intros a s' [Hall ->]. st_simpl. change (Z.to_nat 2) with 2%nat in Hall.
    replace (2 + Z.of_nat (Z.to_nat tW)) with (2 + tW) by lia.
    unfold I2C.confirm_reads. wp_pure.
    destruct (Z.gtb_spec tR 0) as [HtR1 | HtR0].
    + wp_step. wp_pure.
      eapply wp_mono with
        (Q := fun _ s' =>
           fst s' = mkIO d2 (l ++ [EvWrite frame; EvRead (Z.to_nat n) data]) /\
           I2C.v_p (snd s') = mkSlice resp (spare p3) /\
           I2C.v_cpos (snd s') = n - tR /\
           I2C.v_r (snd s') = I2C.v_r v /\ I2C.v_rpos (snd s') = I2C.v_rpos v /\
           nak_verdict v resp = Done tt)
        (R := fun x s' =>
           log (fst s') = l ++ [EvWrite frame; EvRead (Z.to_nat n) data] /\
           (exists e, nak_verdict v resp = Fail e /\ x = AFail e) /\
           I2C.v_r (snd s') = I2C.v_r v).
      * unfold nak_verdict. rewrite <- EtW, <- EtR, <- Eh, Hall. cbn [negb].
        rewrite (gtb_true tR 0) by lia. cbn [andb].
        wp_step. destruct h.
        -- wp_pure. rewrite (get_at_nth resp (2 + tW)) by lia. wp_pure.
           destruct (Z.eqb_spec (nth (Z.to_nat (2 + tW)) resp 0) 1) as [E1 | E1]; cbn [negb].
           ++ wp_pure. repeat split. lia.
           ++ wp_step. split; [reflexivity | ].
              split; [exists ErrI2CRead; split; reflexivity | reflexivity].
        -- st_simpl. repeat split. lia.
      * intros _ [[d' l'] v'] (Hio & Hp' & Hc' & Hr' & Hrp' & Hv). st_simpl.
        injection Hio as -> ->.
        wp_pure. rewrite Hp', Hc', Hr', Hrp'.
        rewrite (sub_some (I2C.v_r v)) by lia. wp_pure.
        rewrite ssub_exact
          by (rewrite ?Hsp3; rewrite Hn in *; destruct h; lia).
        cbn [live spare]. wp_pure.
        rewrite (copy_delivered (I2C.v_r v) resp (spare p3))
          by (rewrite ?Hn in *; destruct h; lia).
        rewrite Hp'.
        destruct (reslice_some (mkSlice resp (spare p3)) 0) as (p9 & -> & _);
          [rewrite Hsp3; lia | ].
        wp_pure. exists data. cbv zeta. fold resp.
        split; [reflexivity | ]. split; [exact Hv | ].
        unfold flush_delivers. rewrite <- EtR, <- En, (gtb_true tR 0) by lia. reflexivity.
      * intros x s' HR. exists data. exact HR.
    + wp_step. wp_pure.
      destruct (reslice_some (mkSlice resp (spare p3)) 0) as (p9 & -> & _);
        [rewrite Hsp3; lia | ].
      wp_pure. exists data. cbv zeta. fold resp.
      split; [reflexivity | ].
      unfold nak_verdict, flush_delivers.
      rewrite <- EtW, <- EtR, Hall, (gtb_false tR 0) by lia. auto.
  - intros x [i' v'] (Hall & -> & Hi & Hr). st_simpl. change (Z.to_nat 2) with 2%nat in Hall.
    exists data. cbv zeta. fold resp. subst i'.
    split; [reflexivity | ]. split; [ | exact Hr].
    exists ErrI2CWrite. unfold nak_verdict. rewrite <- EtW, Hall. auto.
Qed.
End FlushVerdict.

(** ** I2C: a short write followed by a short read *)

Section I2CWriteRead.
Context {D : Type} `{HIDDev D}.
Implicit Types s : st D I2C.vars.

Lemma I2C_write_read_wp (addr : Z) (w r0 : list Z) (d : D) :
  error_free (D := D) ->
  0 < len w <= 62 ->
  0 < len r0 <= 63 ->
  wp (I2C.I2C addr w)
     (fun _ s' => exists data,
        let n := len w + len r0 + 4 in
        let ack := fill (i2c_response_buffer (i2c_write_read_frame addr w (len r0)) n) data in
        log (fst s') = [EvWrite (i2c_write_read_frame addr w (len r0));
                        EvRead (Z.to_nat n) data] /\
        forallb (fun b => negb (b =? 0)) (firstn (S (length w)) (skipn 2 ack)) = true /\
        nth (length w + 3) ack 0 = 0x01 /\
        I2C.v_r (snd s') = skipn (length w + 4) ack)
     (fun x s' => exists data,
        let n := len w + len r0 + 4 in
        let ack := fill (i2c_response_buffer (i2c_write_read_frame addr w (len r0)) n) data in
        log (fst s') = [EvWrite (i2c_write_read_frame addr w (len r0));
                        EvRead (Z.to_nat n) data] /\
        I2C.v_r (snd s') = r0 /\
        ((forallb (fun b => negb (b =? 0)) (firstn (S (length w)) (skipn 2 ack)) = false /\
          x = AFail ErrI2CWrite)
         \/ (forallb (fun b => negb (b =? 0)) (firstn (S (length w)) (skipn 2 ack)) = true /\
             nth (length w + 3) ack 0 <> 0x01 /\ x = AFail ErrI2CRead)))
     (mkIO d [], I2C.init r0).
Proof.
  intros [Hew Her] Hw Hr. unfold I2C.I2C. cbv zeta.
  rewrite (eqb_false (len w) 0) by lia. cbn [negb]. unfold I2C.init.
  wp_pure. wp_step. unfold I2C.pack at 1. wp_pure.
  rewrite slen_make0. change (len [I2C.CmdI2CStart]) with 1.
  change I2C.maxPacketLen with 512. change (512 - 2) with 510. zdecide.
  wp_step. wp_pure. rewrite slen_make0. zdecide. wp_step. wp_pure.
  match goal with |- context [while (length w) ?c ?b] =>
    replace (while (length w) c b) with (while (S (pred (length w))) c b)
      by (f_equal; unfold len in Hw; lia) end.
  apply wp_while_step; [st_simpl; apply ltb_true; lia | ].
  unfold I2C.write_body at 1. wp_pure. cbv zeta.
  change I2C.maxLen with 63. zdecide. cbn [andb].
  wp_step. wp_pure.
  replace (len w - 0) with (len w) by lia.
  rewrite (sub_some w 0 (0 + len w)) by lia.
  change (Z.to_nat 0) with 0%nat. change (skipn 0 w) with w.
  replace (Z.to_nat (0 + len w - 0)) with (length w) by (unfold len; lia).
  rewrite firstn_all. wp_pure. cbn [app].
  rewrite (eqb_false (0 + len w) 0) by lia.
  rewrite set_at_0 by (unfold len; cbn [length]; lia). rewrite skipn_1_cons. wp_pure.
  replace (len (I2C.CmdI2CWrite :: byte (Z.shiftl addr 1 mod 65536) :: w) - 1)
    with (len w + 1) by (unfold len; cbn [length]; lia).
  set (dd := Z.lor I2C.CmdI2CWrite (byte (len w + 1)) :: byte (Z.shiftl addr 1 mod 65536) :: w).
  assert (Hdd : len dd = len w + 2) by (unfold dd, len; cbn [length]; lia).
  set (p0 := append (append (append (make 0 512) [0; 0]) [I2C.CmdI2CStream]) [I2C.CmdI2CStart]).
  assert (Hp0 : slen p0 = 4) by reflexivity.
  assert (Hz0 : spare p0 = repeat 0 (512 - length (live p0))) by reflexivity.
  unfold I2C.pack at 1. change (I2C.maxPacketLen - 2) with 510.
  wp_pure. rewrite Hp0, Hdd. zdecide. wp_step. wp_pure.
  rewrite Hp0. zdecide. wp_step. wp_pure.
  rewrite (sub_some dd 0 1) by lia. wp_pure.
  replace (0 + (len w + 1)) with (len w + 1) by lia.
  apply wp_while_done; [st_simpl; apply ltb_false; lia | ].
  wp_pure. wp_step.
  rewrite (eqb_false (len r0) 0) by lia. cbn [negb]. wp_pure.
  match goal with |- context [while (length r0) ?c ?b] =>
    replace (while (length r0) c b) with (while (S (pred (length r0))) c b)
      by (f_equal; unfold len in Hr; lia) end.
  apply wp_while_step; [st_simpl; apply gtb_true; lia | ].
  unfold I2C.read_body at 1. wp_pure. cbv zeta.
  change I2C.maxLen with 63. change I2C.maxPacketLen with 512.
  zdecide.
  wp_step. wp_pure. change (64 =? 63) with false. cbv iota.
  set (rd := if len r0 >? 1 then [byte (Z.lor I2C.CmdI2CRead (byte (len r0)) - 1)] else []).
  set (d1 := [I2C.CmdI2CStart; Z.lor I2C.CmdI2CWrite 1;
              Z.lor (byte (Z.shiftl addr 1 mod 65536)) 1] ++ rd).
  eapply wp_mono with
    (Q := fun _ s' =>
       s' = (mkIO d [],
             I2C.set_d d1
               (I2C.mkVars (append p0 dd) (len w + 1) 0 0 true r0 0
                  [I2C.CmdI2CStart; Z.lor I2C.CmdI2CWrite 1;
                   Z.lor (byte (Z.shiftl addr 1 mod 65536)) 1]
                  (len w) (len r0) 64 false)))
    (R := fun _ _ => False); [ | | contradiction].
  { destruct (len r0 >? 1); wp_pure; reflexivity. }
  intros _ s' ->. unfold I2C.set_d. st_simpl.
  wp_step. wp_step. cbn [Z.eqb Pos.eqb]. wp_pure. wp_step. wp_pure.
  rewrite Z.sub_diag.
  apply wp_while_done; [st_simpl; reflexivity | ].
  wp_pure. wp_step. cbn [negb]. wp_pure.
  assert (Hd1 : 3 <= len d1 <= 4).
  { unfold d1, rd. destruct (len r0 >? 1); vm_compute; split; discriminate. }
  unfold I2C.pack at 1. wp_pure.
  rewrite slen_append, Hp0, Hdd, len_app. change (len [I2C.CmdI2CRead]) with 1.
  change (I2C.maxPacketLen - 2) with 510. zdecide. wp_step. wp_pure.
  rewrite slen_append, Hp0, Hdd. zdecide. wp_step. wp_pure.
  unfold I2C.pack at 1. wp_pure.
  rewrite !slen_append, Hp0, Hdd, len_app. change (len [I2C.CmdI2CRead]) with 1.
  change (len [I2C.CmdI2CStop]) with 1.
  change (I2C.maxPacketLen - 2) with 510. zdecide. wp_step. wp_pure.
  rewrite !slen_append, Hp0, Hdd, len_app. change (len [I2C.CmdI2CRead]) with 1.
  zdecide. wp_step. wp_pure.
  replace (0 + len r0) with (len r0) by lia.
  match goal with |- wp _ _ _ (_, ?v0) => set (v := v0) end.
  set (pf := append (append (append p0 dd) (d1 ++ [I2C.CmdI2CRead])) [I2C.CmdI2CStop]) in *.
  set (body := [I2C.CmdI2CStream; I2C.CmdI2CStart;
                Z.lor I2C.CmdI2CWrite (byte (len w + 1));
                byte (Z.shiftl addr 1 mod 65536)]
               ++ w
               ++ [I2C.CmdI2CStart; Z.lor I2C.CmdI2CWrite 1;
                   Z.lor (byte (Z.shiftl addr 1 mod 65536)) 1]
               ++ rd ++ [I2C.CmdI2CRead; I2C.CmdI2CStop; 0]).
  assert (Hlive : live (append pf [0]) = 0 :: 0 :: body).
  { unfold pf, p0, dd, d1, body. cbn [append make live app repeat].
    repeat (rewrite <- app_assoc; cbn [app]). reflexivity. }
  assert (Hspf : slen pf = len w + len d1 + 8).
  { unfold pf. rewrite !slen_append, Hp0, Hdd, len_app.
    change (len [I2C.CmdI2CRead]) with 1. change (len [I2C.CmdI2CStop]) with 1. lia. }
  assert (Hzf : spare (append pf [0]) = repeat 0 (512 - length (live (append pf [0])))).
  { unfold pf. do 4 apply append_zeroed. exact Hz0. }
  assert (Hframe : flush_frame v = i2c_write_read_frame addr w (len r0)).
  { unfold flush_frame, i2c_write_read_frame. cbv zeta. subst v. st_simpl.
    fold rd. fold body. rewrite Hlive, slen_append, Hspf. change (len [0]) with 1.
    assert (Hb : len body = len w + len d1 + 7).
    { unfold body, d1, len. rewrite !length_app. cbn [length].
      generalize (length rd) (length w). intros a b. lia. }
    rewrite Hb. cbn [skipn].
    replace (len w + len d1 + 8 + 1 - 2) with (len w + len d1 + 7) by lia. reflexivity. }
  assert (Hflen : flush_length v = len w + len r0 + 4) by (unfold flush_length, v; st_simpl; lia).
  assert (Hbuf : flush_buffer v
                 = i2c_response_buffer (i2c_write_read_frame addr w (len r0))
                                       (len w + len r0 + 4)).
  { unfold flush_buffer, i2c_response_buffer. rewrite Hflen, Hframe.
    replace (I2C.v_p v) with pf by reflexivity. rewrite Hzf, Hlive.
    f_equal. }
  assert (Hzpf : spare pf = repeat 0 (512 - length (live pf))).
  { unfold pf. do 3 apply append_zeroed. exact Hz0. }
  assert (HtWn : Z.to_nat (len w + 1) = S (length w)) by (unfold len; lia).
  assert (Hpos : Z.to_nat (2 + (len w + 1)) = (length w + 3)%nat) by (unfold len; lia).
  assert (Hcut : Z.to_nat (len w + len r0 + 4 - len r0) = (length w + 4)%nat)
    by (unfold len; lia).
  assert (Hverdict : forall resp,
            nak_verdict v resp =
              if negb (forallb (fun b => negb (b =? 0)) (firstn (S (length w)) (skipn 2 resp)))
              then Fail ErrI2CWrite
              else if negb (nth (length w + 3) resp 0 =? 1) then Fail ErrI2CRead
                   else Done tt).
  { intros resp. unfold nak_verdict, v. st_simpl.
    rewrite HtWn, Hpos, (gtb_true (len r0) 0) by lia. reflexivity. }
  assert (Hdel : forall resp, flush_delivers v resp = skipn (length w + 4) resp).
  { intros resp. unfold flush_delivers. rewrite Hflen. unfold v. st_simpl.
    rewrite (gtb_true (len r0) 0), Hcut by lia.
    change (Z.to_nat 0) with 0%nat. cbn [firstn app].
    replace (Z.to_nat (0 + len r0)) with (length r0) by (unfold len; lia).
    rewrite skipn_all. apply app_nil_r. }
  eapply wp_mono; [apply write_verdict_wp; [split; assumption | .. ] | | ].
  all: cbn [fst snd log].
  1-8: try (unfold v; st_simpl; rewrite ?Hflen, ?Hspf; lia).
  - replace (I2C.v_p v) with pf by reflexivity.
    unfold scap, slen in *. rewrite Hzpf. unfold len in *. rewrite repeat_length. lia.
  - rewrite Hflen. lia.
  - intros a s' (data & Hlog & Hv & Hrr). cbv zeta in *. cbn [app] in Hlog.
    rewrite Hframe, Hflen, Hbuf in *. exists data. cbv zeta.
    rewrite Hverdict in Hv. rewrite Hdel in Hrr.
    split; [exact Hlog | ].
    destruct (forallb _ _); [ | discriminate]. cbn [negb] in Hv.
    destruct (Z.eqb_spec (nth (length w + 3)
               (fill (i2c_response_buffer (i2c_write_read_frame addr w (len r0))
                                          (len w + len r0 + 4)) data) 0) 1) as [E1 | E1];
      [ | discriminate].
    auto.
  - intros x s' (data & Hlog & (e & Hv & ->) & Hrr). cbv zeta in *. cbn [app] in Hlog.
    rewrite Hframe, Hflen, Hbuf in *. exists data. cbv zeta.
    rewrite Hverdict in Hv.
    split; [exact Hlog | ]. split; [exact Hrr | ].
    destruct (forallb _ _); cbn [negb] in Hv.
    + right. split; [reflexivity | ].
      destruct (Z.eqb_spec (nth (length w + 3)
                 (fill (i2c_response_buffer (i2c_write_read_frame addr w (len r0))
                                            (len w + len r0 + 4)) data) 0) 1) as [E1 | E1];
        cbn [negb] in Hv; [discriminate | ].
      injection Hv as <-. auto.
    + left. injection Hv as <-. auto.
Qed.
End I2CWriteRead.

(** ** I2C: acknowledgements decide the call *)

Section NakAborts.
Context {D : Type} `{HIDDev D}.
Implicit Types s : st D I2C.vars.

(** What [write_verdict_wp] says of the pair a flush evaluates to. *)
Lemma write_verdict_run s :
  error_free (D := D) ->
  1 <= slen (I2C.v_p (snd s)) <= 509 -> scap (I2C.v_p (snd s)) = 512 ->
  0 <= I2C.v_toWrite (snd s) -> 0 <= I2C.v_toRead (snd s) ->
  0 < I2C.v_toWrite (snd s) + I2C.v_toRead (snd s) ->
  flush_length (snd s) <= 512 ->
  0 <= I2C.v_rpos (snd s) ->
  I2C.v_rpos (snd s) + I2C.v_toRead (snd s) <= len (I2C.v_r (snd s)) ->
  exists data,
    let resp := fill (flush_buffer (snd s)) data in
    log (fst (snd (I2C.write s))) =
      log (fst s) ++ [EvWrite (flush_frame (snd s));
                      EvRead (Z.to_nat (flush_length (snd s))) data] /\
    fst (I2C.write s) = nak_verdict (snd s) resp /\
    I2C.v_r (snd (snd (I2C.write s))) =
      match nak_verdict (snd s) resp with
      | Done _ => flush_delivers (snd s) resp
      | _ => I2C.v_r (snd s)
      end.
Proof.
  intros Hef H1 H2 H3 H4 H5 H6 H7 H8.
  pose proof (write_verdict_wp s Hef H1 H2 H3 H4 H5 H6 H7 H8) as Hwp.
  unfold wp in Hwp.
  destruct (I2C.write s) as [[[] | e | | ] s']; cbv zeta in Hwp; cbn [fst snd].
  - destruct Hwp as (data & Hl & Hv & Hr). exists data. cbv zeta. rewrite Hv. auto.
  - destruct Hwp as (data & Hl & (e' & Hv & [= ->]) & Hr). exists data. cbv zeta.
    rewrite Hv. auto.
  - destruct Hwp as (data & _ & (e' & _ & [=]) & _).
  - destruct Hwp as (data & _ & (e' & _ & [=]) & _).
Qed.

(** What [I2C_write_read_wp] says of the pair a call evaluates to. *)
Lemma I2C_write_read_run (addr : Z) (w r0 : list Z) (d : D) :
  error_free (D := D) ->
  0 < len w <= 62 ->
  0 < len r0 <= 63 ->
  let res := run (I2C.I2C addr w) d (I2C.init r0) in
  exists data,
    let n := len w + len r0 + 4 in
    let ack := fill (i2c_response_buffer (i2c_write_read_frame addr w (len r0)) n) data in
    log (fst (snd res)) = [EvWrite (i2c_write_read_frame addr w (len r0));
                           EvRead (Z.to_nat n) data] /\
    if negb (forallb (fun b => negb (b =? 0x00)) (firstn (S (length w)) (skipn 2 ack)))
    then fst res = Fail ErrI2CWrite /\ I2C.v_r (snd (snd res)) = r0
    else if negb (nth (length w + 3) ack 0 =? 0x01)
    then fst res = Fail ErrI2CRead /\ I2C.v_r (snd (snd res)) = r0
    else fst res = Done tt /\ I2C.v_r (snd (snd res)) = skipn (length w + 4) ack.
Proof.
  intros Hef Hw Hr. cbv zeta. pose proof (I2C_write_read_wp addr w r0 d Hef Hw Hr) as Hwp.
  unfold wp in Hwp. unfold run.
  destruct (I2C.I2C addr w (mkIO d [], I2C.init r0)) as [[[] | e | | ] s'];
    cbv zeta in Hwp; cbn [fst snd].
  - destruct Hwp as (data & Hl & Hall & Hack & Hv). exists data.
    split; [exact Hl | ]. rewrite Hall, Hack. cbn [negb Z.eqb Pos.eqb]. auto.
  - destruct Hwp as (data & Hl & Hv & [[Hall [= ->]] | (Hall & Hack & [= ->])]); exists data;
      (split; [exact Hl | ]); rewrite Hall; cbn [negb].
    + auto.
    + rewrite (eqb_false _ _ Hack). cbn [negb]. auto.
  - destruct Hwp as (data & _ & _ & [[_ [=]] | (_ & _ & [=])]).
  - destruct Hwp as (data & _ & _ & [[_ [=]] | (_ & _ & [=])]).
Qed.

(** C7. The verdict on a response. Over an error-free transport a flush
    (the closure [write]) of [I2C], from any variables within the bounds
    a call keeps (a packet of 1 to 509 bytes in the 512-byte array, a
    response of at most 512 bytes, the bytes to read within [r]), sends
    its frame, reads the response once and ends as [nak_verdict] says:
    with [ErrI2CWrite] if one of the [toWrite] acknowledgement bytes
    that follow the two header bytes is [0x00], any other value counting
    as success; else with [ErrI2CRead] if bytes are to be read, the
    acknowledgement of the read request is pending and the byte after
    the WRITE acknowledgements is not [0x01]; else with nil and the
    bytes read stored into [r]. On either failure nothing more is sent
    or read and [r] is as it was. For whole calls: a write of 1 to 62
    bytes returns nil exactly when the [len w + 1] acknowledgement bytes
    of the response are all non-zero, and fails with [ErrI2CWrite]
    otherwise; a read of 1 to 63 bytes returns nil exactly when byte 2
    of the response is [0x01], and fails with [ErrI2CRead] otherwise,
    [r] untouched; a write followed by a read fails with [ErrI2CWrite]
    on a zero acknowledgement, else with [ErrI2CRead] when the byte
    after the WRITE acknowledgements is not [0x01], [r] untouched in
    both cases, and else returns nil with [r] holding the rest of the
    response; a call of any size always returns, and when it returns one
    of the two errors [r] is as it was passed and the read of the
    response is the last call made on the transport. *)
Theorem I2C_nak_aborts (s : st D I2C.vars) (addr : Z) (w r0 : list Z) (d : D) :
  error_free (D := D) ->
  1 <= slen (I2C.v_p (snd s)) <= 509 -> scap (I2C.v_p (snd s)) = 512 ->
  0 <= I2C.v_toWrite (snd s) -> 0 <= I2C.v_toRead (snd s) ->
  0 < I2C.v_toWrite (snd s) + I2C.v_toRead (snd s) ->
  flush_length (snd s) <= 512 ->
  0 <= I2C.v_rpos (snd s) ->
  I2C.v_rpos (snd s) + I2C.v_toRead (snd s) <= len (I2C.v_r (snd s)) ->
  0 < len w <= 62 ->
  0 < len r0 <= 63 ->
  (exists data,
     let resp := fill (flush_buffer (snd s)) data in
     log (fst (snd (I2C.write s))) =
       log (fst s) ++ [EvWrite (flush_frame (snd s));
                       EvRead (Z.to_nat (flush_length (snd s))) data] /\
     fst (I2C.write s) = nak_verdict (snd s) resp /\
     I2C.v_r (snd (snd (I2C.write s))) =
       match nak_verdict (snd s) resp with
       | Done _ => flush_delivers (snd s) resp
       | _ => I2C.v_r (snd s)
       end) /\
  (let res := run (I2C.I2C addr w) d (I2C.init []) in
   exists data,
     let ack := fill (i2c_response_buffer (i2c_write_frame addr w) (len w + 3)) data in
     log (fst (snd res)) = [EvWrite (i2c_write_frame addr w);
                            EvRead (Z.to_nat (len w + 3)) data] /\
     fst res = if forallb (fun b => negb (b =? 0x00)) (firstn (S (length w)) (skipn 2 ack))
               then Done tt else Fail ErrI2CWrite) /\
  (let res := run (I2C.I2C addr []) d (I2C.init r0) in
   exists data,
     let ack := fill (i2c_response_buffer (i2c_read_frame addr (len r0)) (len r0 + 3)) data in
     log (fst (snd res)) = [EvWrite (i2c_read_frame addr (len r0));
                            EvRead (Z.to_nat (len r0 + 3)) data] /\
     if nth 2 ack 0 =? 0x01
     then fst res = Done tt /\ I2C.v_r (snd (snd res)) = firstn (length r0) (skipn 3 ack)
     else fst res = Fail ErrI2CRead /\ I2C.v_r (snd (snd res)) = r0) /\
  (let res := run (I2C.I2C addr w) d (I2C.init r0) in
   exists data,
     let n := len w + len r0 + 4 in
     let ack := fill (i2c_response_buffer (i2c_write_read_frame addr w (len r0)) n) data in
     log (fst (snd res)) = [EvWrite (i2c_write_read_frame addr w (len r0));
                            EvRead (Z.to_nat n) data] /\
     if negb (forallb (fun b => negb (b =? 0x00)) (firstn (S (length w)) (skipn 2 ack)))
     then fst res = Fail ErrI2CWrite /\ I2C.v_r (snd (snd res)) = r0
     else if negb (nth (length w + 3) ack 0 =? 0x01)
     then fst res = Fail ErrI2CRead /\ I2C.v_r (snd (snd res)) = r0
     else fst res = Done tt /\ I2C.v_r (snd (snd res)) = skipn (length w + 4) ack) /\
  (forall w' r' : list Z,
     let res := run (I2C.I2C addr w') d (I2C.init r') in
     returned (fst res) /\
     (fst res = Fail ErrI2CWrite \/ fst res = Fail ErrI2CRead ->
        I2C.v_r (snd (snd res)) = r' /\
        exists l n data, log (fst (snd res)) = l ++ [EvRead n data])).
Proof.
  intros Hef H1 H2 H3 H4 H5 H6 H7 H8 Hw Hr.
  split; [exact (write_verdict_run s Hef H1 H2 H3 H4 H5 H6 H7 H8) | ].
  split; [exact (I2C_small_write_run addr w d Hef Hw) | ].
  split; [exact (I2C_small_read_run addr r0 d Hef Hr) | ].
  split; [exact (I2C_write_read_run addr w r0 d Hef Hw Hr) | ].
  intros w' r' res. destruct (I2C_run addr w' r' d) as (Hret & _ & _ & Hn & _).
  fold res in Hret, Hn. auto.
Qed.
End NakAborts.

(** [I2C_nak_aborts] on a device whose response does not acknowledge the
    address byte: the final flush of [I2C(0x38, sample_w, nil)] fails
    with [ErrI2CWrite], and so do the calls that write; the call that
    only reads fails with [ErrI2CRead]; the call that writes 600 bytes
    stops at the response to its first packet, of 441 acknowledgements. *)
Lemma I2C_nak_aborts_witness :
  error_free (D := Scripted) /\
  (1 <= slen (I2C.v_p (snd sample_nak_flush)) <= 509 /\
   scap (I2C.v_p (snd sample_nak_flush)) = 512 /\
   0 <= I2C.v_toWrite (snd sample_nak_flush) /\
   0 <= I2C.v_toRead (snd sample_nak_flush) /\
   0 < I2C.v_toWrite (snd sample_nak_flush) + I2C.v_toRead (snd sample_nak_flush) /\
   flush_length (snd sample_nak_flush) <= 512 /\
   0 <= I2C.v_rpos (snd sample_nak_flush) /\
   I2C.v_rpos (snd sample_nak_flush) + I2C.v_toRead (snd sample_nak_flush)
     <= len (I2C.v_r (snd sample_nak_flush))) /\
  0 < len sample_w <= 62 /\
  0 < len sample_r <= 63 /\
  fst (I2C.write sample_nak_flush) = Fail ErrI2CWrite /\
  (exists data,
     log (fst (snd (I2C.write sample_nak_flush))) =
       log (fst sample_nak_flush)
       ++ [EvWrite (flush_frame (snd sample_nak_flush));
           EvRead (Z.to_nat (flush_length (snd sample_nak_flush))) data] /\
     fst (I2C.write sample_nak_flush)
       = nak_verdict (snd sample_nak_flush) (fill (flush_buffer (snd sample_nak_flush)) data)) /\
  fst (run (I2C.I2C 0x38 sample_w) sample_silent (I2C.init [])) = Fail ErrI2CWrite /\
  fst (run (I2C.I2C 0x38 []) sample_silent (I2C.init sample_r)) = Fail ErrI2CRead /\
  fst (run (I2C.I2C 0x38 sample_w) sample_silent (I2C.init sample_r)) = Fail ErrI2CWrite /\
  fst (run (I2C.I2C 0x38 sample_long) sample_silent (I2C.init [])) = Fail ErrI2CWrite /\
  reads (log (fst (snd (run (I2C.I2C 0x38 sample_long) sample_silent (I2C.init [])))))
    = [443%nat] /\
  exists l n data,
    log (fst (snd (run (I2C.I2C 0x38 sample_long) sample_silent (I2C.init []))))
      = l ++ [EvRead n data].
Proof.
  assert (Hef : error_free (D := Scripted))
    by (split; [intros; reflexivity | intros [| x d'] n; reflexivity]).
  assert (H1 : 1 <= slen (I2C.v_p (snd sample_nak_flush)) <= 509)
    by (vm_compute; split; discriminate).
  assert (H2 : scap (I2C.v_p (snd sample_nak_flush)) = 512) by reflexivity.
  assert (H3 : 0 <= I2C.v_toWrite (snd sample_nak_flush)) by (vm_compute; discriminate).
  assert (H4 : 0 <= I2C.v_toRead (snd sample_nak_flush)) by (vm_compute; discriminate).
  assert (H5 : 0 < I2C.v_toWrite (snd sample_nak_flush) + I2C.v_toRead (snd sample_nak_flush))
    by (vm_compute; reflexivity).
  assert (H6 : flush_length (snd sample_nak_flush) <= 512) by (vm_compute; discriminate).
  assert (H7 : 0 <= I2C.v_rpos (snd sample_nak_flush)) by (vm_compute; discriminate).
  assert (H8 : I2C.v_rpos (snd sample_nak_flush) + I2C.v_toRead (snd sample_nak_flush)
               <= len (I2C.v_r (snd sample_nak_flush))) by (vm_compute; discriminate).
  assert (Hw : 0 < len sample_w <= 62) by (vm_compute; split; [reflexivity | discriminate]).
  assert (Hr : 0 < len sample_r <= 63) by (vm_compute; split; [reflexivity | discriminate]).
  split; [exact Hef | ]. split; [repeat split; assumption || apply H1 | ].
  split; [exact Hw | ]. split; [exact Hr | ].
  split; [vm_compute; reflexivity | ].
  destruct (I2C_nak_aborts sample_nak_flush 0x38 sample_w sample_r sample_silent
              Hef H1 H2 H3 H4 H5 H6 H7 H8 Hw Hr) as ((data & Hl & Ho & _) & _ & _ & _ & Hany).
  split; [exists data; split; [exact Hl | exact Ho] | ].
  split; [vm_compute; reflexivity | ].
  split; [vm_compute; reflexivity | ].
  split; [vm_compute; reflexivity | ].
  assert (Hlong : fst (run (I2C.I2C 0x38 sample_long) sample_silent (I2C.init []))
                  = Fail ErrI2CWrite) by (vm_compute; reflexivity).
  split; [exact Hlong | ].
  split; [vm_compute; reflexivity | ].
  exact (proj2 (proj2 (Hany sample_long []) (or_introl Hlong))).
Defined.

(** ** SPI: every call returns; what a call sends *)

Section SPISafety.
Context {D : Type} `{HIDDev D}.
Implicit Types s : st D SPI.vars.

Lemma confirm_safe s :
  scap (SPI.v_p (snd s)) = 512 ->
  wp SPI.confirm
     (fun _ s' => scap (SPI.v_p (snd s')) = 512
                  /\ SPI.v_sent (snd s') = SPI.v_sent (snd s) - 1
                  /\ SPI.v_pos (snd s') = SPI.v_pos (snd s)
                  /\ SPI.v_olen (snd s') = SPI.v_olen (snd s)
                  /\ written (log (fst s')) = written (log (fst s)))
     spi_abort s.
Proof.
  intros Hcap. unfold SPI.confirm. destruct s as [[d l] v]. st_simpl.
  destruct (reslice_some (SPI.v_p v) 5) as (p5 & E5 & Hs5 & Hc5 & _); [lia | ].
  wp_step. wp_step. wp_step. rewrite E5. wp_step. wp_step. wp_step. wp_step.
  wp_read d1 data err Hr.
  destruct err as [c | ].
  { intros [_ Her]. specialize (Her d (length (live p5))).
    rewrite Hr in Her. discriminate. }
  assert (Hl5 : len (fill (live p5) data) = 5).
  { unfold len. rewrite fill_length. exact Hs5. }
  wp_step. wp_step. wp_step.
  rewrite (get_at_nth _ 2) by lia. wp_step. wp_step.
  rewrite (get_at_nth _ 3) by lia. wp_step. wp_step.
  destruct (negb _ && negb _).
  - wp_step. exact I.
  - repeat wp_step. st_simpl. repeat split.
    + unfold scap, slen, len in *. cbn [live spare]. rewrite fill_length. lia.
    + rewrite written_app. cbn. now rewrite app_nil_r.
Qed.

Lemma write_safe (finish : bool) s :
  scap (SPI.v_p (snd s)) = 512 -> slen (SPI.v_p (snd s)) <= 509 ->
  0 <= SPI.v_sent (snd s) ->
  wp (SPI.write finish)
     (fun _ s' =>
        scap (SPI.v_p (snd s')) = 512 /\ 0 <= SPI.v_sent (snd s') /\
        SPI.v_pos (snd s') = SPI.v_pos (snd s) /\
        SPI.v_olen (snd s') = SPI.v_olen (snd s) /\
        if slen (SPI.v_p (snd s)) <=? 2 then s' = s
        else slen (SPI.v_p (snd s')) = 2 /\
             payloads (log (fst s')) =
               payloads (log (fst s)) ++ skipn 2 (live (SPI.v_p (snd s))))
     spi_abort s.
Proof.
  intros Hcap Hlen Hsent. unfold SPI.write. destruct s as [[d l] v]. st_simpl.
  wp_step. wp_step.
  destruct (Z.leb_spec (slen (SPI.v_p v)) 2) as [Hle | Hgt].
  { wp_step. destruct v. auto. }
  destruct (set_header (live (SPI.v_p v))
              (byte (Z.land (slen (SPI.v_p v) - 2) 255))
              (byte (Z.land (Z.shiftr (slen (SPI.v_p v) - 2) 8) 255)))
    as [l1 [E1 E2]]; [unfold slen in Hgt; lia | ].
  wp_step. wp_step. rewrite E1. wp_step. wp_step. rewrite E2.
  wp_step. wp_step. wp_step.
  wp_write d1 err Hw.
  destruct err as [c | ].
  { intros [Hew _]. specialize (Hew d (byte (Z.land (slen (SPI.v_p v) - 2) 255)
       :: byte (Z.land (Z.shiftr (slen (SPI.v_p v) - 2) 8) 255)
       :: skipn 2 (live (SPI.v_p v)))).
    rewrite Hw in Hew. discriminate. }
  wp_step. wp_step. wp_step. wp_step.
  set (f := byte (Z.land (slen (SPI.v_p v) - 2) 255)
       :: byte (Z.land (Z.shiftr (slen (SPI.v_p v) - 2) 8) 255)
       :: skipn 2 (live (SPI.v_p v))) in *.
  assert (Hf : len f = slen (SPI.v_p v)).
  { unfold f, slen, len in *. cbn [length]. rewrite length_skipn. lia. }
  match goal with |- wp _ _ _ ?s0 => set (s1 := s0) end.
  assert (Hdrain : wp (when finish
               (sent <- local SPI.v_sent ;;
                while (Z.to_nat sent) (fun s => 0 <? SPI.v_sent (snd s)) SPI.confirm))
            (fun _ s' => scap (SPI.v_p (snd s')) = 512 /\ 0 <= SPI.v_sent (snd s')
                         /\ SPI.v_pos (snd s') = SPI.v_pos v
                         /\ SPI.v_olen (snd s') = SPI.v_olen v
                         /\ written (log (fst s')) = written (l ++ [EvWrite f]))
            spi_abort s1).
  { assert (Hs1 : scap (SPI.v_p (snd s1)) = 512).
    { unfold s1. st_simpl. unfold scap, slen in *. cbn [live spare]. rewrite Hf. exact Hcap. }
    wp_step. destruct finish; [ | unfold s1 in *; st_simpl; repeat split; try assumption; lia].
    wp_step. wp_step.
    eapply wp_mono with
      (Q := fun _ s' => (scap (SPI.v_p (snd s')) = 512 /\ 0 <= SPI.v_sent (snd s')
                         /\ SPI.v_pos (snd s') = SPI.v_pos v
                         /\ SPI.v_olen (snd s') = SPI.v_olen v
                         /\ written (log (fst s')) = written (l ++ [EvWrite f]))
                        /\ (0 <? SPI.v_sent (snd s')) = false)
      (R := spi_abort); [ | tauto | auto].
    apply wp_while with (m := fun s' => Z.to_nat (SPI.v_sent (snd s'))).
    - intros s' _ Hc. zbool. lia.
    - intros s' (Hc' & Hs' & Hp' & Ho' & Hw') Hc. zbool.
      eapply wp_mono; [apply confirm_safe; exact Hc' | | auto].
      intros a s'' (Hc'' & Hs'' & Hp'' & Ho'' & Hw'').
      cbv beta. repeat split; try congruence; lia.
    - unfold s1 in *. st_simpl. repeat split; try assumption; lia.
    - unfold s1. st_simpl. lia. }
  apply wp_bind. eapply wp_mono; [exact Hdrain | | auto].
  intros a [[d2 l2] v2] (Hc2 & Hs2 & Hp2 & Ho2 & Hw2). st_simpl.
  destruct (reslice_some (SPI.v_p v2) 2) as (p2 & Er & Hsl & Hcp & _); [lia | ].
  wp_step. wp_step. wp_step. rewrite Er. wp_step. wp_step. st_simpl.
  repeat split; try assumption; try congruence.
  unfold payloads. rewrite Hw2, written_app, map_app, concat_app.
  cbn [written flat_map map concat app]. now rewrite app_nil_r.
Qed.

Lemma skipn_short {A} (n : nat) (l : list A) : (length l <= n)%nat -> skipn n l = [].
Proof. intros Hl. now apply skipn_all2. Qed.

Lemma skipn_2_app (l1 l2 : list Z) :
  2 <= len l1 -> skipn 2 (l1 ++ l2) = skipn 2 l1 ++ l2.
Proof.
  intros Hl. rewrite skipn_app.
  replace (2 - length l1)%nat with 0%nat by (unfold len in Hl; lia). reflexivity.
Qed.

Lemma body_safe (w : list Z) s :
  spi_safe w s -> SPI.v_pos (snd s) < len w ->
  wp (SPI.body w (len w))
     (fun _ s' => spi_safe w s' /\
        (Z.to_nat (len w - SPI.v_pos (snd s')) < Z.to_nat (len w - SPI.v_pos (snd s)))%nat)
     spi_abort s.
Proof.
  intros (Hpos & Holen & Hcap & Hsent & Hp & HB) Hlt. unfold SPI.body, spi_safe.
  destruct s as [[d l] v]. st_simpl.
  change SPI.maxOpLen with 31750 in *. change SPI.maxDataLen with 509.
  wp_step. wp_step. wp_step. wp_step. wp_step.
  eapply wp_mono with
    (Q := fun _ s' =>
       fst s' = mkIO d l /\
       SPI.v_sent (snd s') = SPI.v_sent v /\
       scap (SPI.v_p (snd s')) = 512 /\ 2 <= slen (SPI.v_p (snd s')) <= 508 /\
       (len w < 31750 ->
        payloads l ++ skipn 2 (live (SPI.v_p (snd s'))) =
          spi_header (len w) ++ firstn (Z.to_nat (SPI.v_pos v)) w))
    (R := spi_abort); [ | | auto].
  { wp_step. destruct (Z.eqb_spec (SPI.v_olen v) 0) as [Ho | Ho].
    - cbv zeta. wp_step. wp_step. wp_step. st_simpl.
      destruct (SPI.v_p v) as [lv sp] eqn:Ep. unfold slen, scap, len in Hp, Hcap.
      cbn [live spare] in Hp, Hcap.
      destruct lv as [| x lv]; [ | cbn [length] in Hp; lia].
      cbn [length] in Hcap.
      split; [reflexivity | ]. split; [reflexivity | ].
      split; [ | split].
      + rewrite scap_append; unfold scap, len; cbn [live spare length]; lia.
      + rewrite slen_append. unfold slen, len. cbn [live length]. lia.
      + intros Hw. destruct (HB Hw) as [Hop HP]. rewrite Ho in Hop.
        rewrite <- Hop in *. cbn [Z.eqb skipn] in HP. rewrite app_nil_r in HP.
        rewrite HP. cbn [append live app skipn length].
        rewrite Z.sub_0_r. rewrite (gtb_false (len w) 31750) by lia.
        change (Z.to_nat 0) with 0%nat. cbn [firstn]. now rewrite app_nil_r.
    - st_simpl.
      split; [reflexivity | ]. split; [reflexivity | ]. split; [exact Hcap | ].
      split; [exact Hp | ].
      intros Hw. destruct (HB Hw) as [Hop HP].
      rewrite (eqb_false (SPI.v_pos v) 0) in HP by lia. exact HP. }
  intros a [[d1 l1] v1] (Hio & Hs1 & Hc1 & Hl1 & HB1). st_simpl.
  injection Hio as -> ->.
  wp_step. wp_step. cbv zeta.
  set (dlen := if _ >? 31750 then _ else _).
  assert (Hd : 1 <= dlen /\ dlen <= len w - SPI.v_pos v /\
               slen (SPI.v_p v1) + dlen <= 509 /\ SPI.v_olen v + dlen <= 31750).
  { subst dlen.
    destruct (Z.gtb_spec (slen (SPI.v_p v1) + (len w - SPI.v_pos v)) 509);
      match goal with |- context [?a >? ?b] => destruct (Z.gtb_spec a b) end; lia. }
  destruct Hd as (Hd1 & Hd2 & Hd3 & Hd4).
  rewrite (sub_some w (SPI.v_pos v) (SPI.v_pos v + dlen)) by lia.
  set (data := firstn _ (skipn _ w)).
  assert (Hdata : len data = dlen).
  { subst data. unfold len in *. rewrite length_firstn, length_skipn. lia. }
  wp_step. wp_step. wp_step. wp_step. wp_step. wp_step. wp_step.
  eapply wp_mono with
    (Q := fun _ s' =>
       scap (SPI.v_p (snd s')) = 512 /\ 2 <= slen (SPI.v_p (snd s')) <= 508 /\
       0 <= SPI.v_sent (snd s') /\
       payloads (log (fst s')) ++ skipn 2 (live (SPI.v_p (snd s'))) =
         payloads l ++ skipn 2 (live (SPI.v_p v1)) ++ data)
    (R := spi_abort); [ | | auto].
  { assert (Hsl : slen (append (SPI.v_p v1) data) = slen (SPI.v_p v1) + dlen)
      by (now rewrite slen_append, Hdata).
    assert (Hsc : scap (append (SPI.v_p v1) data) = 512).
    { rewrite scap_append; [exact Hc1 | ]. unfold scap, slen in *. lia. }
    assert (Hsk : skipn 2 (live (append (SPI.v_p v1) data))
                  = skipn 2 (live (SPI.v_p v1)) ++ data).
    { cbn [append live]. apply skipn_2_app. unfold slen in Hl1. lia. }
    wp_step. destruct (Z.geb_spec (slen (append (SPI.v_p v1) data)) 509) as [Hge | Hlt9].
    - eapply wp_mono; [apply write_safe | | auto]; st_simpl; try lia; try assumption.
      intros a' s' (Hc' & Hs' & _ & _ & Hcase). st_simpl.
      rewrite (leb_false (slen (append (SPI.v_p v1) data)) 2) in Hcase by lia.
      destruct Hcase as [H2 HP'].
      split; [exact Hc' | ]. split; [lia | ]. split; [exact Hs' | ].
      rewrite HP', Hsk. rewrite (skipn_short 2 (live (SPI.v_p (snd s')))).
      + now rewrite app_nil_r.
      + unfold slen, len in H2. lia.
    - st_simpl. split; [exact Hsc | ]. split; [lia | ]. split; [lia | ].
      now rewrite Hsk. }
  intros a' [[d2 l2] v2] (Hc2 & Hl2 & Hs2 & HP2). st_simpl.
  assert (Hstream : len w < 31750 ->
            payloads l2 ++ skipn 2 (live (SPI.v_p v2)) =
              spi_header (len w) ++ firstn (Z.to_nat (SPI.v_pos v + dlen)) w).
  { intros Hw. rewrite HP2, app_assoc, (HB1 Hw), <- app_assoc. f_equal.
    subst data. rewrite firstn_add_skipn. f_equal. lia. }
  wp_step. wp_step. wp_step. wp_step. wp_step.
  destruct (Z.eqb_spec (SPI.v_olen v + dlen) 31750) as [Hfull | Hpart].
  - wp_step. eapply wp_mono; [apply write_safe | | auto]; st_simpl; try lia; try assumption.
    intros a'' [[d3 l3] v3] (Hc3 & Hs3 & Hp3 & Ho3 & _). st_simpl.
    destruct (reslice_some (SPI.v_p v3) 0) as (p0 & Er & Hsl0 & Hcp0 & _); [lia | ].
    wp_step. wp_step. wp_step. rewrite Er. wp_step. wp_step. wp_step. wp_step.
    st_simpl. split; [ | lia].
    split; [lia | ]. split; [lia | ]. split; [congruence | ]. split; [exact Hs3 | ].
    split; [exact Hsl0 | ].
    intros Hw. destruct (HB Hw) as [Hop _]. lia.
  - st_simpl. split; [ | lia].
    split; [lia | ]. split; [lia | ]. split; [exact Hc2 | ]. split; [exact Hs2 | ].
    rewrite (eqb_false (SPI.v_olen v + dlen) 0) by lia.
    split; [exact Hl2 | ].
    intros Hw. destruct (HB Hw) as [Hop _].
    split; [lia | ].
    rewrite (eqb_false (SPI.v_pos v + dlen) 0) by lia. exact (Hstream Hw).
Qed.

Lemma SPI_safe_wp (w : list Z) (d : D) :
  wp (SPI.SPI w [])
     (fun _ s' =>
        len w < SPI.maxOpLen ->
        payloads (log (fst s')) = if len w =? 0 then [] else spi_header (len w) ++ w)
     spi_abort (mkIO d [], SPI.init).
Proof.
  unfold SPI.SPI. change (negb (len [] =? 0)) with false. cbv iota zeta. wp_step.
  eapply wp_mono with
    (Q := fun _ s' => spi_safe w s' /\ (SPI.v_pos (snd s') <? len w) = false)
    (R := spi_abort); [ | | auto].
  - apply wp_while with (m := fun s' => Z.to_nat (len w - SPI.v_pos (snd s'))).
    + intros s' _ Hc. zbool. lia.
    + intros s' Hs Hc. zbool. now apply body_safe.
    + pose proof (len_nonneg w). unfold spi_safe, SPI.init. st_simpl.
      change SPI.maxOpLen with 31750.
      split; [lia | ]. split; [lia | ]. split; [reflexivity | ]. split; [lia | ].
      split; [reflexivity | ]. intros _. split; reflexivity.
    + unfold SPI.init. st_simpl. unfold len. lia.
  - intros a s' [(Hpos & Holen & Hcap & Hsent & Hp & HB) Hc]. zbool.
    assert (Hlen : slen (SPI.v_p (snd s')) <= 509)
      by (destruct (SPI.v_olen (snd s') =? 0); lia).
    eapply wp_mono; [apply write_safe; assumption | | auto].
    intros a' s'' (_ & _ & _ & _ & Hcase) Hw. cbv beta in Hcase.
    destruct (HB Hw) as [_ HP].
    replace (SPI.v_pos (snd s')) with (len w) in HP by lia.
    replace (Z.to_nat (len w)) with (length w) in HP by (unfold len; lia).
    rewrite firstn_all in HP.
    destruct (Z.leb_spec (slen (SPI.v_p (snd s'))) 2) as [Hle | Hgt].
    + subst s''. rewrite (skipn_short 2) in HP by (unfold slen, len in Hle; lia).
      now rewrite app_nil_r in HP.
    + destruct Hcase as [_ ->]. exact HP.
Qed.

Lemma SPI_safe_run (w : list Z) (d : D) :
  let res := run (SPI.SPI w []) d SPI.init in
  (returned (fst res) /\
   (forall e, fst res = Fail e -> e = ErrInvalidResponse \/ exists c, e = ErrTransport c) /\
   (error_free (D := D) -> fst res = Done tt \/ fst res = Fail ErrInvalidResponse)) /\
  (len w < SPI.maxOpLen -> fst res = Done tt ->
   payloads (log (fst (snd res))) = if len w =? 0 then [] else spi_header (len w) ++ w).
Proof.
  pose proof (SPI_safe_wp w d) as Hs. unfold wp in Hs. cbv zeta. unfold run.
  destruct (SPI.SPI w [] (mkIO d [], SPI.init)) as [[[] | e | | ] s'];
    cbn [fst snd]; unfold spi_abort in Hs.
  - split; [ | intros Hw _; exact (Hs Hw)].
    split; [exact I | ]. split; [discriminate | auto].
  - split; [ | discriminate].
    split; [exact I | ]. split.
    + intros e' [= <-]. destruct e; try contradiction; eauto.
    + intros Hef. destruct e; try contradiction; auto.
  - contradiction.
  - contradiction.
Qed.

(** X27. For any write buffer and any device, [SPI] returns: it never
    panics and its loop ends within [len w] turns; it fails only with
    [ErrInvalidResponse] or with an error of the transport, and over an
    error-free transport only with [ErrInvalidResponse]. *)
Theorem SPI_returns (w : list Z) (d : D) :
  let res := run (SPI.SPI w []) d SPI.init in
  returned (fst res) /\
  (forall e, fst res = Fail e -> e = ErrInvalidResponse \/ exists c, e = ErrTransport c) /\
  (error_free (D := D) -> fst res = Done tt \/ fst res = Fail ErrInvalidResponse).
Proof. exact (proj1 (SPI_safe_run w d)). Qed.

(** X28. When [SPI] returns nil for a buffer of 1 to 31749 bytes, less
    than one write operation holds, the payloads of the packets it sent,
    one after the other, are the operation header, [0xc4] and the length
    low byte first, followed by [w], whole and in order. *)
Theorem SPI_payload (w : list Z) (d : D) :
  0 < len w < SPI.maxOpLen ->
  let res := run (SPI.SPI w []) d SPI.init in
  fst res = Done tt ->
  payloads (log (fst (snd res))) = spi_header (len w) ++ w.
Proof.
  intros Hw res Hdone.
  pose proof (proj2 (SPI_safe_run w d) (proj2 Hw) Hdone) as Hp.
  rewrite (eqb_false (len w) 0) in Hp by lia. exact Hp.
Qed.
End SPISafety.

(** [SPI_payload] on 600 bytes, which go out in two packets to the
    acknowledging device. *)
Lemma SPI_payload_witness :
  0 < len (repeat 0x11 600) < SPI.maxOpLen /\
  fst (run (SPI.SPI (repeat 0x11 600) []) acking SPI.init) = Done tt /\
  payloads (log (fst (snd (run (SPI.SPI (repeat 0x11 600) []) acking SPI.init))))
    = spi_header (len (repeat 0x11 600)) ++ repeat 0x11 600.
Proof.
  assert (Hl : 0 < len (repeat 0x11 600) < SPI.maxOpLen) by (vm_compute; split; reflexivity).
  assert (Hd : fst (run (SPI.SPI (repeat 0x11 600) []) acking SPI.init) = Done tt)
    by (vm_compute; reflexivity).
  split; [exact Hl | ]. split; [exact Hd | ].
  exact (SPI_payload (repeat 0x11 600) acking Hl Hd).
Defined.

(** ** spi-flash: Write *)

Ltac fl_simpl :=
  unfold Flash.set_addr, Flash.set_dlen, Flash.set_w in *;
  cbn [fst snd Dev log Flash.f_addr Flash.f_dlen Flash.f_w] in *.

Lemma set_at_head (a b1 b2 b3 : Z) (dst : list Z) (x1 x2 x3 : Z) :
  set_at (a :: b1 :: b2 :: b3 :: dst) 1 x1 = Some (a :: x1 :: b2 :: b3 :: dst) /\
  set_at (a :: x1 :: b2 :: b3 :: dst) 2 x2 = Some (a :: x1 :: x2 :: b3 :: dst) /\
  set_at (a :: x1 :: x2 :: b3 :: dst) 3 x3 = Some (a :: x1 :: x2 :: x3 :: dst).
Proof.
  unfold set_at, len. cbn [length].
  repeat split.
  - destruct (Z.leb_spec (Z.of_nat (S (S (S (S (length dst)))))) 1); [lia | reflexivity].
  - destruct (Z.leb_spec (Z.of_nat (S (S (S (S (length dst)))))) 2); [lia | reflexivity].
  - destruct (Z.leb_spec (Z.of_nat (S (S (S (S (length dst)))))) 3); [lia | reflexivity].
Qed.

Lemma chunk_sub (p : list Z) (k : nat) (dl : Z) :
  256 * Z.of_nat k < len p ->
  dl = Z.min 256 (len p - 256 * Z.of_nat k) ->
  firstn (Z.to_nat (256 * Z.of_nat k + dl - 256 * Z.of_nat k))
         (skipn (Z.to_nat (256 * Z.of_nat k)) p) = flash_chunk p k.
Proof.
  intros Hk ->. unfold flash_chunk.
  replace (Z.to_nat (256 * Z.of_nat k)) with (256 * k)%nat by lia.
  set (l := skipn (256 * k) p).
  assert (Hl : Z.of_nat (length l) = len p - 256 * Z.of_nat k).
  { subst l. rewrite length_skipn. unfold len in *. lia. }
  destruct (Z.le_gt_cases 256 (len p - 256 * Z.of_nat k)) as [Hfull | Hshort].
  - f_equal. lia.
  - rewrite !firstn_all2 by lia. reflexivity.
Qed.

Lemma flash_chunk_length (p : list Z) (k : nat) :
  Z.of_nat (length (flash_chunk p k)) = Z.max 0 (Z.min 256 (len p - 256 * Z.of_nat k)).
Proof.
  unfold flash_chunk. rewrite length_firstn, length_skipn. unfold len. lia.
Qed.

Lemma flash_sent_S (p : list Z) (k : nat) :
  flash_sent p (S k) = flash_sent p k ++ flash_round (flash_page p k) ++ flash_poll.
Proof.
  unfold flash_sent. rewrite seq_S, flat_map_app. cbn [flat_map Nat.add].
  now rewrite app_nil_r.
Qed.

Section FlashWrite.
Context {D : Type} `{HIDDev D}.

Lemma wp_call {L L' A : Type} (l0 : L') (c : M (st D L') A)
      (Q : A -> st D L -> Prop) R (s : st D L) :
  wp c (fun a s' => Q a (fst s', snd s)) (fun x s' => R x (fst s', snd s)) (fst s, l0) ->
  wp (call l0 c) Q R s.
Proof.
  unfold wp, call. destruct (c (fst s, l0)) as [[a | e | | ] s']; auto.
Qed.

Lemma WriteEnable_wp (s : st D unit) (Q : unit -> st D unit -> Prop) R :
  error_free (D := D) ->
  (forall d' data,
     Q tt (mkIO d' (log (fst s) ++ [EvWrite (cs0_frame true); EvWrite (spi_packet [0x06]);
                                    EvRead 5 data; EvWrite (cs0_frame false)]), snd s)) ->
  wp (Flash.WriteEnable true) Q R s.
Proof.
  intros Hef HQ. unfold wp, Flash.WriteEnable. cbv zeta.
  change (if negb true then 4 else 6) with 6.
  destruct (transfer_small [6] (fun _ => ret tt) s Hef) as (d1 & data1 & err1 & E1 & _);
    [unfold len; cbn [length]; lia | ].
  match type of E1 with ?lhs = _ =>
    match goal with |- context [match ?c with pair _ _ => _ end] =>
      change c with lhs end end.
  rewrite E1. unfold ret. apply HQ.
Qed.

Lemma transfer_wp (w : list Z) (s : st D unit) (Q : option error -> st D unit -> Prop) R :
  error_free (D := D) ->
  0 < len w < 504 ->
  (forall d' data err,
     err = None \/ err = Some ErrInvalidResponse ->
     Q err (mkIO d' (log (fst s) ++ [EvWrite (cs0_frame true); EvWrite (spi_packet w);
                                     EvRead 5 data; EvWrite (cs0_frame false)]), snd s)) ->
  wp (attempt (SPI.SetCS true) ;;
      err <- attempt (call SPI.init (SPI.SPI w [])) ;;
      attempt (SPI.SetCS false) ;;
      ret err) Q R s.
Proof.
  intros Hef Hw HQ. unfold wp.
  destruct (transfer_small w (fun err => ret err) s Hef Hw) as (d1 & data1 & err1 & E1 & Herr).
  match type of E1 with ?lhs = _ =>
    match goal with |- context [match ?c with pair _ _ => _ end] =>
      change c with lhs end end.
  rewrite E1. unfold ret. now apply HQ.
Qed.

Lemma poll_wp (fuel : nat) (s : st D unit) (Q : unit -> st D unit -> Prop) R :
  error_free (D := D) ->
  (1 <= fuel)%nat ->
  (forall d',
     Q tt (mkIO d' (log (fst s) ++ [EvWrite (cs0_frame true); EvWrite (cs0_frame false)]),
           snd s)) ->
  wp (poll fuel Flash.IsBusy) Q R s.
Proof.
  intros Hef Hfuel HQ. unfold wp.
  destruct fuel as [| fuel]; [lia | ]. cbn [poll]. unfold bind at 1.
  rewrite Flash_IsBusy_run. cbv beta iota. unfold bind.
  destruct (attempt_SetCS_ok true s Hef) as [d3 E3]. rewrite E3.
  match goal with |- context [attempt (SPI.SetCS false) ?s3] =>
    destruct (attempt_SetCS_ok false s3 Hef) as [d4 E4] end.
  rewrite E4. cbv beta iota. unfold ret. cbn [fst snd log].
  rewrite <- app_assoc. apply HQ.
Qed.

Lemma Write_body_pages (fuel : nat) (p : list Z) (s : st D Flash.write_vars) :
  error_free (D := D) ->
  (1 <= fuel)%nat ->
  flash_inv p s -> Flash.f_addr (snd s) < len p ->
  wp (Flash.Write_body fuel p)
     (fun _ s' => flash_inv p s' /\
        (Z.to_nat (len p - Flash.f_addr (snd s')) < Z.to_nat (len p - Flash.f_addr (snd s)))%nat)
     (flash_abort p) s.
Proof.
  intros Hef Hfuel (k & b1 & b2 & b3 & dst & Hlog & Hw & Hdst & Hk & Hcase) Hlt.
  destruct s as [[d l] [addr dlen w]]. fl_simpl. subst w.
  destruct Hcase as [(-> & -> & Hle & Hbefore) | [-> _]]; [ | lia].
  unfold Flash.Write_body.
  wp_step. wp_step. fl_simpl. wp_step. wp_step. fl_simpl. wp_step.
  set (dl := Z.min 256 (len p - 256 * Z.of_nat k)).
  eapply wp_mono with
    (Q := fun _ s' => s' = (mkIO d l, Flash.mkWrite (256 * Z.of_nat k) dl
                                         (2 :: b1 :: b2 :: b3 :: dst)))
    (R := flash_abort p); [ | | auto].
  { wp_step. destruct (Z.gtb_spec (256 * Z.of_nat k + 256) (len p)).
    - wp_step. fl_simpl. subst dl. do 2 f_equal. lia.
    - subst dl. do 2 f_equal. lia. }
  intros _ s' ->.
  assert (Hdl : 1 <= dl <= 256 /\ 256 * Z.of_nat k + dl <= len p) by (subst dl; lia).
  wp_step. wp_step. fl_simpl. wp_step. wp_step. fl_simpl.
  set (x1 := byte (Z.land (Z.shiftr (256 * Z.of_nat k) 16) 255)).
  set (x2 := byte (Z.land (Z.shiftr (256 * Z.of_nat k) 8) 255)).
  set (x3 := byte (Z.land (256 * Z.of_nat k) 255)).
  destruct (set_at_head 2 b1 b2 b3 dst x1 x2 x3) as (E1 & E2 & E3).
  wp_step. rewrite E1. wp_step. wp_step. rewrite E2. wp_step. wp_step. rewrite E3. wp_step.
  wp_step.
  rewrite (sub_some (2 :: x1 :: x2 :: x3 :: dst) 4) by (unfold len; cbn [length]; lia).
  replace (Z.to_nat (len (2 :: x1 :: x2 :: x3 :: dst) - 4)) with (length dst)
    by (unfold len; cbn [length]; lia).
  change (Z.to_nat 4) with 4%nat. cbn [skipn]. rewrite firstn_all.
  wp_step. wp_step.
  rewrite (sub_some p (256 * Z.of_nat k) (256 * Z.of_nat k + dl)) by lia.
  rewrite (chunk_sub p k dl) by (subst dl; lia).
  wp_step. cbv zeta. cbn [firstn app].
  set (src := flash_chunk p k).
  assert (Hsrc : Z.of_nat (length src) = dl).
  { subst src dl. rewrite flash_chunk_length. lia. }
  assert (Hcopy : copy dst src = src ++ skipn (length src) dst).
  { unfold copy. rewrite firstn_all2 by lia. reflexivity. }
  rewrite Hcopy.
  set (dst' := src ++ skipn (length src) dst).
  assert (Hdst' : length dst' = 256%nat).
  { subst dst'. rewrite length_app, length_skipn. lia. }
  assert (Hpage : 2 :: x1 :: x2 :: x3 :: dst' = flash_page p k).
  { unfold flash_page. cbv zeta. fold src. rewrite <- Hbefore. reflexivity. }
  wp_step. wp_step. fl_simpl. wp_step.
  apply wp_call. apply WriteEnable_wp; [exact Hef | ]. intros d1 data1. fl_simpl.
  wp_step.
  apply wp_call. apply transfer_wp; [exact Hef | unfold len; cbn [length]; lia | ].
  intros d2 data2 err Herr. fl_simpl.
  set (l2 := (l ++ _) ++ _).
  assert (Hl2 : written l2 = flash_sent p k ++ flash_round (flash_page p k)).
  { subst l2. rewrite !written_app, Hlog, Hpage. cbn. rewrite <- app_assoc. reflexivity. }
  clearbody l2.
  destruct Herr as [-> | ->].
  - wp_step. apply wp_call. apply poll_wp; [exact Hef | exact Hfuel | ].
    intros d3. fl_simpl. wp_step. fl_simpl.
    split; [ | lia].
    exists (S k), x1, x2, x3, dst'. fl_simpl.
    split.
    { rewrite written_app, Hl2, flash_sent_S. cbn. rewrite <- app_assoc. reflexivity. }
    split; [reflexivity | ]. split; [exact Hdst' | ]. split; [lia | ].
    destruct (Z.le_gt_cases 256 (len p - 256 * Z.of_nat k)) as [Hfull | Hshort].
    + left. split; [subst dl; lia | ]. split; [subst dl; lia | ]. split; [lia | ].
      subst dst'. rewrite skipn_all2 by (subst dl; lia). apply app_nil_r.
    + right. subst dl. split; lia.
  - wp_step. split; [reflexivity | ]. exists k. fl_simpl. auto.
Qed.

Lemma Flash_Write_wp (fuel : nat) (p : list Z) (d : D) :
  error_free (D := D) ->
  (1 <= fuel)%nat ->
  wp (Flash.Write fuel p)
     (fun n s' => n = len p /\
        exists k : nat,
          256 * (Z.of_nat k - 1) < len p <= 256 * Z.of_nat k /\
          written (log (fst s')) = flash_sent p k)
     (flash_abort p) (mkIO d [], Flash.Write_init).
Proof.
  intros Hef Hfuel. unfold Flash.Write, Flash.Write_init.
  assert (E0 : set_at (repeat 0 (Z.to_nat (4 + 256))) 0 2
               = Some (2 :: 0 :: 0 :: 0 :: repeat 0 256)) by reflexivity.
  wp_step. wp_step. fl_simpl. wp_step. rewrite E0. wp_step. wp_step. wp_step. fl_simpl.
  wp_step.
  eapply wp_mono with
    (Q := fun _ s' => flash_inv p s' /\ (Flash.f_addr (snd s') <? len p) = false)
    (R := flash_abort p); [ | | auto].
  - apply wp_while with (m := fun s' => Z.to_nat (len p - Flash.f_addr (snd s'))).
    + intros s' _ Hc. zbool. lia.
    + intros s' Hs Hc. zbool. now apply Write_body_pages.
    + pose proof (len_nonneg p). exists 0%nat, 0, 0, 0, (repeat 0 256). fl_simpl.
      split; [reflexivity | ]. split; [reflexivity | ]. split; [reflexivity | ].
      split; [lia | ]. left. repeat split; lia.
    + fl_simpl. unfold len. lia.
  - intros a s' [(k & b1 & b2 & b3 & dst & Hlog & _ & _ & Hk & Hcase) Hc]. zbool.
    wp_step. wp_step. wp_step.
    split; [destruct Hcase as [(? & _ & ? & _) | [? _]]; lia | ].
    exists k. split; [ | exact Hlog].
    destruct Hcase as [(? & _ & ? & _) | [? ?]]; lia.
Qed.

Lemma Flash_Write_run (fuel : nat) (p : list Z) (d : D) :
  error_free (D := D) ->
  (1 <= fuel)%nat ->
  let res := run (Flash.Write fuel p) d Flash.Write_init in
  exists k : nat,
    match fst res with
    | Done n =>
        n = len p /\ 256 * (Z.of_nat k - 1) < len p <= 256 * Z.of_nat k /\
        written (log (fst (snd res))) = flash_sent p k
    | Fail e =>
        e = ErrInvalidResponse /\
        Flash.f_addr (snd (snd res)) = 256 * Z.of_nat k /\ 256 * Z.of_nat k < len p /\
        written (log (fst (snd res))) = flash_sent p k ++ flash_round (flash_page p k)
    | _ => False
    end.
Proof.
  intros Hef Hfuel. pose proof (Flash_Write_wp fuel p d Hef Hfuel) as Hs.
  unfold wp in Hs. cbv zeta. unfold run.
  destruct (Flash.Write fuel p (mkIO d [], Flash.Write_init)) as [[n | e | | ] s'];
    cbn [fst snd]; unfold flash_abort in Hs.
  - destruct Hs as (Hn & k & Hk & Hl). exists k. auto.
  - destruct Hs as ([= ->] & k & Ha & Hk & Hl). exists k. auto.
  - destruct Hs as [[=] _].
  - destruct Hs as [[=] _].
Qed.

(** X29. Over an error-free transport [Flash.Write], with one poll of
    the busy flag allowed, never panics. It returns [len p] with nil
    once every page is programmed, having sent for each page write
    enable, the page program and one poll; or it fails with
    [ErrInvalidResponse] at page [k], with [addr] still [256 * k] and
    the poll of that page not made. Every page program carries 256 data
    bytes: a last chunk that is short is followed by the end of the
    chunk before it, or by zeros in the first page. *)
Theorem Flash_Write_pages (fuel : nat) (p : list Z) (d : D) :
  error_free (D := D) ->
  (1 <= fuel)%nat ->
  let res := run (Flash.Write fuel p) d Flash.Write_init in
  exists k : nat,
    match fst res with
    | Done n =>
        n = len p /\ 256 * (Z.of_nat k - 1) < len p <= 256 * Z.of_nat k /\
        written (log (fst (snd res))) = flash_sent p k
    | Fail e =>
        e = ErrInvalidResponse /\
        Flash.f_addr (snd (snd res)) = 256 * Z.of_nat k /\ 256 * Z.of_nat k < len p /\
        written (log (fst (snd res))) = flash_sent p k ++ flash_round (flash_page p k)
    | _ => False
    end.
Proof. exact (Flash_Write_run fuel p d). Qed.
End FlashWrite.

(** [Flash_Write_pages] on [sample_program] and the acknowledging
    device. *)
Lemma Flash_Write_pages_witness :
  error_free (D := Acking) /\ (1 <= 1)%nat /\
  exists k : nat,
    match fst (run (Flash.Write 1 sample_program) acking Flash.Write_init) with
    | Done n =>
        n = len sample_program /\
        256 * (Z.of_nat k - 1) < len sample_program <= 256 * Z.of_nat k /\
        written (log (fst (snd (run (Flash.Write 1 sample_program) acking Flash.Write_init))))
          = flash_sent sample_program k
    | Fail e =>
        e = ErrInvalidResponse /\
        Flash.f_addr (snd (snd (run (Flash.Write 1 sample_program) acking Flash.Write_init)))
          = 256 * Z.of_nat k /\
        256 * Z.of_nat k < len sample_program /\
        written (log (fst (snd (run (Flash.Write 1 sample_program) acking Flash.Write_init))))
          = flash_sent sample_program k ++ flash_round (flash_page sample_program k)
    | _ => False
    end.
Proof.
  assert (Hef : error_free (D := Acking)) by (split; intros; reflexivity).
  split; [exact Hef | ]. split; [lia | ].
  exact (Flash_Write_pages 1 sample_program acking Hef (le_n 1)).
Defined.

